(** * AggTradesTool: hourly aggregation, whale detection and checkpointing

    A shallow embedding of the Go packages [aggregator], [whale], [state]
    and [pipeline] of AggTradesTool, with the properties of the
    specification stated over it.

    Conventions.
    - Go's [int] and [int64] are integers in [Z] with the two's-complement
      wrap-around written out ([Go.int64_wrap]).
    - Go's [float64] is Rocq's primitive binary64 [float]; every operation
      is the IEEE-754 one, so rounding, infinities and NaN are those of
      the program.
    - Go strings are [string] and are compared byte-wise ([String.compare]).
    - A Go map is a [gmap]; a slice is a [list].
    - Run-time panics are modelled by [None].
    - Go's standard library ([math/rand], [time], [os]) is not part of the
      repository: the random source is an interface ([RandSource]), of
      which [GoRand.source] is the generator of [math/rand] itself, the
      calendar functions of [time.Time] are an interface ([Clock]), and
      the file system is an explicit store with injected faults. *)

From Stdlib Require Import ZArith List String Ascii Floats Lia Bool.
From Stdlib Require Import Sorting.Permutation Sorting.Sorted.
From Stdlib Require OrderedTypeEx.
From stdpp Require Import base option gmap strings list fin_maps.

Set Warnings "-inexact-float".
Open Scope Z_scope.

(* ===================================================================== *)
(** * Go base types *)
(* ===================================================================== *)

Module Go.

(** Two's-complement reduction of an integer to 64 bits. *)
Definition int64_wrap (z : Z) : Z := (z + 2 ^ 63) mod 2 ^ 64 - 2 ^ 63.

(** [a + b] on [int64] (and on [int], on a 64-bit platform). *)
Definition int64_add (a b : Z) : Z := int64_wrap (a + b).

Definition int64_sub (a b : Z) : Z := int64_wrap (a - b).

Definition in_int64 (z : Z) : Prop := - 2 ^ 63 <= z < 2 ^ 63.

(** [float64(z)] for an integer [z]: rounding to nearest, ties to even. *)
Definition float64_of_int (z : Z) : float :=
  SF2Prim (binary_normalize prec emax z 0 false).

(** [int(x)] for a float64 [x]: truncation toward zero.  Go leaves the
    result implementation-defined when [x] is NaN, infinite or outside
    the integer range; those cases are [None]. *)
Definition int_of_float64 (x : float) : option Z :=
  match Prim2SF x with
  | S754_zero _ => Some 0
  | S754_finite s m e =>
      let q := if 0 <=? e then Z.pos m * 2 ^ e else Z.pos m / 2 ^ (- e) in
      let z := if s then - q else q in
      if (- 2 ^ 63 <=? z) && (z <? 2 ^ 63) then Some z else None
  | _ => None
  end.

(** [a < b] and [a >= b] on strings (byte-wise lexicographic order). *)
Definition string_lt (a b : string) : bool := String.ltb a b.
Definition string_ge (a b : string) : bool := negb (String.ltb a b).

(** Left-to-right float64 sum of a slice, starting from zero: the value
    of an accumulator that receives [+=] for each element in turn. *)
Definition fsum (l : list float) : float :=
  fold_left PrimFloat.add l 0%float.

(** Insertion of [x] into a list ordered by [less], before the first
    element that [x] is below. *)
Fixpoint insert_sorted {A : Type} (less : A -> A -> bool) (x : A)
    (l : list A) : list A :=
  match l with
  | [] => [x]
  | y :: l' => if less x y then x :: y :: l' else y :: insert_sorted less x l'
  end.

(** A sort by the strict order [less].  On strings the order is total and
    equal strings are identical, so the result is the one of
    [sort.Strings]; on floats it is the result of [sort.Float64s] up to
    the order of elements that compare equal. *)
Definition sort_by {A : Type} (less : A -> A -> bool) (l : list A) : list A :=
  fold_right (insert_sorted less) [] l.

Definition sort_Strings (l : list string) : list string :=
  sort_by string_lt l.

Definition isNaN (x : float) : bool := negb (x =? x)%float.

(** [sort.Float64Slice.Less]: NaN sorts before every other value. *)
Definition float64_less (x y : float) : bool :=
  (x <? y)%float || (isNaN x && negb (isNaN y)).

Definition sort_Float64s (l : list float) : list float :=
  sort_by float64_less l.

(** The loop [for _, d := range l { if stop d { break }; out = append(out, d) }]. *)
Fixpoint take_until {A : Type} (stop : A -> bool) (l : list A) : list A :=
  match l with
  | [] => []
  | d :: l' => if stop d then [] else d :: take_until stop l'
  end.

(** [s[i:]] for [0 <= i <= len(s)]; a panic otherwise. *)
Definition slice_from {A : Type} (s : list A) (i : Z) : option (list A) :=
  if (0 <=? i) && (i <=? Z.of_nat (length s))
  then Some (drop (Z.to_nat i) s) else None.

Definition len {A : Type} (s : list A) : Z := Z.of_nat (length s).

End Go.

(* ===================================================================== *)
(** * Interfaces of Go's standard library *)
(* ===================================================================== *)

(** [math/rand]: a deterministic generator.  [NewSource seed] is the state
    of [rand.New(rand.NewSource(seed))]; every draw returns the value and
    the next state.  [Int63n] and [Intn] are called with a positive bound
    only (the callers below return [None], a panic, otherwise). *)
Class RandSource : Type := {
  rng : Type;
  NewSource : Z -> rng;
  Int63n : rng -> Z -> Z * rng;
  Intn : rng -> Z -> Z * rng;
  Float64 : rng -> float * rng;
  Int63n_range : forall g n, 0 < n -> 0 <= fst (Int63n g n) < n;
  Intn_range : forall g n, 0 < n -> 0 <= fst (Intn g n) < n;
  Float64_range : forall g,
    (0 <=? fst (Float64 g))%float = true /\ (fst (Float64 g) <? 1)%float = true
}.

(** [time]: an instant with its location, as far as the program looks at
    it.  [Unix()] is [unix_sec]; [time.Unix(s, 0).UTC()] is
    [Time_of_Unix s].  Two [time.Time] values are the same map key when
    all three components agree. *)
Inductive Location : Type := UTC | Local.

Record Time : Type := mkTime {
  unix_sec : Z;
  nsec : Z;
  loc : Location
}.

Definition Time_Unix (t : Time) : Z := unix_sec t.

Definition Time_of_Unix (s : Z) : Time := mkTime s 0 UTC.

(** [time.UnixMilli] and [time.UnixMicro]: local time. *)
Definition Time_UnixMilli (ms : Z) : Time :=
  mkTime (ms / 1000) ((ms mod 1000) * 1000000) Local.

Definition Time_UnixMicro (us : Z) : Time :=
  mkTime (us / 1000000) ((us mod 1000000) * 1000) Local.

(** [t.Truncate(time.Hour)]: hours are counted from the zero time, which
    is a whole number of hours before the Unix epoch. *)
Definition Time_Truncate_Hour (t : Time) : Time :=
  mkTime (unix_sec t - unix_sec t mod 3600) 0 (loc t).

(** [t.Before(u)]. *)
Definition Time_Before (t u : Time) : bool :=
  (unix_sec t <? unix_sec u)
  || ((unix_sec t =? unix_sec u) && (nsec t <? nsec u)).

(** The calendar of [time.Time], in the location of the value:
    [Format("2006-01-02")], [Format("2006-01")] and [Minute()]. *)
Class Clock : Type := {
  Time_Date : Time -> string;
  Time_Month : Time -> string;
  Time_Minute : Time -> Z
}.

#[global] Instance Location_eq_dec : EqDecision Location.
Proof. solve_decision. Defined.

#[global] Instance Time_eq_dec : EqDecision Time.
Proof. solve_decision. Defined.

#[global] Instance Time_countable : Countable Time.
Proof.
  refine (inj_countable'
            (fun t => (unix_sec t, nsec t,
                       match loc t with UTC => true | Local => false end))
            (fun p => mkTime p.1.1 p.1.2 (if p.2 then UTC else Local)) _).
  intros [s n []]; reflexivity.
Defined.

(* ===================================================================== *)
(** * package parser: Trade (trade.go) *)
(* ===================================================================== *)

Module parser.

Record Trade : Type := mkTrade {
  Time_ : Time;
  Price : float;
  Qty : float;
  IsBuyerMaker : bool
}.

Record RawTrade : Type := mkRawTrade {
  AggID : Z;
  RawPrice : float;
  RawQty : float;
  FirstID : Z;
  LastID : Z;
  Timestamp : Z;
  RawIsBuyerMaker : bool
}.

(** [ToTrade]: a timestamp above 1e15 is in microseconds. *)
Definition RawTrade_ToTrade (r : RawTrade) : Trade :=
  let ts := if 1000000000000000 <? Timestamp r
            then Time_UnixMicro (Timestamp r)
            else Time_UnixMilli (Timestamp r) in
  mkTrade ts (RawPrice r) (RawQty r) (RawIsBuyerMaker r).

Definition Trade_IsBuy (t : Trade) : bool := negb (IsBuyerMaker t).
Definition Trade_IsSell (t : Trade) : bool := IsBuyerMaker t.
Definition Trade_Hour (t : Trade) : Time := Time_Truncate_Hour (Time_ t).
Definition Trade_Date `{Clock} (t : Trade) : string := Time_Date (Time_ t).
Definition Trade_Minute `{Clock} (t : Trade) : Z := Time_Minute (Time_ t).

End parser.

(* ===================================================================== *)
(** * package whale (percentile.go, reservoir.go, detector.go) *)
(* ===================================================================== *)

Module whale.

Definition bootstrapSampleCount : Z := 50000.

Record Thresholds : Type := mkThresholds {
  P99 : float;
  P999 : float
}.

Definition DefaultThresholds : Thresholds := mkThresholds 5.0 20.0.

(** [percentile]: linear interpolation at rank [p/100 * (n-1)] of a sorted
    slice.  [None] when [int(rank)] has no defined value or an index is
    out of range (a panic).  The arithmetic is the one of a platform that
    does not fuse the multiplication and the addition of the last line. *)
Definition percentile (sorted : list float) (p : float) : option float :=
  if Go.len sorted =? 0 then Some 0%float
  else
    let n := Go.len sorted in
    let rank := (p / 100 * Go.float64_of_int (n - 1))%float in
    match Go.int_of_float64 rank with
    | None => None
    | Some lower =>
        let upper := Go.int64_add lower 1 in
        if n <=? upper then sorted !! Z.to_nat (n - 1)
        else if (lower <? 0) || (upper <? 0) then None
        else
          let frac := (rank - Go.float64_of_int lower)%float in
          match sorted !! Z.to_nat lower, sorted !! Z.to_nat upper with
          | Some a, Some b => Some (a + frac * (b - a))%float
          | _, _ => None
          end
    end.

Section WithRand.
Context {RS : RandSource}.

(** ** Reservoir *)

Record Reservoir : Type := mkReservoir {
  samples : list float;
  capacity : Z;
  count : Z;
  rsv_rng : rng
}.

(** [NewReservoir]: [make([]float64, 0, capacity)] panics on a negative
    capacity.  The generator is seeded with 42. *)
Definition NewReservoir (capacity : Z) : option Reservoir :=
  if capacity <? 0 then None
  else Some (mkReservoir [] capacity 0 (NewSource 42)).

(** [Add]: Algorithm R.  [Int63n] panics when its argument is not
    positive.  The index [j] written to is below [capacity], which in
    that branch is at most [len(samples)]. *)
Definition Reservoir_Add (r : Reservoir) (value : float) : option Reservoir :=
  let count' := Go.int64_add (count r) 1 in
  if Go.len (samples r) <? capacity r then
    Some (mkReservoir (samples r ++ [value]) (capacity r) count' (rsv_rng r))
  else if count' <=? 0 then None
  else
    let '(j, g) := Int63n (rsv_rng r) count' in
    if j <? capacity r then
      Some (mkReservoir (<[Z.to_nat j := value]> (samples r))
              (capacity r) count' g)
    else Some (mkReservoir (samples r) (capacity r) count' g).

(** A sequence of [Add] calls. *)
Fixpoint Reservoir_AddAll (r : Reservoir) (vs : list float)
    : option Reservoir :=
  match vs with
  | [] => Some r
  | v :: vs' =>
      match Reservoir_Add r v with
      | Some r' => Reservoir_AddAll r' vs'
      | None => None
      end
  end.

Definition Reservoir_Samples (r : Reservoir) : list float := samples r.
Definition Reservoir_Count (r : Reservoir) : Z := count r.
Definition Reservoir_Size (r : Reservoir) : Z := Go.len (samples r).

(** [Reset]: the slice is cut to length zero and the count is zero; the
    capacity and the generator stay. *)
Definition Reservoir_Reset (r : Reservoir) : Reservoir :=
  mkReservoir [] (capacity r) 0 (rsv_rng r).

(** One iteration of the loop of [Merge] over [other]'s samples; [p] is
    [float64(other.count)/float64(totalCount)]. *)
Definition merge_step (p : float) (acc : option Reservoir) (val : float)
    : option Reservoir :=
  match acc with
  | None => None
  | Some r =>
      let '(u, g) := Float64 (rsv_rng r) in
      if (u <? p)%float then
        if Go.len (samples r) <? capacity r then
          Some (mkReservoir (samples r ++ [val]) (capacity r) (count r) g)
        else if capacity r <=? 0 then None
        else
          let '(j, g') := Intn g (capacity r) in
          Some (mkReservoir (<[Z.to_nat j := val]> (samples r))
                  (capacity r) (count r) g')
      else Some (mkReservoir (samples r) (capacity r) (count r) g)
  end.

(** [Merge]: weighted inclusion of [other]'s samples; [count] becomes the
    sum of the two counts. *)
Definition Reservoir_Merge (r other : Reservoir) : option Reservoir :=
  if Reservoir_Size other =? 0 then Some r
  else
    let totalCount := Go.int64_add (count r) (count other) in
    let p := (Go.float64_of_int (count other)
              / Go.float64_of_int totalCount)%float in
    match fold_left (merge_step p) (Reservoir_Samples other) (Some r) with
    | None => None
    | Some r' =>
        Some (mkReservoir (samples r') (capacity r') totalCount (rsv_rng r'))
    end.

(** [NewReservoirFromSamples]: the samples and the count are the given
    ones; the generator is a new one, seeded with 42. *)
Definition NewReservoirFromSamples (capacity : Z) (samples : list float)
    (count : Z) : Reservoir :=
  mkReservoir samples capacity count (NewSource 42).

Definition Reservoir_ExportState (r : Reservoir) : list float * Z :=
  (samples r, count r).

(** ** RollingPercentile *)

Record RollingPercentile : Type := mkRollingPercentile {
  windowDays : Z;
  samplesPerDay : Z;
  dailySamples : gmap string Reservoir;
  dateOrder : list string;
  bootstrapBuffer : list float;
  bootstrapThresholds : Thresholds;
  bootstrapped : bool
}.

Definition NewRollingPercentile (windowDays samplesPerDay : Z)
    : RollingPercentile :=
  mkRollingPercentile windowDays samplesPerDay ∅ [] []
    (mkThresholds 0 0) false.

Definition computeBootstrapThresholds (rp : RollingPercentile)
    : option RollingPercentile :=
  let sorted := Go.sort_Float64s (bootstrapBuffer rp) in
  match percentile sorted 99, percentile sorted 99.9 with
  | Some a, Some b =>
      Some (mkRollingPercentile (windowDays rp) (samplesPerDay rp)
              (dailySamples rp) (dateOrder rp) [] (mkThresholds a b) true)
  | _, _ => None
  end.

(** The bootstrap phase of [AddSample]. *)
Definition bootstrap_step (rp : RollingPercentile) (qty : float)
    : option RollingPercentile :=
  if bootstrapped rp then Some rp
  else
    let rp' := mkRollingPercentile (windowDays rp) (samplesPerDay rp)
                 (dailySamples rp) (dateOrder rp)
                 (bootstrapBuffer rp ++ [qty])
                 (bootstrapThresholds rp) (bootstrapped rp) in
    if bootstrapSampleCount <=? Go.len (bootstrapBuffer rp')
    then computeBootstrapThresholds rp' else Some rp'.

Definition set_reservoirs (rp : RollingPercentile)
    (m : gmap string Reservoir) (order : list string) : RollingPercentile :=
  mkRollingPercentile (windowDays rp) (samplesPerDay rp) m order
    (bootstrapBuffer rp) (bootstrapThresholds rp) (bootstrapped rp).

(** [AddSample]: the map holds pointers, so [reservoir.Add] updates the
    entry of [date]. *)
Definition RollingPercentile_AddSample (rp : RollingPercentile)
    (date : string) (qty : float) : option RollingPercentile :=
  match bootstrap_step rp qty with
  | None => None
  | Some rp1 =>
      match dailySamples rp1 !! date with
      | Some reservoir =>
          match Reservoir_Add reservoir qty with
          | None => None
          | Some r' =>
              Some (set_reservoirs rp1 (<[date := r']> (dailySamples rp1))
                      (dateOrder rp1))
          end
      | None =>
          match NewReservoir (samplesPerDay rp1) with
          | None => None
          | Some reservoir =>
              match Reservoir_Add reservoir qty with
              | None => None
              | Some r' =>
                  Some (set_reservoirs rp1
                          (<[date := r']> (dailySamples rp1))
                          (Go.sort_Strings (dateOrder rp1 ++ [date])))
              end
          end
      end
  end.

(** The dates of the window of [date]: the dates of [dateOrder] up to the
    first one that is not below [date], and of these the last
    [windowDays]. *)
Definition window_dates (rp : RollingPercentile) (date : string)
    : option (list string) :=
  let windowDates :=
    Go.take_until (fun d => Go.string_ge d date) (dateOrder rp) in
  if windowDays rp <? Go.len windowDates then
    Go.slice_from windowDates
      (Go.int64_sub (Go.len windowDates) (windowDays rp))
  else Some windowDates.

Definition fallback_thresholds (rp : RollingPercentile) : Thresholds :=
  if bootstrapped rp then bootstrapThresholds rp else DefaultThresholds.

(** The samples of the reservoirs of [dates], in that order. *)
Definition collect_samples (m : gmap string Reservoir) (dates : list string)
    : list float :=
  concat (map (fun d => match m !! d with
                        | Some reservoir => Reservoir_Samples reservoir
                        | None => []
                        end) dates).

Definition RollingPercentile_GetThresholds (rp : RollingPercentile)
    (date : string) : option Thresholds :=
  match window_dates rp date with
  | None => None
  | Some windowDates =>
      if Go.len windowDates =? 0 then Some (fallback_thresholds rp)
      else
        let allSamples := collect_samples (dailySamples rp) windowDates in
        if Go.len allSamples =? 0 then Some (fallback_thresholds rp)
        else
          let sorted := Go.sort_Float64s allSamples in
          match percentile sorted 99, percentile sorted 99.9 with
          | Some a, Some b => Some (mkThresholds a b)
          | _, _ => None
          end
  end.

(** [HasEnoughData]: the dates up to the first one that is not below
    [date] are counted. *)
Definition RollingPercentile_HasEnoughData (rp : RollingPercentile)
    (date : string) : bool :=
  windowDays rp
  <=? Go.len (Go.take_until (fun d => Go.string_ge d date) (dateOrder rp)).

(** [GetStats]: the number of dates and the number of samples held.  The
    sum does not depend on the order in which the map is visited. *)
Definition RollingPercentile_GetStats (rp : RollingPercentile) : Z * Z :=
  (Go.len (dateOrder rp),
   map_fold (fun _ reservoir total =>
               Go.int64_add total (Reservoir_Size reservoir))
     0 (dailySamples rp)).

(** The loop of [PruneOldDates] that finds the cutoff index; [n] is
    [len(dateOrder)], [i] the index of the head of [l]. *)
Fixpoint prune_cutoff (currentDate : string) (n w1 : Z) (i : Z)
    (l : list string) (cutoff : Z) : Z :=
  match l with
  | [] => cutoff
  | d :: l' =>
      if Go.string_ge d currentDate then cutoff
      else if n - i <=? w1 then cutoff
      else prune_cutoff currentDate n w1 (i + 1) l' (i + 1)
  end.

Definition RollingPercentile_PruneOldDates (rp : RollingPercentile)
    (currentDate : string) : RollingPercentile :=
  let cutoff :=
    prune_cutoff currentDate (Go.len (dateOrder rp))
      (Go.int64_add (windowDays rp) 1) 0 (dateOrder rp) 0 in
  let old := take (Z.to_nat cutoff) (dateOrder rp) in
  set_reservoirs rp
    (fold_left (fun m d => delete d m) old (dailySamples rp))
    (drop (Z.to_nat cutoff) (dateOrder rp)).

Record ReservoirState : Type := mkReservoirState {
  rs_Samples : list float;
  rs_Count : Z
}.

Record BootstrapState : Type := mkBootstrapState {
  bs_Thresholds : Thresholds;
  bs_Bootstrapped : bool
}.

Definition RollingPercentile_ExportState (rp : RollingPercentile)
    : Z * Z * gmap string ReservoirState * list string :=
  (windowDays rp, samplesPerDay rp,
   (fun r => let '(s, c) := Reservoir_ExportState r in mkReservoirState s c)
     <$> dailySamples rp,
   dateOrder rp).

Definition RollingPercentile_ExportBootstrap (rp : RollingPercentile)
    : BootstrapState :=
  mkBootstrapState (bootstrapThresholds rp) (bootstrapped rp).

Definition RollingPercentile_ImportState (rp : RollingPercentile)
    (reservoirs : gmap string ReservoirState) (order : list string)
    : RollingPercentile :=
  set_reservoirs rp
    ((fun rs => NewReservoirFromSamples (samplesPerDay rp)
                  (rs_Samples rs) (rs_Count rs)) <$> reservoirs)
    order.

Definition RollingPercentile_ImportBootstrap (rp : RollingPercentile)
    (st : BootstrapState) : RollingPercentile :=
  mkRollingPercentile (windowDays rp) (samplesPerDay rp) (dailySamples rp)
    (dateOrder rp)
    (if bs_Bootstrapped st then [] else bootstrapBuffer rp)
    (bs_Thresholds st) (bs_Bootstrapped st).

(** ** Detector *)

Record Classification : Type := mkClassification {
  IsWhaleP99 : bool;
  IsWhaleP999 : bool
}.

Record Detector : Type := mkDetector {
  rolling : RollingPercentile;
  thresholdCache : gmap string Thresholds
}.

Definition NewDetector (windowDays samplesPerDay : Z) : Detector :=
  mkDetector (NewRollingPercentile windowDays samplesPerDay) ∅.

(** [AddSample]: the sample goes to the window and the cached thresholds
    of [date] are dropped. *)
Definition Detector_AddSample (d : Detector) (date : string) (qty : float)
    : option Detector :=
  match RollingPercentile_AddSample (rolling d) date qty with
  | None => None
  | Some rp => Some (mkDetector rp (delete date (thresholdCache d)))
  end.

(** [GetThresholds]: the cached value, or the computed one, which is then
    cached. *)
Definition Detector_GetThresholds (d : Detector) (date : string)
    : option (Thresholds * Detector) :=
  match thresholdCache d !! date with
  | Some t => Some (t, d)
  | None =>
      match RollingPercentile_GetThresholds (rolling d) date with
      | None => None
      | Some t =>
          Some (t, mkDetector (rolling d) (<[date := t]> (thresholdCache d)))
      end
  end.

(** The comparison [qty >= threshold] of [Classify]. *)
Definition classify_with (t : Thresholds) (qty : float) : Classification :=
  mkClassification (P99 t <=? qty)%float (P999 t <=? qty)%float.

Definition Detector_Classify `{Clock} (d : Detector) (trade : parser.Trade)
    : option (Classification * Detector) :=
  match Detector_GetThresholds d (parser.Trade_Date trade) with
  | None => None
  | Some (thresholds, d') =>
      Some (classify_with thresholds (parser.Qty trade), d')
  end.

Definition Detector_PruneOldDates (d : Detector) (currentDate : string)
    : Detector :=
  mkDetector (RollingPercentile_PruneOldDates (rolling d) currentDate)
    (filter (fun kv => negb (Go.string_lt kv.1 currentDate))
       (thresholdCache d)).

Definition Detector_HasEnoughData (d : Detector) (date : string) : bool :=
  RollingPercentile_HasEnoughData (rolling d) date.

Definition Detector_GetStats (d : Detector) : Z * Z :=
  RollingPercentile_GetStats (rolling d).

(** One iteration of the loop of [ClassifyBatch]: the thresholds are
    looked up when the date differs from the one of the trade before. *)
Definition batch_step `{Clock}
    (acc : option (list Classification * string * Thresholds * Detector))
    (trade : parser.Trade)
    : option (list Classification * string * Thresholds * Detector) :=
  match acc with
  | None => None
  | Some (results, currentDate, currentThresholds, d) =>
      let date := parser.Trade_Date trade in
      if negb (String.eqb date currentDate) then
        match Detector_GetThresholds d date with
        | None => None
        | Some (t, d') =>
            Some (results ++ [classify_with t (parser.Qty trade)], date, t, d')
        end
      else
        Some (results ++ [classify_with currentThresholds (parser.Qty trade)],
              currentDate, currentThresholds, d)
  end.

(** [ClassifyBatch]: [currentDate] starts as the empty string and
    [currentThresholds] as the zero value. *)
Definition Detector_ClassifyBatch `{Clock} (d : Detector)
    (trades : list parser.Trade) : option (list Classification * Detector) :=
  match fold_left batch_step trades
          (Some ([], EmptyString, mkThresholds 0 0, d)) with
  | None => None
  | Some (results, _, _, d') => Some (results, d')
  end.

Definition Detector_ExportState (d : Detector)
    : Z * Z * gmap string ReservoirState * list string :=
  RollingPercentile_ExportState (rolling d).

Definition Detector_ExportBootstrap (d : Detector) : BootstrapState :=
  RollingPercentile_ExportBootstrap (rolling d).

(** [ImportState]: the window is replaced and the cache is emptied. *)
Definition Detector_ImportState (d : Detector)
    (reservoirs : gmap string ReservoirState) (order : list string)
    : Detector :=
  mkDetector (RollingPercentile_ImportState (rolling d) reservoirs order) ∅.

Definition Detector_ImportBootstrap (d : Detector) (st : BootstrapState)
    : Detector :=
  mkDetector (RollingPercentile_ImportBootstrap (rolling d) st)
    (thresholdCache d).

End WithRand.

End whale.

(* ===================================================================== *)
(** * package aggregator (stats.go, aggregator.go) *)
(* ===================================================================== *)

Module aggregator.

Record HourlyBar : Type := mkHourlyBar {
  BuyVol : float;
  SellVol : float;
  NTrades : Z;
  BuyCount : Z;
  SellCount : Z;
  WhaleBuyVolP99 : float;
  WhaleSellVolP99 : float;
  WhaleBuyCountP99 : Z;
  WhaleSellCountP99 : Z;
  WhaleBuyVolP999 : float;
  WhaleSellVolP999 : float;
  WhaleBuyCountP999 : Z;
  WhaleSellCountP999 : Z;
  VolFirst30Min : float;
  VolLast30Min : float;
  BuyVolUSD : float;
  SellVolUSD : float;
  MaxTradeSize : float;
  VWAP : float;
  PriceStd : float;
  sumPriceQty : float;
  sumQty : float;
  sumPriceSqQty : float
}.

(** [NewHourlyBar]: the zero value of the struct. *)
Definition NewHourlyBar : HourlyBar :=
  mkHourlyBar 0 0 0 0 0 0 0 0 0 0 0 0 0 0 0 0 0 0 0 0 0 0 0.

(** The arguments of one [AddTrade] call. *)
Record TradeArgs : Type := mkTradeArgs {
  price : float;
  qty : float;
  isBuy : bool;
  minute : Z;
  isWhaleP99 : bool;
  isWhaleP999 : bool
}.

Definition incr_if (c : bool) (n : Z) : Z :=
  if c then Go.int64_add n 1 else n.

Definition fadd_if (c : bool) (x q : float) : float :=
  if c then (x + q)%float else x.

(** [AddTrade]: each field after the call, in terms of the fields
    before it.  The body of the Go method is a sequence of guarded
    [+=] and [++] on distinct fields, so the order of the statements
    does not matter. *)
Definition HourlyBar_AddTrade (h : HourlyBar) (a : TradeArgs) : HourlyBar :=
  let dollarVol := (price a * qty a)%float in
  let buy := isBuy a in
  let sell := negb (isBuy a) in
  {| BuyVol := fadd_if buy (BuyVol h) (qty a);
     SellVol := fadd_if sell (SellVol h) (qty a);
     NTrades := Go.int64_add (NTrades h) 1;
     BuyCount := incr_if buy (BuyCount h);
     SellCount := incr_if sell (SellCount h);
     WhaleBuyVolP99 := fadd_if (isWhaleP99 a && buy) (WhaleBuyVolP99 h) (qty a);
     WhaleSellVolP99 := fadd_if (isWhaleP99 a && sell) (WhaleSellVolP99 h) (qty a);
     WhaleBuyCountP99 := incr_if (isWhaleP99 a && buy) (WhaleBuyCountP99 h);
     WhaleSellCountP99 := incr_if (isWhaleP99 a && sell) (WhaleSellCountP99 h);
     WhaleBuyVolP999 := fadd_if (isWhaleP999 a && buy) (WhaleBuyVolP999 h) (qty a);
     WhaleSellVolP999 := fadd_if (isWhaleP999 a && sell) (WhaleSellVolP999 h) (qty a);
     WhaleBuyCountP999 := incr_if (isWhaleP999 a && buy) (WhaleBuyCountP999 h);
     WhaleSellCountP999 := incr_if (isWhaleP999 a && sell) (WhaleSellCountP999 h);
     VolFirst30Min := fadd_if (minute a <? 30) (VolFirst30Min h) (qty a);
     VolLast30Min := fadd_if (negb (minute a <? 30)) (VolLast30Min h) (qty a);
     BuyVolUSD := fadd_if buy (BuyVolUSD h) dollarVol;
     SellVolUSD := fadd_if sell (SellVolUSD h) dollarVol;
     MaxTradeSize :=
       if (MaxTradeSize h <? qty a)%float then qty a else MaxTradeSize h;
     VWAP := VWAP h;
     PriceStd := PriceStd h;
     sumPriceQty := (sumPriceQty h + price a * qty a)%float;
     sumQty := (sumQty h + qty a)%float;
     sumPriceSqQty := (sumPriceSqQty h + price a * price a * qty a)%float |}.

(** A sequence of [AddTrade] calls on one bar. *)
Definition HourlyBar_AddTrades (h : HourlyBar) (l : list TradeArgs) : HourlyBar :=
  fold_left HourlyBar_AddTrade l h.

(** [Finalize]: VWAP and price standard deviation from the accumulators. *)
Definition HourlyBar_Finalize (h : HourlyBar) : HourlyBar :=
  if (0 <? sumQty h)%float then
    let vwap := (sumPriceQty h / sumQty h)%float in
    let variance := (sumPriceSqQty h / sumQty h - vwap * vwap)%float in
    let variance := if (variance <? 0)%float then 0%float else variance in
    mkHourlyBar (BuyVol h) (SellVol h) (NTrades h) (BuyCount h) (SellCount h)
      (WhaleBuyVolP99 h) (WhaleSellVolP99 h)
      (WhaleBuyCountP99 h) (WhaleSellCountP99 h)
      (WhaleBuyVolP999 h) (WhaleSellVolP999 h)
      (WhaleBuyCountP999 h) (WhaleSellCountP999 h)
      (VolFirst30Min h) (VolLast30Min h) (BuyVolUSD h) (SellVolUSD h)
      (MaxTradeSize h) vwap (PrimFloat.sqrt variance)
      (sumPriceQty h) (sumQty h) (sumPriceSqQty h)
  else h.


Definition HourlyBar_TotalVolume (h : HourlyBar) : float :=
  (BuyVol h + SellVol h)%float.

Definition HourlyBar_NetVolume (h : HourlyBar) : float :=
  (BuyVol h - SellVol h)%float.

(** ** Aggregator *)

Record HourlyResult : Type := mkHourlyResult {
  hr_Time : Time;
  hr_Bar : HourlyBar
}.

Section WithLibs.
Context {RS : RandSource} {CK : Clock}.

Record Aggregator : Type := mkAggregator {
  detector : whale.Detector;
  agg_windowDays : Z;
  pendingBars : gmap Time HourlyBar;
  finalizedBars : list HourlyResult;
  firstDate : string;
  lastDate : string
}.

Definition NewAggregator (windowDays samplesPerDay : Z) : Aggregator :=
  mkAggregator (whale.NewDetector windowDays samplesPerDay) windowDays
    ∅ [] "" "".

(** One iteration of the first loop of [ProcessTrades]: the sample goes to
    the detector and the date range is widened. *)
Definition sample_step (acc : option Aggregator) (trade : parser.Trade)
    : option Aggregator :=
  match acc with
  | None => None
  | Some a =>
      let date := parser.Trade_Date trade in
      match whale.Detector_AddSample (detector a) date (parser.Qty trade) with
      | None => None
      | Some d =>
          let first :=
            if String.eqb (firstDate a) "" || Go.string_lt date (firstDate a)
            then date else firstDate a in
          let last :=
            if Go.string_lt (lastDate a) date then date else lastDate a in
          Some (mkAggregator d (agg_windowDays a) (pendingBars a)
                  (finalizedBars a) first last)
      end
  end.

(** The arguments [ProcessTrades] passes to [AddTrade]. *)
Definition trade_args (trade : parser.Trade) (c : whale.Classification)
    : TradeArgs :=
  mkTradeArgs (parser.Price trade) (parser.Qty trade)
    (parser.Trade_IsBuy trade) (parser.Trade_Minute trade)
    (whale.IsWhaleP99 c) (whale.IsWhaleP999 c).

(** One iteration of the second loop: classification, then the trade is
    added to the bar of its hour, which is created when absent. *)
Definition classify_step (acc : option Aggregator) (trade : parser.Trade)
    : option Aggregator :=
  match acc with
  | None => None
  | Some a =>
      match whale.Detector_Classify (detector a) trade with
      | None => None
      | Some (classification, d) =>
          let hour := parser.Trade_Hour trade in
          let bar := match pendingBars a !! hour with
                     | Some bar => bar
                     | None => NewHourlyBar
                     end in
          Some (mkAggregator d (agg_windowDays a)
                  (<[hour := HourlyBar_AddTrade bar
                               (trade_args trade classification)]>
                     (pendingBars a))
                  (finalizedBars a) (firstDate a) (lastDate a))
      end
  end.

Definition ProcessTrades (a : Aggregator) (trades : list parser.Trade)
    : option Aggregator :=
  if Go.len trades =? 0 then Some a
  else fold_left classify_step trades
         (fold_left sample_step trades (Some a)).

(** A run of [ProcessTrades] over the batches of a stream. *)
Definition ProcessBatches (a : Aggregator) (batches : list (list parser.Trade))
    : option Aggregator :=
  fold_left (fun acc batch => match acc with
                              | None => None
                              | Some a => ProcessTrades a batch
                              end) batches (Some a).

Definition sort_by_time (l : list HourlyResult) : list HourlyResult :=
  Go.sort_by (fun x y => Time_Before (hr_Time x) (hr_Time y)) l.

(** [Flush]: every pending bar is finalized and appended, by hour. *)
Definition Flush (a : Aggregator) : Aggregator :=
  let flushed :=
    sort_by_time
      (map (fun kv => mkHourlyResult kv.1 (HourlyBar_Finalize kv.2))
         (map_to_list (pendingBars a))) in
  mkAggregator (detector a) (agg_windowDays a) ∅
    (finalizedBars a ++ flushed) (firstDate a) (lastDate a).

(** [GetBarsForMonth]: the bars of [month], finalized and sorted by time,
    and the aggregator without them. *)
Definition GetBarsForMonth (a : Aggregator) (month : string)
    : list HourlyResult * Aggregator :=
  let in_month (t : Time) := String.eqb (Time_Month t) month in
  let from_finalized := filter (fun hr => in_month (hr_Time hr) = true)
                          (finalizedBars a) in
  let remaining := filter (fun hr => in_month (hr_Time hr) <> true)
                     (finalizedBars a) in
  let from_pending :=
    map (fun kv => mkHourlyResult kv.1 (HourlyBar_Finalize kv.2))
      (map_to_list (filter (fun kv => in_month kv.1 = true) (pendingBars a))) in
  (sort_by_time (from_finalized ++ from_pending),
   mkAggregator (detector a) (agg_windowDays a)
     (filter (fun kv => in_month kv.1 <> true) (pendingBars a))
     remaining (firstDate a) (lastDate a)).

(** [GetFinalizedBars]: the finalized bars, and the aggregator with an
    empty buffer. *)
Definition GetFinalizedBars (a : Aggregator)
    : list HourlyResult * Aggregator :=
  (finalizedBars a,
   mkAggregator (detector a) (agg_windowDays a) (pendingBars a) []
     (firstDate a) (lastDate a)).

(** [GetAllBars]: the finalized bars and the pending ones, sorted by time.
    The pending bars are finalized in place and stay pending. *)
Definition GetAllBars (a : Aggregator) : list HourlyResult * Aggregator :=
  let pending := HourlyBar_Finalize <$> pendingBars a in
  (sort_by_time
     (finalizedBars a
      ++ map (fun kv => mkHourlyResult kv.1 kv.2) (map_to_list pending)),
   mkAggregator (detector a) (agg_windowDays a) pending (finalizedBars a)
     (firstDate a) (lastDate a)).

(** [Stats]: the numbers of pending and finalized bars and the range of
    dates. *)
Definition Stats (a : Aggregator) : Z * Z * string :=
  (Z.of_nat (size (pendingBars a)), Go.len (finalizedBars a),
   if negb (String.eqb (firstDate a) "") && negb (String.eqb (lastDate a) "")
   then String.append (firstDate a) (String.append " → " (lastDate a))
   else EmptyString).

(** [TotalTrades]: the sum of [NTrades] over the pending and the finalized
    bars, on [int64]; it does not depend on the order in which the map is
    visited. *)
Definition TotalTrades (a : Aggregator) : Z :=
  let total :=
    map_fold (fun _ bar total => Go.int64_add total (NTrades bar))
      0 (pendingBars a) in
  fold_left (fun total result => Go.int64_add total (NTrades (hr_Bar result)))
    (finalizedBars a) total.

(** [Detector]. *)
Definition Aggregator_Detector (a : Aggregator) : whale.Detector :=
  detector a.

End WithLibs.

End aggregator.

(* ===================================================================== *)
(** * The file system and [encoding/json] *)
(* ===================================================================== *)

(** The store is a map from paths to file contents.  Every call into the
    operating system or into [json.Marshal] takes its outcome from the
    head of [faults]: it succeeds, it returns an error, or the process
    dies in it.  An empty list means success.  [renamed] logs the target
    of every completed rename, oldest first. *)

Inductive Outcome : Type := Succeeds | Fails | Crashes.

Section FileSystem.
Context {FileData : Type}.

Record Disk : Type := mkDisk {
  files : gmap string FileData;
  renamed : list string;
  faults : list Outcome
}.

(** The result of a computation: a value and the disk after it, or a crash
    and the disk it leaves behind. *)
Inductive Res (A : Type) : Type :=
| Ret (a : A) (w : Disk)
| Crashed (w : Disk).

Definition IO (A : Type) : Type := Disk -> Res A.

Definition io_ret {A : Type} (a : A) : IO A := fun w => Ret A a w.

Definition io_bind {A B : Type} (m : IO A) (k : A -> IO B) : IO B :=
  fun w => match m w with
           | Ret _ a w' => k a w'
           | Crashed _ w' => Crashed B w'
           end.

Definition disk_of {A : Type} (r : Res A) : Disk :=
  match r with
  | Ret _ _ w => w
  | Crashed _ w => w
  end.

Definition next_outcome (w : Disk) : Outcome * Disk :=
  match faults w with
  | [] => (Succeeds, w)
  | o :: rest => (o, mkDisk (files w) (renamed w) rest)
  end.

(** A Go [error]: [None] is [nil]. *)
Definition error : Type := option string.

(** [os.MkdirAll]: directories are not part of the store. *)
Definition os_MkdirAll (dir : string) : IO error :=
  fun w => let '(o, w1) := next_outcome w in
           match o with
           | Succeeds => Ret _ None w1
           | Fails => Ret _ (Some "mkdir"%string) w1
           | Crashes => Crashed _ w1
           end.

(** [json.Marshal]: the document, or an error (a NaN or an infinity has no
    JSON encoding). *)
Definition json_Marshal (doc : FileData) : IO (FileData * error) :=
  fun w => let '(o, w1) := next_outcome w in
           match o with
           | Succeeds => Ret _ (doc, None) w1
           | Fails => Ret _ (doc, Some "json"%string) w1
           | Crashes => Crashed _ w1
           end.

(** [os.WriteFile]: on an error or a crash the file may be left with part
    of the data; [partial] stands for such a content. *)
Definition os_WriteFile (partial : FileData) (path : string) (data : FileData)
    : IO error :=
  fun w => let '(o, w1) := next_outcome w in
           match o with
           | Succeeds =>
               Ret _ None
                 (mkDisk (<[path := data]> (files w1)) (renamed w1) (faults w1))
           | Fails =>
               Ret _ (Some "write"%string)
                 (mkDisk (<[path := partial]> (files w1)) (renamed w1)
                    (faults w1))
           | Crashes =>
               Crashed _
                 (mkDisk (<[path := partial]> (files w1)) (renamed w1)
                    (faults w1))
           end.

(** [os.Rename]: atomic; it has happened or it has not. *)
Definition os_Rename (old new : string) : IO error :=
  fun w => let '(o, w1) := next_outcome w in
           match o with
           | Succeeds =>
               match files w1 !! old with
               | Some data =>
                   Ret _ None
                     (mkDisk (<[new := data]> (delete old (files w1)))
                        (renamed w1 ++ [new]) (faults w1))
               | None => Ret _ (Some "rename"%string) w1
               end
           | Fails => Ret _ (Some "rename"%string) w1
           | Crashes => Crashed _ w1
           end.

(** [os.ReadFile]: the content of the file, the error that
    [os.IsNotExist] recognises, or another error. *)
Inductive ReadResult : Type :=
| ReadOk (data : FileData)
| ReadNotExist
| ReadError.

Definition os_ReadFile (path : string) : IO ReadResult :=
  fun w => let '(o, w1) := next_outcome w in
           match o with
           | Succeeds =>
               match files w1 !! path with
               | Some data => Ret _ (ReadOk data) w1
               | None => Ret _ ReadNotExist w1
               end
           | Fails => Ret _ ReadError w1
           | Crashes => Crashed _ w1
           end.

End FileSystem.

Arguments Disk : clear implicits.
Arguments Res : clear implicits.
Arguments IO : clear implicits.
Arguments Ret {FileData A}.
Arguments Crashed {FileData A}.
Arguments ReadResult : clear implicits.
Arguments ReadOk {FileData}.
Arguments ReadNotExist {FileData}.
Arguments ReadError {FileData}.

Notation "'let!' x ':=' m 'in' k" := (io_bind m (fun x => k))
  (at level 10, x name, m at level 100, k at level 200).

Definition filepath_Join (a b : string) : string :=
  String.append a (String.append "/" b).

(* ===================================================================== *)
(** * package state (state.go, bars.go, detector.go) *)
(* ===================================================================== *)

Module state.

Definition currentVersion : Z := 1.
Definition stateFileName : string := "state.json".
Definition detectorFileName : string := "detector.json".
Definition barsDirName : string := "bars".

Record State : Type := mkState {
  Version : Z;
  CompletedMonths : list string;
  LastUpdate : Time
}.

Record SerializedBar : Type := mkSerializedBar {
  sb_Time : Z;
  BuyVol : float;
  SellVol : float;
  NTrades : Z;
  BuyCount : Z;
  SellCount : Z;
  WhaleBuyVolP99 : float;
  WhaleSellVolP99 : float;
  WhaleBuyCountP99 : Z;
  WhaleSellCountP99 : Z;
  WhaleBuyVolP999 : float;
  WhaleSellVolP999 : float;
  WhaleBuyCountP999 : Z;
  WhaleSellCountP999 : Z;
  VolFirst30Min : float;
  VolLast30Min : float;
  BuyVolUSD : float;
  SellVolUSD : float;
  MaxTradeSize : float;
  VWAP : float;
  PriceStd : float
}.

Definition serializeBar (b : aggregator.HourlyResult) : SerializedBar :=
  let bar := aggregator.hr_Bar b in
  {| sb_Time := Time_Unix (aggregator.hr_Time b);
     BuyVol := aggregator.BuyVol bar;
     SellVol := aggregator.SellVol bar;
     NTrades := aggregator.NTrades bar;
     BuyCount := aggregator.BuyCount bar;
     SellCount := aggregator.SellCount bar;
     WhaleBuyVolP99 := aggregator.WhaleBuyVolP99 bar;
     WhaleSellVolP99 := aggregator.WhaleSellVolP99 bar;
     WhaleBuyCountP99 := aggregator.WhaleBuyCountP99 bar;
     WhaleSellCountP99 := aggregator.WhaleSellCountP99 bar;
     WhaleBuyVolP999 := aggregator.WhaleBuyVolP999 bar;
     WhaleSellVolP999 := aggregator.WhaleSellVolP999 bar;
     WhaleBuyCountP999 := aggregator.WhaleBuyCountP999 bar;
     WhaleSellCountP999 := aggregator.WhaleSellCountP999 bar;
     VolFirst30Min := aggregator.VolFirst30Min bar;
     VolLast30Min := aggregator.VolLast30Min bar;
     BuyVolUSD := aggregator.BuyVolUSD bar;
     SellVolUSD := aggregator.SellVolUSD bar;
     MaxTradeSize := aggregator.MaxTradeSize bar;
     VWAP := aggregator.VWAP bar;
     PriceStd := aggregator.PriceStd bar |}.

(** [deserializeBar]: the three accumulators are not in the literal, so
    they are zero. *)
Definition deserializeBar (s : SerializedBar) : aggregator.HourlyResult :=
  aggregator.mkHourlyResult (Time_of_Unix (sb_Time s))
    {| aggregator.BuyVol := BuyVol s;
       aggregator.SellVol := SellVol s;
       aggregator.NTrades := NTrades s;
       aggregator.BuyCount := BuyCount s;
       aggregator.SellCount := SellCount s;
       aggregator.WhaleBuyVolP99 := WhaleBuyVolP99 s;
       aggregator.WhaleSellVolP99 := WhaleSellVolP99 s;
       aggregator.WhaleBuyCountP99 := WhaleBuyCountP99 s;
       aggregator.WhaleSellCountP99 := WhaleSellCountP99 s;
       aggregator.WhaleBuyVolP999 := WhaleBuyVolP999 s;
       aggregator.WhaleSellVolP999 := WhaleSellVolP999 s;
       aggregator.WhaleBuyCountP999 := WhaleBuyCountP999 s;
       aggregator.WhaleSellCountP999 := WhaleSellCountP999 s;
       aggregator.VolFirst30Min := VolFirst30Min s;
       aggregator.VolLast30Min := VolLast30Min s;
       aggregator.BuyVolUSD := BuyVolUSD s;
       aggregator.SellVolUSD := SellVolUSD s;
       aggregator.MaxTradeSize := MaxTradeSize s;
       aggregator.VWAP := VWAP s;
       aggregator.PriceStd := PriceStd s;
       aggregator.sumPriceQty := 0;
       aggregator.sumQty := 0;
       aggregator.sumPriceSqQty := 0 |}.

Record ReservoirData : Type := mkReservoirData {
  rd_Samples : list float;
  rd_Count : Z
}.

Record BootstrapData : Type := mkBootstrapData {
  bd_P99 : float;
  bd_P999 : float;
  bd_Bootstrapped : bool
}.

Record DetectorState : Type := mkDetectorState {
  WindowDays : Z;
  SamplesPerDay : Z;
  Reservoirs : gmap string ReservoirData;
  DateOrder : list string;
  Bootstrap : BootstrapData
}.

(** The documents of the checkpoint directory: the JSON text of a value
    stands for the value, and [PartialFile] for a file cut short. *)
Inductive FileData : Type :=
| StateJSON (st : State)
| DetectorJSON (ds : DetectorState)
| BarsJSON (bars : list SerializedBar)
| PartialFile.

(** [atomicWrite]: write to [path.tmp], then rename over [path]. *)
Definition atomicWrite (path : string) (data : FileData)
    : IO FileData error :=
  let tmpPath := String.append path ".tmp" in
  let! err := os_WriteFile PartialFile tmpPath data in
  match err with
  | Some e => io_ret (Some e)
  | None => os_Rename tmpPath path
  end.

Record Manager : Type := mkManager { dir : string }.

Definition Manager_BarsDir (m : Manager) : string :=
  filepath_Join (dir m) barsDirName.

Definition Manager_DetectorPath (m : Manager) : string :=
  filepath_Join (dir m) detectorFileName.

Definition Manager_StatePath (m : Manager) : string :=
  filepath_Join (dir m) stateFileName.

(** [Save]: the version and the time are set on the state in memory, then
    the state is written.  The state in memory is returned with the
    error. *)
Definition Manager_Save (m : Manager) (now : Time) (st : State)
    : IO FileData (State * error) :=
  let! err := os_MkdirAll (dir m) in
  match err with
  | Some e => io_ret (st, Some e)
  | None =>
      let st' := mkState currentVersion (CompletedMonths st) now in
      let! r := json_Marshal (StateJSON st') in
      match r with
      | (_, Some e) => io_ret (st', Some e)
      | (data, None) =>
          let! err := atomicWrite (Manager_StatePath m) data in
          io_ret (st', err)
      end
  end.

(** [Load]: no state when the file is absent, is not the JSON of a state
    (a JSON object of another kind decodes to the zero state, whose
    version is 0) or has another version. *)
Definition Manager_Load (m : Manager) : IO FileData (option State * error) :=
  let! r := os_ReadFile (Manager_StatePath m) in
  match r with
  | ReadNotExist => io_ret (None, None)
  | ReadError => io_ret (None, Some "read"%string)
  | ReadOk (StateJSON st) =>
      if negb (Version st =? currentVersion) then io_ret (None, None)
      else io_ret (Some st, None)
  | ReadOk _ => io_ret (None, None)
  end.

(** [IsCompleted]. *)
Definition State_IsCompleted (st : State) (month : string) : bool :=
  existsb (fun m => String.eqb m month) (CompletedMonths st).

(** [GetPendingMonths]: the receiver may be nil. *)
Definition State_GetPendingMonths (st : option State)
    (allMonths : list string) : list string :=
  match st with
  | None => allMonths
  | Some st => List.filter (fun m => negb (State_IsCompleted st m)) allMonths
  end.

Definition bars_path (barsDir month : string) : string :=
  filepath_Join barsDir (String.append month ".json").

Definition SaveMonthBars (barsDir month : string)
    (bars : list aggregator.HourlyResult) : IO FileData error :=
  let! err := os_MkdirAll barsDir in
  match err with
  | Some e => io_ret (Some e)
  | None =>
      let serialized := map serializeBar bars in
      let! r := json_Marshal (BarsJSON serialized) in
      match r with
      | (_, Some e) => io_ret (Some e)
      | (data, None) => atomicWrite (bars_path barsDir month) data
      end
  end.

(** [LoadMonthBars]: no bars (nil) when the file is absent or is not the
    JSON of a list of bars. *)
Definition LoadMonthBars (barsDir month : string)
    : IO FileData (option (list aggregator.HourlyResult) * error) :=
  let! r := os_ReadFile (bars_path barsDir month) in
  match r with
  | ReadNotExist => io_ret (None, None)
  | ReadError => io_ret (None, Some "read"%string)
  | ReadOk (BarsJSON serialized) =>
      io_ret (Some (map deserializeBar serialized), None)
  | ReadOk _ => io_ret (None, None)
  end.

(** The loop of [LoadAllBars]. *)
Fixpoint load_months (barsDir : string) (months : list string)
    (allBars : list aggregator.HourlyResult)
    : IO FileData (option (list aggregator.HourlyResult) * error) :=
  match months with
  | [] => io_ret (Some allBars, None)
  | month :: rest =>
      let! r := LoadMonthBars barsDir month in
      match r with
      | (_, Some e) => io_ret (None, Some e)
      | (Some bars, None) => load_months barsDir rest (allBars ++ bars)
      | (None, None) => load_months barsDir rest allBars
      end
  end.

(** [LoadAllBars]: the bars of the months, sorted by time. *)
Definition LoadAllBars (barsDir : string) (months : list string)
    : IO FileData (option (list aggregator.HourlyResult) * error) :=
  let! r := load_months barsDir months [] in
  match r with
  | (Some allBars, None) =>
      io_ret (Some (Go.sort_by
                      (fun x y => Time_Before (aggregator.hr_Time x)
                                    (aggregator.hr_Time y)) allBars), None)
  | (_, e) => io_ret (None, e)
  end.

(** The zero value of [DetectorState]. *)
Definition zero_DetectorState : DetectorState :=
  mkDetectorState 0 0 ∅ [] (mkBootstrapData 0 0 false).

(** [LoadDetector]: nil when the file is absent or is not JSON of the
    right shape.  The JSON object of a state has none of the fields of a
    detector state and decodes to the zero value. *)
Definition LoadDetector (path : string)
    : IO FileData (option DetectorState * error) :=
  let! r := os_ReadFile path in
  match r with
  | ReadNotExist => io_ret (None, None)
  | ReadError => io_ret (None, Some "read"%string)
  | ReadOk (DetectorJSON ds) => io_ret (Some ds, None)
  | ReadOk (StateJSON _) => io_ret (Some zero_DetectorState, None)
  | ReadOk _ => io_ret (None, None)
  end.

Section WithRand.
Context {RS : RandSource}.

(** The snapshot [SaveDetector] builds from the exported state. *)
Definition detector_snapshot (d : whale.Detector) : DetectorState :=
  let '(windowDays, samplesPerDay, reservoirs, dateOrder) :=
    whale.RollingPercentile_ExportState (whale.rolling d) in
  let bootstrap := whale.RollingPercentile_ExportBootstrap (whale.rolling d) in
  mkDetectorState windowDays samplesPerDay
    ((fun rs => mkReservoirData (whale.rs_Samples rs) (whale.rs_Count rs))
       <$> reservoirs)
    dateOrder
    (mkBootstrapData (whale.P99 (whale.bs_Thresholds bootstrap))
       (whale.P999 (whale.bs_Thresholds bootstrap))
       (whale.bs_Bootstrapped bootstrap)).

Definition SaveDetector (path : string) (d : whale.Detector)
    : IO FileData error :=
  let! r := json_Marshal (DetectorJSON (detector_snapshot d)) in
  match r with
  | (_, Some e) => io_ret (Some e)
  | (data, None) => atomicWrite path data
  end.

End WithRand.

Definition DetectorState_ToWhaleReservoirs (ds : DetectorState)
    : gmap string whale.ReservoirState :=
  (fun rd => whale.mkReservoirState (rd_Samples rd) (rd_Count rd))
    <$> Reservoirs ds.

Definition DetectorState_ToWhaleBootstrap (ds : DetectorState)
    : whale.BootstrapState :=
  whale.mkBootstrapState
    (whale.mkThresholds (bd_P99 (Bootstrap ds)) (bd_P999 (Bootstrap ds)))
    (bd_Bootstrapped (Bootstrap ds)).

End state.

(* ===================================================================== *)
(** * package pipeline (pipeline.go) *)
(* ===================================================================== *)

Module pipeline.

Section WithLibs.
Context {RS : RandSource} {CK : Clock}.

(** The fields of [Pipeline] a checkpoint reads and writes. *)
Record Pipeline : Type := mkPipeline {
  aggregator_ : aggregator.Aggregator;
  stateMgr : state.Manager;
  state_ : state.State
}.

Definition wrap_error (context e : string) : string :=
  String.append context (String.append ": " e).

(** [saveCheckpoint]: bars, then detector, then state.  The result is the
    number of hours, the error, and the pipeline in memory afterwards. *)
Definition saveCheckpoint (p : Pipeline) (now : Time) (month : string)
    : IO state.FileData (Z * error * Pipeline) :=
  let '(bars, agg) := aggregator.GetBarsForMonth (aggregator_ p) month in
  let p1 := mkPipeline agg (stateMgr p) (state_ p) in
  let! err := state.SaveMonthBars (state.Manager_BarsDir (stateMgr p)) month bars in
  match err with
  | Some e => io_ret (0, Some (wrap_error "save bars" e), p1)
  | None =>
      let! err := state.SaveDetector
                    (state.Manager_DetectorPath (stateMgr p))
                    (aggregator.detector agg) in
      match err with
      | Some e =>
          io_ret (Go.len bars, Some (wrap_error "save detector" e), p1)
      | None =>
          let st := state.mkState (state.Version (state_ p))
                      (state.CompletedMonths (state_ p) ++ [month])
                      (state.LastUpdate (state_ p)) in
          let! r := state.Manager_Save (stateMgr p) now st in
          let '(st', err) := r in
          let p2 := mkPipeline agg (stateMgr p) st' in
          match err with
          | Some e =>
              io_ret (Go.len bars, Some (wrap_error "save state" e), p2)
          | None => io_ret (Go.len bars, None, p2)
          end
      end
  end.

(** [restoreDetectorState]: the error, and the pipeline in memory. *)
Definition restoreDetectorState (p : Pipeline)
    : IO state.FileData (error * Pipeline) :=
  let! r := state.LoadDetector (state.Manager_DetectorPath (stateMgr p)) in
  match r with
  | (_, Some e) => io_ret (Some e, p)
  | (None, None) => io_ret (None, p)
  | (Some detectorState, None) =>
      let a := aggregator_ p in
      let d := whale.Detector_ImportState (aggregator.Aggregator_Detector a)
                 (state.DetectorState_ToWhaleReservoirs detectorState)
                 (state.DateOrder detectorState) in
      let d := whale.Detector_ImportBootstrap d
                 (state.DetectorState_ToWhaleBootstrap detectorState) in
      io_ret (None,
              mkPipeline
                (aggregator.mkAggregator d (aggregator.agg_windowDays a)
                   (aggregator.pendingBars a) (aggregator.finalizedBars a)
                   (aggregator.firstDate a) (aggregator.lastDate a))
                (stateMgr p) (state_ p))
  end.

(** [GetMonthsInOrder]. *)
Definition GetMonthsInOrder (months : list string) : list string :=
  Go.sort_Strings months.

End WithLibs.

End pipeline.

(* ===================================================================== *)
(** * Concrete instances of the library interfaces *)
(* ===================================================================== *)

(** A linear congruential generator as a [RandSource]: the state is the
    last 63-bit value, [Int63n] and [Intn] reduce the next value modulo the
    bound, [Float64] takes its three low bits as eighths.  It is not the
    generator of [math/rand]; it is one generator that meets the
    interface. *)
Module LCG.

Definition next (g : Z) : Z :=
  (g * 6364136223846793005 + 1442695040888963407) mod 2 ^ 63.

Definition draw (g n : Z) : Z * Z := (next g mod n, next g).

Definition eighth (g : Z) : float :=
  (Go.float64_of_int (next g mod 8) / 8)%float.

Definition draw_float (g : Z) : float * Z := (eighth g, next g).

Lemma draw_range (g n : Z) : 0 < n -> 0 <= fst (draw g n) < n.
Proof. intros H. simpl. apply Z.mod_pos_bound, H. Qed.

Lemma draw_float_range (g : Z) :
  (0 <=? fst (draw_float g))%float = true
  /\ (fst (draw_float g) <? 1)%float = true.
Proof.
  simpl. unfold eighth.
  pose proof (Z.mod_pos_bound (next g) 8 ltac:(lia)) as H.
  assert (E : next g mod 8 = 0 \/ next g mod 8 = 1 \/ next g mod 8 = 2
              \/ next g mod 8 = 3 \/ next g mod 8 = 4 \/ next g mod 8 = 5
              \/ next g mod 8 = 6 \/ next g mod 8 = 7) by lia.
  destruct E as [E|[E|[E|[E|[E|[E|[E|E]]]]]]]; rewrite E;
    split; vm_compute; reflexivity.
Qed.

#[export] Instance source : RandSource := {|
  rng := Z;
  NewSource := fun seed => seed;
  Int63n := draw;
  Intn := draw;
  Float64 := draw_float;
  Int63n_range := draw_range;
  Intn_range := draw_range;
  Float64_range := draw_float_range
|}.

End LCG.

(** [math/rand] of Go's standard library, as the program uses it through
    [rand.New(rand.NewSource(42))]: the source of [rng.go], an additive
    lagged Fibonacci generator over 607 words of 64 bits with tap 273,
    and the methods of [rand.go] that the reservoir calls. *)
Module rand.

Definition rngLen : Z := 607.
Definition rngTap : Z := 273.
Definition rngMask : Z := 2 ^ 63 - 1.
Definition int32max : Z := 2 ^ 31 - 1.

(** [rngCooked]: the table of [rng.go], the state of the generator after
    780e10 iterations. *)
Definition rngCooked : list Z := [
  (-4181792142133755926); (-4576982950128230565); 1395769623340756751;
  5333664234075297259; (-6347679516498800754); 9033628115061424579;
  7143218595135194537; 4812947590706362721; 7937252194349799378;
  5307299880338848416; 8209348851763925077; (-7107630437535961764);
  4593015457530856296; 8140875735541888011; (-5903942795589686782);
  (-603556388664454774); (-7496297993371156308); 113108499721038619;
  4569519971459345583; (-4160538177779461077); (-6835753265595711384);
  (-6507240692498089696); 6559392774825876886; 7650093201692370310;
  7684323884043752161; (-8965504200858744418); (-2629915517445760644);
  271327514973697897; (-6433985589514657524); 1065192797246149621;
  3344507881999356393; (-4763574095074709175); 7465081662728599889;
  1014950805555097187; (-4773931307508785033); (-5742262670416273165);
  2418672789110888383; 5796562887576294778; 4484266064449540171;
  3738982361971787048; (-4699774852342421385); 10530508058128498;
  (-589538253572429690); (-6598062107225984180); 8660405965245884302;
  10162832508971942; (-2682657355892958417); 7031802312784620857;
  6240911277345944669; 831864355460801054; (-1218937899312622917);
  2116287251661052151; 2202309800992166967; 9161020366945053561;
  4069299552407763864; 4936383537992622449; 457351505131524928;
  (-8881176990926596454); (-6375600354038175299); (-7155351920868399290);
  4368649989588021065; 887231587095185257; (-3659780529968199312);
  (-2407146836602825512); 5616972787034086048; (-751562733459939242);
  1686575021641186857; (-5177887698780513806); (-4979215821652996885);
  (-1375154703071198421); 5632136521049761902; (-8390088894796940536);
  (-193645528485698615); (-5979788902190688516); (-4907000935050298721);
  (-285522056888777828); (-2776431630044341707); 1679342092332374735;
  6050638460742422078; (-2229851317345194226); (-1582494184340482199);
  5881353426285907985; 812786550756860885; 4541845584483343330;
  (-6497901820577766722); 4980675660146853729; (-4012602956251539747);
  (-329088717864244987); (-2896929232104691526); 1495812843684243920;
  (-2153620458055647789); 7370257291860230865; (-2466442761497833547);
  4706794511633873654; (-1398851569026877145); 8549875090542453214;
  (-9189721207376179652); (-7894453601103453165); 7297902601803624459;
  1011190183918857495; (-6985347000036920864); 5147159997473910359;
  (-8326859945294252826); 2659470849286379941; 6097729358393448602;
  (-7491646050550022124); (-5117116194870963097); (-896216826133240300);
  (-745860416168701406); 5803876044675762232; (-787954255994554146);
  (-3234519180203704564); (-4507534739750823898); (-1657200065590290694);
  505808562678895611; (-4153273856159712438); (-8381261370078904295);
  572156825025677802; 1791881013492340891; 3393267094866038768;
  (-5444650186382539299); 2352769483186201278; (-7930912453007408350);
  (-325464993179687389); (-3441562999710612272); (-6489413242825283295);
  5092019688680754699; (-227247482082248967); 4234737173186232084;
  5027558287275472836; 4635198586344772304; (-536033143587636457);
  5907508150730407386; (-8438615781380831356); 972392927514829904;
  (-3801314342046600696); (-4064951393885491917); (-174840358296132583);
  2407211146698877100; (-1640089820333676239); 3940796514530962282;
  (-5882197405809569433); 3095313889586102949; (-1818050141166537098);
  5832080132947175283; 7890064875145919662; 8184139210799583195;
  (-8073512175445549678); (-7758774793014564506); (-4581724029666783935);
  3516491885471466898; (-8267083515063118116); 6657089965014657519;
  5220884358887979358; 1796677326474620641; 5340761970648932916;
  1147977171614181568; 5066037465548252321; 2574765911837859848;
  1085848279845204775; (-5873264506986385449); 6116438694366558490;
  2107701075971293812; (-7420077970933506541); 2469478054175558874;
  (-1855128755834809824); (-5431463669011098282); (-9038325065738319171);
  (-6966276280341336160); 7217693971077460129; (-8314322083775271549);
  7196649268545224266; (-3585711691453906209); (-5267827091426810625);
  8057528650917418961; (-5084103596553648165); (-2601445448341207749);
  (-7850010900052094367); 6527366231383600011; 3507654575162700890;
  9202058512774729859; 1954818376891585542; (-2582991129724600103);
  8299563319178235687; (-5321504681635821435); 7046310742295574065;
  (-2376176645520785576); (-7650733936335907755); 8850422670118399721;
  3631909142291992901; 5158881091950831288; (-6340413719511654215);
  4763258931815816403; 6280052734341785344; (-4979582628649810958);
  2043464728020827976; (-2678071570832690343); 4562580375758598164;
  5495451168795427352; (-7485059175264624713); 553004618757816492;
  6895160632757959823; (-989748114590090637); 7139506338801360852;
  (-672480814466784139); 5535668688139305547; 2430933853350256242;
  (-3821430778991574732); (-1063731997747047009); (-3065878205254005442);
  7632066283658143750; 6308328381617103346; 3681878764086140361;
  3289686137190109749; 6587997200611086848; 244714774258135476;
  (-5143583659437639708); 8090302575944624335; 2945117363431356361;
  (-8359047641006034763); 3009039260312620700; (-793344576772241777);
  401084700045993341; (-1968749590416080887); 4707864159563588614;
  (-3583123505891281857); (-3240864324164777915); (-5908273794572565703);
  (-3719524458082857382); (-5281400669679581926); 8118566580304798074;
  3839261274019871296; 7062410411742090847; (-8481991033874568140);
  6027994129690250817; (-6725542042704711878); (-2971981702428546974);
  (-7854441788951256975); 8809096399316380241; 6492004350391900708;
  2462145737463489636; (-8818543617934476634); (-5070345602623085213);
  (-8961586321599299868); (-3758656652254704451); (-8630661632476012791);
  6764129236657751224; (-709716318315418359); (-3403028373052861600);
  (-8838073512170985897); (-3999237033416576341); (-2920240395515973663);
  (-2073249475545404416); 368107899140673753; (-6108185202296464250);
  (-6307735683270494757); 4782583894627718279; 6718292300699989587;
  8387085186914375220; 3387513132024756289; 4654329375432538231;
  (-292704475491394206); (-3848998599978456535); 7623042350483453954;
  7725442901813263321; 9186225467561587250; (-5132344747257272453);
  (-6865740430362196008); 2530936820058611833; 1636551876240043639;
  (-3658707362519810009); 1452244145334316253; (-7161729655835084979);
  (-7943791770359481772); 9108481583171221009; (-3200093350120725999);
  5007630032676973346; 2153168792952589781; 6720334534964750538;
  (-3181825545719981703); 3433922409283786309; 2285479922797300912;
  3110614940896576130; (-2856812446131932915); (-3804580617188639299);
  7163298419643543757; 4891138053923696990; 580618510277907015;
  1684034065251686769; 4429514767357295841; (-8893025458299325803);
  (-8103734041042601133); 7177515271653460134; 4589042248470800257;
  (-1530083407795771245); 143607045258444228; 246994305896273627;
  (-8356954712051676521); 6473547110565816071; 3092379936208876896;
  2058427839513754051; (-4089587328327907870); 8785882556301281247;
  (-3074039370013608197); (-637529855400303673); 6137678347805511274;
  (-7152924852417805802); 5708223427705576541; (-3223714144396531304);
  4358391411789012426; 325123008708389849; 6837621693887290924;
  4843721905315627004; (-3212720814705499393); (-3825019837890901156);
  4602025990114250980; 1044646352569048800; 9106614159853161675;
  (-8394115921626182539); (-4304087667751778808); 2681532557646850893;
  3681559472488511871; (-3915372517896561773); (-2889241648411946534);
  (-6564663803938238204); (-8060058171802589521); 581945337509520675;
  3648778920718647903; (-4799698790548231394); (-7602572252857820065);
  220828013409515943; (-1072987336855386047); 4287360518296753003;
  (-4633371852008891965); 5513660857261085186; (-2258542936462001533);
  (-8744380348503999773); 8746140185685648781; 228500091334420247;
  1356187007457302238; 3019253992034194581; 3152601605678500003;
  (-8793219284148773595); 5559581553696971176; 4916432985369275664;
  (-8559797105120221417); (-5802598197927043732); 2868348622579915573;
  (-7224052902810357288); (-5894682518218493085); 2587672709781371173;
  (-7706116723325376475); 3092343956317362483; (-5561119517847711700);
  972445599196498113; (-1558506600978816441); 1708913533482282562;
  (-2305554874185907314); (-6005743014309462908); (-6653329009633068701);
  (-483583197311151195); 2488075924621352812; (-4529369641467339140);
  (-4663743555056261452); 2997203966153298104; 1282559373026354493;
  240113143146674385; 8665713329246516443; 628141331766346752;
  (-4651421219668005332); (-7750560848702540400); 7596648026010355826;
  (-3132152619100351065); 7834161864828164065; 7103445518877254909;
  4390861237357459201; (-4780718172614204074); (-319889632007444440);
  622261699494173647; (-3186110786557562560); (-8718967088789066690);
  (-1948156510637662747); (-8212195255998774408); (-7028621931231314745);
  2623071828615234808; (-4066058308780939700); (-5484966924888173764);
  (-6683604512778046238); (-6756087640505506466); 5256026990536851868;
  7841086888628396109; 6640857538655893162; (-8021284697816458310);
  (-7109857044414059830); (-1689021141511844405); (-4298087301956291063);
  (-4077748265377282003); (-998231156719803476); 2719520354384050532;
  9132346697815513771; 4332154495710163773; (-2085582442760428892);
  6994721091344268833; (-2556143461985726874); (-8567931991128098309);
  59934747298466858; (-3098398008776739403); (-265597256199410390);
  2332206071942466437; (-7522315324568406181); 3154897383618636503;
  (-7585605855467168281); (-6762850759087199275); 197309393502684135;
  (-8579694182469508493); 2543179307861934850; 4350769010207485119;
  (-4468719947444108136); (-7207776534213261296); (-1224312577878317200);
  4287946071480840813; 8362686366770308971; 6486469209321732151;
  (-5605644191012979782); (-1669018511020473564); 4450022655153542367;
  (-7618176296641240059); (-3896357471549267421); (-4596796223304447488);
  (-6531150016257070659); (-8982326463137525940); (-4125325062227681798);
  (-1306489741394045544); (-8338554946557245229); 5329160409530630596;
  7790979528857726136; 4955070238059373407; (-4304834761432101506);
  (-6215295852904371179); 3007769226071157901; (-6753025801236972788);
  8928702772696731736; 7856187920214445904; (-4748497451462800923);
  7900176660600710914; (-7082800908938549136); (-6797926979589575837);
  (-6737316883512927978); 4186670094382025798; 1883939007446035042;
  (-414705992779907823); 3734134241178479257; 4065968871360089196;
  6953124200385847784; (-7917685222115876751); (-7585632937840318161);
  (-5567246375906782599); (-5256612402221608788); 3106378204088556331;
  (-2894472214076325998); 4565385105440252958; 1979884289539493806;
  (-6891578849933910383); 3783206694208922581; 8464961209802336085;
  2843963751609577687; 3030678195484896323; (-4429654462759003204);
  4459239494808162889; 402587895800087237; 8057891408711167515;
  4541888170938985079; 1042662272908816815; (-3666068979732206850);
  2647678726283249984; 2144477441549833761; (-3417019821499388721);
  (-2105601033380872185); 5916597177708541638; (-8760774321402454447);
  8833658097025758785; 5970273481425315300; 563813119381731307;
  (-6455022486202078793); 1598828206250873866; (-4016978389451217698);
  (-2988328551145513985); (-6071154634840136312); 8469693267274066490;
  125672920241807416; (-3912292412830714870); (-2559617104544284221);
  (-486523741806024092); (-4735332261862713930); 5923302823487327109;
  (-9082480245771672572); (-1808429243461201518); 7990420780896957397;
  4317817392807076702; 3625184369705367340; (-6482649271566653105);
  (-3480272027152017464); (-3225473396345736649); (-368878695502291645);
  (-3981164001421868007); (-8522033136963788610); 7609280429197514109;
  3020985755112334161; (-2572049329799262942); 2635195723621160615;
  5144520864246028816; (-8188285521126945980); 1567242097116389047;
  8172389260191636581; (-2885551685425483535); (-7060359469858316883);
  (-6480181133964513127); (-7317004403633452381); 6011544915663598137;
  5932255307352610768; 2241128460406315459; (-8327867140638080220);
  3094483003111372717; 4583857460292963101; 9079887171656594975;
  (-384082854924064405); (-3460631649611717935); 4225072055348026230;
  (-7385151438465742745); 3801620336801580414; (-399845416774701952);
  (-7446754431269675473); 7899055018877642622; 5421679761463003041;
  5521102963086275121; (-4975092593295409910); 8735487530905098534;
  (-7462844945281082830); (-2080886987197029914); (-1000715163927557685);
  (-4253840471931071485); (-5828896094657903328); 6424174453260338141;
  359248545074932887; (-5949720754023045210); (-2426265837057637212);
  3030918217665093212; (-9077771202237461772); (-3186796180789149575);
  740416251634527158; (-2142944401404840226); 6951781370868335478;
  399922722363687927; (-8928469722407522623); (-1378421100515597285);
  (-8343051178220066766); (-3030716356046100229); (-8811767350470065420);
  9026808440365124461; 6440783557497587732; 4615674634722404292;
  539897290441580544; 2096238225866883852; 8751955639408182687;
  (-7316147128802486205); 7381039757301768559; 6157238513393239656;
  (-1473377804940618233); 8629571604380892756; 5280433031239081479;
  7101611890139813254; 2479018537985767835; 7169176924412769570;
  (-1281305539061572506); (-7865612307799218120); 2278447439451174845;
  3625338785743880657; 6477479539006708521; 8976185375579272206;
  (-3712000482142939688); 1326024180520890843; 7537449876596048829;
  5464680203499696154; 3189671183162196045; 6346751753565857109;
  (-8982212049534145501); (-6127578587196093755); (-245039190118465649);
  (-6320577374581628592); 7208698530190629697; 7276901792339343736;
  (-7490986807540332668); 4133292154170828382; 2918308698224194548;
  (-7703910638917631350); (-3929437324238184044); (-4300543082831323144);
  (-6344160503358350167); 5896236396443472108; (-758328221503023383);
  (-1894351639983151068); (-307900319840287220); (-6278469401177312761);
  (-2171292963361310674); 8382142935188824023; 9103922860780351547;
  4152330101494654406
].

(** Two's-complement reduction of an integer to 32 bits. *)
Definition int32_wrap (z : Z) : Z := (z + 2 ^ 31) mod 2 ^ 32 - 2 ^ 31.

(** [seedrand]: [x[n+1] = 48271 * x[n] mod (2^31 - 1)] on [int32]. *)
Definition seedrand (x : Z) : Z :=
  let hi := Z.quot x 44488 in
  let lo := Z.rem x 44488 in
  let x := int32_wrap (int32_wrap (48271 * lo) - int32_wrap (3399 * hi)) in
  if x <? 0 then int32_wrap (x + int32max) else x.

(** The state of [rngSource]: [vec] always has [rngLen] entries, and
    [tap] and [feed] stay inside it. *)
Record rngSource : Type := mkRngSource {
  tap : Z;
  feed : Z;
  vec : list Z
}.

(** One turn of the loop of [Seed] for an index [i >= 0]: three steps of
    [seedrand] are mixed with [rngCooked[i]]; the result is [vec[i]] and
    the last [x]. *)
Definition seed_word (x c : Z) : Z * Z :=
  let x1 := seedrand x in
  let u1 := Go.int64_wrap (Z.shiftl x1 40) in
  let x2 := seedrand x1 in
  let u2 := Z.lxor u1 (Go.int64_wrap (Z.shiftl x2 20)) in
  let x3 := seedrand x2 in
  let u3 := Z.lxor u2 x3 in
  (Z.lxor u3 c, x3).

Fixpoint seed_vec (x : Z) (cooked : list Z) {struct cooked} : list Z :=
  match cooked with
  | [] => []
  | c :: rest =>
      let p := seed_word x c in
      fst p :: seed_vec (snd p) rest
  end.

(** [Seed]: the loop runs [seedrand] alone for the indices [-20 .. -1]. *)
Definition rngSource_Seed (seed : Z) : rngSource :=
  let seed := Z.rem seed int32max in
  let seed := if seed <? 0 then seed + int32max else seed in
  let seed := if seed =? 0 then 89482311 else seed in
  mkRngSource 0 (rngLen - rngTap)
    (seed_vec (Nat.iter 20 seedrand seed) rngCooked).

(** [rand.New(rand.NewSource(seed))]. *)
Definition NewSource (seed : Z) : rngSource := rngSource_Seed seed.

(** [Uint64], with the sum kept as the [int64] that is stored. *)
Definition rngSource_Uint64 (r : rngSource) : Z * rngSource :=
  let tap := tap r - 1 in
  let tap := if tap <? 0 then tap + rngLen else tap in
  let feed := feed r - 1 in
  let feed := if feed <? 0 then feed + rngLen else feed in
  let x := Go.int64_add (nth (Z.to_nat feed) (vec r) 0)
             (nth (Z.to_nat tap) (vec r) 0) in
  (x mod 2 ^ 64, mkRngSource tap feed (<[Z.to_nat feed := x]> (vec r))).

(** [Int63] of the source, which [Rand.Int63] returns as it is. *)
Definition Rand_Int63 (r : rngSource) : Z * rngSource :=
  let '(x, r') := rngSource_Uint64 r in (Z.land x rngMask, r').

Definition Rand_Int31 (r : rngSource) : Z * rngSource :=
  let '(x, r') := Rand_Int63 r in (Z.shiftr x 32, r').

(** The loops of [Int63n], [Int31n] and [Float64] draw again while a
    value is rejected.  They are unrolled [retries] times here, and the
    result is [None] if every one of these draws was rejected. *)
Definition retries : nat := 64.

Fixpoint draw_until {A : Type} (fuel : nat) (draw : rngSource -> A * rngSource)
    (accept : A -> bool) (r : rngSource) : option (A * rngSource) :=
  match fuel with
  | O => None
  | S fuel =>
      let '(v, r') := draw r in
      if accept v then Some (v, r') else draw_until fuel draw accept r'
  end.

(** [Int63n], for [0 < n]. *)
Definition Rand_Int63n (r : rngSource) (n : Z) : option (Z * rngSource) :=
  if Z.land n (n - 1) =? 0
  then let '(v, r') := Rand_Int63 r in Some (Z.land v (n - 1), r')
  else
    let max := 2 ^ 63 - 1 - (2 ^ 63) mod n in
    match draw_until retries Rand_Int63 (fun v => v <=? max) r with
    | Some (v, r') => Some (v mod n, r')
    | None => None
    end.

(** [Int31n], for [0 < n]. *)
Definition Rand_Int31n (r : rngSource) (n : Z) : option (Z * rngSource) :=
  if Z.land n (n - 1) =? 0
  then let '(v, r') := Rand_Int31 r in Some (Z.land v (n - 1), r')
  else
    let max := 2 ^ 31 - 1 - (2 ^ 31) mod n in
    match draw_until retries Rand_Int31 (fun v => v <=? max) r with
    | Some (v, r') => Some (v mod n, r')
    | None => None
    end.

(** [Intn], for [0 < n]. *)
Definition Rand_Intn (r : rngSource) (n : Z) : option (Z * rngSource) :=
  if n <=? 2 ^ 31 - 1 then Rand_Int31n r n else Rand_Int63n r n.

(** [Float64]: [float64(r.Int63()) / (1 << 63)], drawn again when it
    is 1. *)
Definition Rand_Float64 (r : rngSource) : option (float * rngSource) :=
  draw_until retries
    (fun r => let '(v, r') := Rand_Int63 r in
              ((Go.float64_of_int v / 9223372036854775808)%float, r'))
    (fun f => negb (f =? 1)%float) r.

Lemma Rand_Int63_nonneg (r : rngSource) : 0 <= fst (Rand_Int63 r).
Proof.
  unfold Rand_Int63. destruct (rngSource_Uint64 r) as [x r']. simpl.
  apply Z.land_nonneg. right. unfold rngMask. lia.
Qed.

Lemma Rand_Int31_nonneg (r : rngSource) : 0 <= fst (Rand_Int31 r).
Proof.
  unfold Rand_Int31. pose proof (Rand_Int63_nonneg r) as H.
  destruct (Rand_Int63 r) as [x r']. simpl in *.
  apply Z.shiftr_nonneg. exact H.
Qed.

Lemma land_below (v m : Z) : 0 <= v -> 0 <= m -> 0 <= Z.land v m <= m.
Proof.
  intros Hv Hm. split; [apply Z.land_nonneg; auto|].
  pose proof (Z.sub_land_same_l m v) as E.
  assert (H : 0 <= Z.land m (Z.lnot v)).
  { apply Z.land_nonneg. left. exact Hm. }
  rewrite (Z.land_comm v m). lia.
Qed.

Lemma Rand_Int63n_range (r : rngSource) (n v : Z) (r' : rngSource) :
  0 < n -> Rand_Int63n r n = Some (v, r') -> 0 <= v < n.
Proof.
  intros Hn. unfold Rand_Int63n.
  destruct (Z.land n (n - 1) =? 0).
  - pose proof (Rand_Int63_nonneg r) as H0. destruct (Rand_Int63 r) as [x r0].
    intros H. inversion H; subst.
    pose proof (land_below x (n - 1) H0 ltac:(lia)). lia.
  - destruct (draw_until _ _ _ _) as [[x r0]|]; [|discriminate].
    intros H. inversion H; subst. apply Z.mod_pos_bound, Hn.
Qed.

Lemma Rand_Int31n_range (r : rngSource) (n v : Z) (r' : rngSource) :
  0 < n -> Rand_Int31n r n = Some (v, r') -> 0 <= v < n.
Proof.
  intros Hn. unfold Rand_Int31n.
  destruct (Z.land n (n - 1) =? 0).
  - pose proof (Rand_Int31_nonneg r) as H0. destruct (Rand_Int31 r) as [x r0].
    intros H. inversion H; subst.
    pose proof (land_below x (n - 1) H0 ltac:(lia)). lia.
  - destruct (draw_until _ _ _ _) as [[x r0]|]; [|discriminate].
    intros H. inversion H; subst. apply Z.mod_pos_bound, Hn.
Qed.

Lemma Rand_Intn_range (r : rngSource) (n v : Z) (r' : rngSource) :
  0 < n -> Rand_Intn r n = Some (v, r') -> 0 <= v < n.
Proof.
  intros Hn. unfold Rand_Intn. destruct (n <=? 2 ^ 31 - 1).
  - apply Rand_Int31n_range, Hn.
  - apply Rand_Int63n_range, Hn.
Qed.

End rand.

(** [math/rand] as a [RandSource].  The interface has total draws: a draw
    of which every retry was rejected gives 0 and leaves the state, and
    [Float64] gives 0 for a value outside the unit interval, which the
    quotient of a 63-bit integer by [2^63], when it is not 1, never
    is. *)
Module GoRand.

Definition accepted (o : option (Z * rand.rngSource)) (r : rand.rngSource)
    : Z * rand.rngSource :=
  match o with Some p => p | None => (0, r) end.

Definition unit_Float64 (r : rand.rngSource) : float * rand.rngSource :=
  match rand.Rand_Float64 r with
  | Some (f, r') =>
      if (0 <=? f)%float && (f <? 1)%float then (f, r') else (0%float, r')
  | None => (0%float, r)
  end.

Lemma accepted_range (o : option (Z * rand.rngSource)) (r : rand.rngSource)
    (n : Z) :
  0 < n ->
  (forall v r', o = Some (v, r') -> 0 <= v < n) ->
  0 <= fst (accepted o r) < n.
Proof.
  intros Hn H. destruct o as [[v r']|]; simpl; [eapply H; reflexivity|lia].
Qed.

Lemma unit_Float64_range (r : rand.rngSource) :
  (0 <=? fst (unit_Float64 r))%float = true
  /\ (fst (unit_Float64 r) <? 1)%float = true.
Proof.
  unfold unit_Float64. destruct (rand.Rand_Float64 r) as [[f r']|].
  - destruct ((0 <=? f)%float && (f <? 1)%float) eqn:E; simpl.
    + apply andb_true_iff in E. exact E.
    + split; vm_compute; reflexivity.
  - split; vm_compute; reflexivity.
Qed.

#[export] Instance source : RandSource := {|
  rng := rand.rngSource;
  NewSource := rand.NewSource;
  Int63n := fun r n => accepted (rand.Rand_Int63n r n) r;
  Intn := fun r n => accepted (rand.Rand_Intn r n) r;
  Float64 := unit_Float64;
  Int63n_range := fun r n Hn =>
    accepted_range (rand.Rand_Int63n r n) r n Hn
      (fun v r' => rand.Rand_Int63n_range r n v r' Hn);
  Intn_range := fun r n Hn =>
    accepted_range (rand.Rand_Intn r n) r n Hn
      (fun v r' => rand.Rand_Intn_range r n v r' Hn);
  Float64_range := unit_Float64_range
|}.

End GoRand.

(** The calendar of UTC as a [Clock] (the process runs with the local
    zone set to UTC): days since the epoch are turned into a civil date
    of the proleptic Gregorian calendar. *)
Module UTCClock.

Definition digit (d : Z) : string :=
  String (ascii_of_nat (48 + Z.to_nat (d mod 10))) EmptyString.

Definition two_digits (n : Z) : string :=
  String.append (digit (n / 10)) (digit n).

Definition four_digits (n : Z) : string :=
  String.append (two_digits (n / 100)) (two_digits (n mod 100)).

(** Year, month and day of the day [days] after 1970-01-01. *)
Definition civil_from_days (days : Z) : Z * Z * Z :=
  let z := days + 719468 in
  let era := z / 146097 in
  let doe := z - era * 146097 in
  let yoe := (doe - doe / 1460 + doe / 36524 - doe / 146096) / 365 in
  let doy := doe - (365 * yoe + yoe / 4 - yoe / 100) in
  let mp := (5 * doy + 2) / 153 in
  let d := doy - (153 * mp + 2) / 5 + 1 in
  let m := if mp <? 10 then mp + 3 else mp - 9 in
  let y := yoe + era * 400 + (if m <=? 2 then 1 else 0) in
  (y, m, d).

Definition month_string (t : Time) : string :=
  let '(y, m, _) := civil_from_days (unix_sec t / 86400) in
  String.append (four_digits y) (String.append "-" (two_digits m)).

Definition date_string (t : Time) : string :=
  let '(_, _, d) := civil_from_days (unix_sec t / 86400) in
  String.append (month_string t) (String.append "-" (two_digits d)).

Definition minute_of (t : Time) : Z := (unix_sec t mod 3600) / 60.

#[export] Instance clock : Clock := {|
  Time_Date := date_string;
  Time_Month := month_string;
  Time_Minute := minute_of
|}.

End UTCClock.

(* ===================================================================== *)
(** * Properties *)
(* ===================================================================== *)

(** ** Integers and floats *)

Lemma int64_wrap_range (z : Z) : Go.in_int64 (Go.int64_wrap z).
Proof.
  unfold Go.in_int64, Go.int64_wrap.
  pose proof (Z.mod_pos_bound (z + 2 ^ 63) (2 ^ 64) ltac:(lia)). lia.
Qed.

Lemma int64_wrap_small (z : Z) : Go.in_int64 z -> Go.int64_wrap z = z.
Proof.
  unfold Go.in_int64, Go.int64_wrap. intros H.
  rewrite Z.mod_small by lia. lia.
Qed.

Lemma int64_wrap_add_l (a b : Z) :
  Go.int64_wrap (Go.int64_wrap a + b) = Go.int64_wrap (a + b).
Proof.
  unfold Go.int64_wrap. f_equal.
  replace ((a + 2 ^ 63) mod 2 ^ 64 - 2 ^ 63 + b + 2 ^ 63)
    with ((a + 2 ^ 63) mod 2 ^ 64 + b) by lia.
  rewrite Zplus_mod_idemp_l. f_equal. lia.
Qed.

Lemma int64_wrap_add_r (a b : Z) :
  Go.int64_wrap (a + Go.int64_wrap b) = Go.int64_wrap (a + b).
Proof. rewrite Z.add_comm, int64_wrap_add_l. f_equal. lia. Qed.

(** The order of float64 is transitive where it holds (a comparison with a
    NaN is false). *)
Lemma SFleb_trans (x y z : spec_float) :
  SFleb x y = true -> SFleb y z = true -> SFleb x z = true.
Proof.
  unfold SFleb, SFcompare.
  destruct x as [sx|sx| |sx mx ex], y as [sy|sy| |sy my ey],
           z as [sz|sz| |sz mz ez];
    repeat match goal with s : bool |- _ => destruct s end;
    simpl; try congruence;
    change (Pos.compare_cont Eq) with Pos.compare;
    destruct (Z.compare_spec ex ey), (Z.compare_spec ey ez),
             (Z.compare_spec ex ez);
    simpl; try congruence; try lia; subst;
    destruct (Pos.compare_spec mx my), (Pos.compare_spec my mz),
             (Pos.compare_spec mx mz);
    simpl; try congruence; try lia.
Qed.

Lemma float64_leb_trans (x y z : float) :
  (x <=? y)%float = true -> (y <=? z)%float = true -> (x <=? z)%float = true.
Proof. rewrite !leb_spec. apply SFleb_trans. Qed.

(** ** Lists *)

Lemma filter_length_le {A : Type} (f g : A -> bool) (l : list A) :
  (forall a, In a l -> f a = true -> g a = true) ->
  (length (List.filter f l) <= length (List.filter g l))%nat.
Proof.
  induction l as [|a l IH]; simpl; intros H; [lia|].
  assert (IH' := IH (fun b Hb => H b (or_intror Hb))).
  destruct (f a) eqn:Hf.
  - rewrite (H a (or_introl eq_refl) Hf). simpl. lia.
  - destruct (g a); simpl; lia.
Qed.

Lemma filter_length_bound {A : Type} (f : A -> bool) (l : list A) :
  (length (List.filter f l) <= length l)%nat.
Proof. induction l as [|a l IH]; simpl; [lia|]. destruct (f a); simpl; lia. Qed.

Lemma filter_split_Permutation {A : Type} (f : A -> bool) (l : list A) :
  Permutation (List.filter f l ++ List.filter (fun a => negb (f a)) l) l.
Proof.
  induction l as [|a l IH]; simpl; [constructor|].
  destruct (f a); simpl.
  - constructor. exact IH.
  - symmetry. apply Permutation_cons_app. symmetry. exact IH.
Qed.

(** ** HourlyBar: what each accumulator holds *)

Section BarAccumulators.
Import aggregator.

Lemma AddTrades_cons (h : HourlyBar) (a : TradeArgs) (l : list TradeArgs) :
  HourlyBar_AddTrades h (a :: l) = HourlyBar_AddTrades (HourlyBar_AddTrade h a) l.
Proof. reflexivity. Qed.

(** A float field that receives [+= qty] under the guard [c] holds the
    left-to-right sum of the quantities of the trades that pass [c]. *)
Lemma fadd_field_fold (f : HourlyBar -> float) (c : TradeArgs -> bool) :
  (forall h a, f (HourlyBar_AddTrade h a) = fadd_if (c a) (f h) (qty a)) ->
  forall l h,
    f (HourlyBar_AddTrades h l)
    = fold_left PrimFloat.add (map qty (List.filter c l)) (f h).
Proof.
  intros Hstep. induction l as [|a l IH]; intros h; [reflexivity|].
  rewrite AddTrades_cons, IH, Hstep. simpl.
  unfold fadd_if. destruct (c a); reflexivity.
Qed.

(** An integer field that receives [++] under the guard [c] holds the
    number of trades that pass [c], reduced to 64 bits. *)
Lemma incr_field_count (g : HourlyBar -> Z) (c : TradeArgs -> bool) :
  (forall h a, g (HourlyBar_AddTrade h a) = incr_if (c a) (g h)) ->
  forall l h,
    Go.in_int64 (g h) ->
    g (HourlyBar_AddTrades h l)
    = Go.int64_wrap (g h + Z.of_nat (length (List.filter c l))).
Proof.
  intros Hstep. induction l as [|a l IH]; intros h Hr.
  - simpl. rewrite Z.add_0_r. symmetry. apply int64_wrap_small, Hr.
  - rewrite AddTrades_cons, IH, Hstep.
    + unfold incr_if. simpl. destruct (c a); simpl.
      * unfold Go.int64_add. rewrite int64_wrap_add_l. f_equal. lia.
      * reflexivity.
    + rewrite Hstep. unfold incr_if, Go.int64_add.
      destruct (c a); [apply int64_wrap_range | exact Hr].
Qed.

Lemma NTrades_count (l : list TradeArgs) :
  NTrades (HourlyBar_AddTrades NewHourlyBar l)
  = Go.int64_wrap (Z.of_nat (length l)).
Proof.
  assert (H : forall l h, Go.in_int64 (NTrades h) ->
            NTrades (HourlyBar_AddTrades h l)
            = Go.int64_wrap (NTrades h + Z.of_nat (length l))).
  { clear l. induction l as [|a l IH]; intros h Hr.
    - simpl. rewrite Z.add_0_r. symmetry. apply int64_wrap_small, Hr.
    - rewrite AddTrades_cons, IH.
      + simpl. unfold Go.int64_add. rewrite int64_wrap_add_l. f_equal. lia.
      + simpl. apply int64_wrap_range. }
  rewrite H; [reflexivity|]. unfold Go.in_int64. simpl. lia.
Qed.

Lemma zero_in_int64 : Go.in_int64 0.
Proof. unfold Go.in_int64. lia. Qed.

Lemma filter_lengths_sum {A : Type} (f : A -> bool) (l : list A) :
  (length (List.filter f l) + length (List.filter (fun a => negb (f a)) l)
   = length l)%nat.
Proof.
  rewrite <- length_app. apply Permutation_length, filter_split_Permutation.
Qed.

End BarAccumulators.

(** ** Trade counts and the two splits of the volume *)

Section BarSplit.
Import aggregator.

Definition is_sell (a : TradeArgs) : bool := negb (isBuy a).
Definition in_first_half (a : TradeArgs) : bool := minute a <? 30.
Definition in_last_half (a : TradeArgs) : bool := negb (minute a <? 30).

(** Three trades of one hour: 0.1 bought in minute 5, 0.2 bought in minute
    45, 0.3 sold in minute 45. *)
Definition three_trades : list TradeArgs :=
  [ mkTradeArgs 30000 0.1 true 5 false false;
    mkTradeArgs 30000 0.2 true 45 false false;
    mkTradeArgs 30000 0.3 false 45 false false ].

(** C3, the claim as stated fails: for the three trades above the bar has
    [vol_first_30min + vol_last_30min = 0.1 + (0.2 + 0.3)], which is
    0.59999999999999998, and [buy_vol + sell_vol = (0.1 + 0.2) + 0.3],
    which is 0.60000000000000009; the float64 comparison [==] of the two
    is false. *)
Lemma volume_split_not_exact :
  (VolFirst30Min (HourlyBar_AddTrades NewHourlyBar three_trades)
   + VolLast30Min (HourlyBar_AddTrades NewHourlyBar three_trades)
   = 0x1.3333333333333p-1)%float
  /\ (BuyVol (HourlyBar_AddTrades NewHourlyBar three_trades)
      + SellVol (HourlyBar_AddTrades NewHourlyBar three_trades)
      = 0x1.3333333333334p-1)%float
  /\ (VolFirst30Min (HourlyBar_AddTrades NewHourlyBar three_trades)
      + VolLast30Min (HourlyBar_AddTrades NewHourlyBar three_trades)
      =? BuyVol (HourlyBar_AddTrades NewHourlyBar three_trades)
         + SellVol (HourlyBar_AddTrades NewHourlyBar three_trades))%float
     = false.
Proof. repeat split; vm_compute; reflexivity. Qed.

(** C3, as amended: for every bar built from the zero bar by [AddTrade]
    calls, [n_trades] is [buy_count + sell_count] (in Go's int64
    arithmetic, and as integers below 2^63 trades); each quantity is added
    to exactly one accumulator of each pair, so [buy_vol], [sell_vol],
    [vol_first_30min] and [vol_last_30min] are the left-to-right float64
    sums of the quantities of the buys, the sells, the trades of minutes
    below 30 and the others, and the two pairs split the same quantities.
    The two totals are sums of the same numbers in different orders; no
    equality of the rounded totals is stated. *)
Theorem HourlyBar_counts_and_volume_split (l : list TradeArgs) :
  let b := HourlyBar_AddTrades NewHourlyBar l in
  NTrades b = Go.int64_add (BuyCount b) (SellCount b)
  /\ (Z.of_nat (length l) < 2 ^ 63 -> NTrades b = BuyCount b + SellCount b)
  /\ BuyVol b = Go.fsum (map qty (List.filter isBuy l))
  /\ SellVol b = Go.fsum (map qty (List.filter is_sell l))
  /\ VolFirst30Min b = Go.fsum (map qty (List.filter in_first_half l))
  /\ VolLast30Min b = Go.fsum (map qty (List.filter in_last_half l))
  /\ Permutation
       (map qty (List.filter isBuy l) ++ map qty (List.filter is_sell l))
       (map qty (List.filter in_first_half l)
        ++ map qty (List.filter in_last_half l)).
Proof.
  cbv zeta.
  pose proof (NTrades_count l) as HN.
  pose proof (incr_field_count BuyCount isBuy (fun h a => eq_refl) l
                NewHourlyBar zero_in_int64) as HB.
  pose proof (incr_field_count SellCount is_sell (fun h a => eq_refl) l
                NewHourlyBar zero_in_int64) as HS.
  pose proof (filter_lengths_sum isBuy l) as Hsum.
  pose proof (filter_length_bound isBuy l) as Hb1.
  pose proof (filter_length_bound is_sell l) as Hb2.
  change (BuyCount NewHourlyBar) with 0 in HB.
  change (SellCount NewHourlyBar) with 0 in HS.
  rewrite Z.add_0_l in HB, HS.
  change (fun a => negb (isBuy a)) with is_sell in Hsum.
  split; [|split; [|repeat split]].
  - rewrite HN, HB, HS. unfold Go.int64_add.
    rewrite int64_wrap_add_l, int64_wrap_add_r. f_equal. lia.
  - intros Hlt. rewrite HN, HB, HS.
    rewrite !int64_wrap_small; unfold Go.in_int64; lia.
  - apply (fadd_field_fold BuyVol isBuy (fun h a => eq_refl)).
  - apply (fadd_field_fold SellVol is_sell (fun h a => eq_refl)).
  - apply (fadd_field_fold VolFirst30Min in_first_half (fun h a => eq_refl)).
  - apply (fadd_field_fold VolLast30Min in_last_half (fun h a => eq_refl)).
  - rewrite <- !map_app. apply Permutation_map.
    transitivity l.
    + apply filter_split_Permutation.
    + symmetry. apply (filter_split_Permutation in_first_half).
Qed.

End BarSplit.

(** ** Whale counts *)

Section WhaleCounts.
Import aggregator.


(** The same order, with the counters between 0 and [n], the number of
    trades the bar has received at most. *)
Definition whale_counts_within (n : Z) (b : HourlyBar) : Prop :=
  0 <= WhaleBuyCountP999 b
  /\ WhaleBuyCountP999 b <= WhaleBuyCountP99 b
  /\ WhaleBuyCountP99 b <= BuyCount b
  /\ 0 <= WhaleSellCountP999 b
  /\ WhaleSellCountP999 b <= WhaleSellCountP99 b
  /\ WhaleSellCountP99 b <= SellCount b
  /\ BuyCount b + SellCount b <= n.

(** A trade above the P99.9 threshold is flagged above the P99 threshold
    as well. *)
Definition flags_consistent (a : TradeArgs) : Prop :=
  isWhaleP999 a = true -> isWhaleP99 a = true.



Lemma whale_counts_within_mono (n m : Z) (b : HourlyBar) :
  n <= m -> whale_counts_within n b -> whale_counts_within m b.
Proof. unfold whale_counts_within. intros; intuition lia. Qed.

Lemma whale_counts_within_new : whale_counts_within 0 NewHourlyBar.
Proof. unfold whale_counts_within. simpl. lia. Qed.

Lemma int64_incr_exact (c n : Z) :
  0 <= c <= n -> n + 1 < 2 ^ 63 -> Go.int64_add c 1 = c + 1.
Proof.
  intros H1 H2. unfold Go.int64_add. apply int64_wrap_small.
  unfold Go.in_int64. lia.
Qed.

Lemma whale_counts_within_AddTrade (n : Z) (b : HourlyBar) (a : TradeArgs) :
  whale_counts_within n b -> flags_consistent a -> n + 1 < 2 ^ 63 ->
  whale_counts_within (n + 1) (HourlyBar_AddTrade b a).
Proof.
  unfold whale_counts_within, flags_consistent.
  intros (H1 & H2 & H3 & H4 & H5 & H6 & H7) Hf Hn.
  destruct a as [p q buy m w99 w999]; simpl in *.
  unfold incr_if.
  destruct buy, w99, w999; simpl;
    try (specialize (Hf eq_refl); discriminate);
    rewrite ?(int64_incr_exact _ n) by lia; lia.
Qed.



(** A bar built from the zero bar by fewer than 2^63 [AddTrade] calls with
    consistent flags has ordered whale counts. *)
Lemma AddTrades_whale_counts (l : list TradeArgs) :
  Forall flags_consistent l -> Z.of_nat (length l) < 2 ^ 63 ->
  whale_counts_within (Z.of_nat (length l))
    (HourlyBar_AddTrades NewHourlyBar l).
Proof.
  assert (G : forall l n b, whale_counts_within n b ->
            Forall flags_consistent l -> n + Z.of_nat (length l) < 2 ^ 63 ->
            whale_counts_within (n + Z.of_nat (length l))
              (HourlyBar_AddTrades b l)).
  { clear l. induction l as [|a l IH]; intros n b Hb Hl Hn.
    - simpl. rewrite Z.add_0_r. exact Hb.
    - rewrite AddTrades_cons. inversion Hl as [|? ? Ha Hl']; subst.
      simpl length in *.
      replace (n + Z.of_nat (S (length l)))
        with ((n + 1) + Z.of_nat (length l)) in * by lia.
      apply IH; [|exact Hl'|lia].
      apply whale_counts_within_AddTrade; [exact Hb|exact Ha|lia]. }
  intros Hl Hn. apply (G l 0 NewHourlyBar whale_counts_within_new Hl). lia.
Qed.

End WhaleCounts.

(** ** Whale counts of the bars of an aggregator *)

Section AggregatorRun.
Context {RS : RandSource} {CK : Clock}.
Import aggregator.

(** The operations on an aggregator: a batch of trades, [Flush], and
    [GetBarsForMonth] (whose bars leave the aggregator). *)
Inductive Op : Type :=
| OpProcess (trades : list parser.Trade)
| OpFlush
| OpGetBars (month : string).

Definition step (a : Aggregator) (op : Op) : option Aggregator :=
  match op with
  | OpProcess trades => ProcessTrades a trades
  | OpFlush => Some (Flush a)
  | OpGetBars month => Some (GetBarsForMonth a month).2
  end.

Fixpoint run (a : Aggregator) (ops : list Op) : option Aggregator :=
  match ops with
  | [] => Some a
  | op :: ops' =>
      match step a op with
      | Some a' => run a' ops'
      | None => None
      end
  end.

(** The first loop of [ProcessTrades]. *)
Definition first_pass (a : Aggregator) (trades : list parser.Trade)
    : option Aggregator :=
  fold_left sample_step trades (Some a).




Definition bars_within (n : Z) (a : Aggregator) : Prop :=
  0 <= n
  /\ (forall hour bar, pendingBars a !! hour = Some bar ->
                    whale_counts_within n bar)
  /\ Forall (fun hr => whale_counts_within n (hr_Bar hr)) (finalizedBars a).

Lemma fold_sample_step_None (l : list parser.Trade) :
  fold_left sample_step l None = None.
Proof. induction l; simpl; auto. Qed.

Lemma fold_classify_step_None (l : list parser.Trade) :
  fold_left classify_step l None = None.
Proof. induction l; simpl; auto. Qed.

(** The first pass leaves the bars alone and only deletes cache entries:
    afterwards no date of the batch is cached. *)
Lemma first_pass_spec (trades : list parser.Trade) :
  forall a a1,
    first_pass a trades = Some a1 ->
    pendingBars a1 = pendingBars a
    /\ finalizedBars a1 = finalizedBars a
    /\ (forall date, whale.thresholdCache (detector a) !! date = None ->
                     whale.thresholdCache (detector a1) !! date = None)
    /\ Forall (fun trade =>
                 whale.thresholdCache (detector a1)
                   !! parser.Trade_Date trade = None) trades.
Proof.
  unfold first_pass.
  induction trades as [|t trades IH]; intros a a1 H.
  - simpl in H. inversion H; subst. repeat split; auto.
  - change (fold_left sample_step (t :: trades) (Some a))
      with (fold_left sample_step trades (sample_step (Some a) t)) in H.
    unfold sample_step at 2 in H.
    destruct (whale.Detector_AddSample (detector a) (parser.Trade_Date t)
                (parser.Qty t)) as [d|] eqn:Hd;
      [|rewrite fold_sample_step_None in H; discriminate].
    apply IH in H. simpl in H. destruct H as (H1 & H2 & H3 & H4).
    unfold whale.Detector_AddSample in Hd.
    destruct (whale.RollingPercentile_AddSample _ _ _) as [rp|];
      [|discriminate].
    inversion Hd; subst d; clear Hd. simpl in H3.
    repeat split; auto.
    + intros date Hdate. apply H3.
      rewrite lookup_delete_None. auto.
    + constructor; [|exact H4].
      apply H3. apply lookup_delete_eq.
Qed.


Lemma bars_within_mono (n m : Z) (a : Aggregator) :
  n <= m -> bars_within n a -> bars_within m a.
Proof.
  intros Hnm (H0 & H1 & H2). split; [lia|split].
  - intros hour bar Hb. eapply whale_counts_within_mono; eauto.
  - eapply List.Forall_impl; [|exact H2].
    intros hr. apply whale_counts_within_mono, Hnm.
Qed.





Lemma In_insert_sorted {A : Type} (less : A -> A -> bool) (x y : A)
    (l : list A) :
  In y (Go.insert_sorted less x l) <-> y = x \/ In y l.
Proof.
  induction l as [|z l IH]; simpl; [intuition|].
  destruct (less x z); simpl; [intuition|]. rewrite IH. intuition.
Qed.

Lemma In_sort_by {A : Type} (less : A -> A -> bool) (y : A) (l : list A) :
  In y (Go.sort_by less l) <-> In y l.
Proof.
  unfold Go.sort_by. induction l as [|x l IH]; simpl; [tauto|].
  rewrite In_insert_sorted, IH. intuition.
Qed.






End AggregatorRun.

Lemma some_of_default {A : Type} (o : option A) (d : A) :
  match o with Some _ => true | None => false end = true ->
  o = Some (match o with Some a => a | None => d end).
Proof. destruct o; [reflexivity|discriminate]. Qed.

(** A run of two batches over two days of January 2020: 0.5 bought on
    the first day; 7.0 sold and 0.25 bought on the second. *)
Definition demo_ops : list Op :=
  [ OpProcess
      [ parser.mkTrade (Time_UnixMilli 1577836800000) 30000 0.5 false ];
    OpProcess
      [ parser.mkTrade (Time_UnixMilli 1577923200000) 31000 7.0 true;
        parser.mkTrade (Time_UnixMilli 1577923260000) 31000 0.25 false ] ].

Definition demo_aggregator : @aggregator.Aggregator LCG.source :=
  match @run LCG.source UTCClock.clock
          (aggregator.NewAggregator 7 10000) demo_ops with
  | Some a => a
  | None => aggregator.NewAggregator 7 10000
  end.


(** ** Reservoir: count and length of the sample *)

Section ReservoirProps.
Context {RS : RandSource}.
Import whale.

(** The invariant of the claim: the sample holds [min(count, k)] values. *)
Definition length_is_min (r : Reservoir) : Prop :=
  Go.len (samples r) = Z.min (count r) (capacity r).



(** A new reservoir of capacity [k] fed the values [vs]. *)
Definition fed (k : Z) (vs : list float) : option Reservoir :=
  match NewReservoir k with
  | Some r0 => Reservoir_AddAll r0 vs
  | None => None
  end.

Lemma len_app_one {A : Type} (l : list A) (x : A) :
  Go.len (l ++ [x]) = Go.len l + 1.
Proof. unfold Go.len. rewrite length_app. simpl. lia. Qed.

Lemma len_insert {A : Type} (l : list A) (i : nat) (x : A) :
  Go.len (<[i := x]> l) = Go.len l.
Proof. unfold Go.len. rewrite length_insert. reflexivity. Qed.




(** The loop of [Merge]: the count and the capacity stay, the sample grows
    by at most one value per step and never beyond the capacity. *)
Lemma merge_loop_spec (p : float) (vals : list float) :
  forall r r',
    fold_left (merge_step p) vals (Some r) = Some r' ->
    count r' = count r
    /\ capacity r' = capacity r
    /\ Go.len (samples r') <= Go.len (samples r) + Go.len vals
    /\ (Go.len (samples r) <= capacity r ->
        Go.len (samples r') <= capacity r).
Proof.
  induction vals as [|v vals IH]; intros r r' H.
  - simpl in H. inversion H; subst. unfold Go.len. simpl. repeat split; lia.
  - change (fold_left (merge_step p) (v :: vals) (Some r))
      with (fold_left (merge_step p) vals (merge_step p (Some r) v)) in H.
    destruct (merge_step p (Some r) v) as [r1|] eqn:Hs.
    + apply IH in H. destruct H as (Hc & Hk & Hl & Hb).
      assert (H1 : count r1 = count r /\ capacity r1 = capacity r
                   /\ Go.len (samples r1) <= Go.len (samples r) + 1
                   /\ (Go.len (samples r) <= capacity r ->
                       Go.len (samples r1) <= capacity r)).
      { unfold merge_step in Hs.
        destruct (Float64 (rsv_rng r)) as [u g].
        destruct (u <? p)%float.
        - destruct (Go.len (samples r) <? capacity r) eqn:Hlt.
          + apply Z.ltb_lt in Hlt. inversion Hs; subst r1; simpl.
            rewrite len_app_one. repeat split; lia.
          + destruct (capacity r <=? 0); [discriminate|].
            destruct (Intn g (capacity r)) as [j g'].
            inversion Hs; subst r1; simpl. rewrite len_insert.
            repeat split; lia.
        - inversion Hs; subst r1; simpl. repeat split; lia. }
      destruct H1 as (Hc1 & Hk1 & Hl1 & Hb1).
      assert (Go.len (v :: vals) = Go.len vals + 1)
        by (unfold Go.len; simpl length; lia).
      split; [congruence|]. split; [congruence|]. split; [lia|].
      intros Hle. rewrite <- Hk1. apply Hb. rewrite Hk1. auto.
    + exfalso. clear -H. induction vals; simpl in H; [discriminate|auto].
Qed.




(** With a comparison that always succeeds, the loop of [Merge] over one
    value adds at most that one value. *)
Lemma Merge_one_sample_length (r other r' : Reservoir) (v : float) :
  samples other = [v] ->
  Reservoir_Merge r other = Some r' ->
  Go.len (samples r') <= Go.len (samples r) + 1.
Proof.
  intros Hs Hm. unfold Reservoir_Merge, Reservoir_Size in Hm.
  rewrite Hs in Hm. change (Go.len [v] =? 0) with false in Hm.
  unfold Reservoir_Samples in Hm. rewrite Hs in Hm.
  destruct (fold_left _ _ _) as [r1|] eqn:Hf; [|discriminate].
  apply merge_loop_spec in Hf. destruct Hf as (_ & _ & Hl & _).
  inversion Hm; subst r'. simpl. unfold Go.len in *. simpl in *. lia.
Qed.

(** ** Reservoir: export, import and the generator *)

(** [ExportState] followed by [NewReservoirFromSamples] with the same
    capacity. *)
Definition export_import (r : Reservoir) : Reservoir :=
  let '(s, c) := Reservoir_ExportState r in
  NewReservoirFromSamples (capacity r) s c.

Lemma export_import_spec (r : Reservoir) :
  export_import r
  = mkReservoir (samples r) (capacity r) (count r) (NewSource 42).
Proof. reflexivity. Qed.

(** While the sample has room, [Add] appends and leaves the generator
    alone. *)
Lemma Reservoir_AddAll_room (vs : list float) :
  forall r r',
    Reservoir_AddAll r vs = Some r' ->
    Go.len (samples r) + Go.len vs <= capacity r ->
    rsv_rng r' = rsv_rng r.
Proof.
  unfold Go.len.
  induction vs as [|v vs IH]; intros r r' Ha Hroom.
  - simpl in Ha. inversion Ha; subst. reflexivity.
  - simpl in Ha, Hroom. unfold Reservoir_Add, Go.len in Ha.
    assert (Hlt : (Z.of_nat (length (samples r)) <? capacity r) = true)
      by (apply Z.ltb_lt; lia).
    rewrite Hlt in Ha. apply IH in Ha; [exact Ha|].
    simpl. rewrite length_app. simpl. lia.
Qed.

(** C6, as amended: the round trip keeps the samples, the capacity and the
    count and restarts the generator at seed 42.  For a reservoir built
    from a new one of capacity [k] by at most [k] calls of [Add] the
    generator has not been drawn from, so the round trip is the identity
    and any further sequence of [Add] gives the same reservoir with and
    without it. *)
Theorem export_import_continues (k : Z) (vs0 vs : list float)
    (r : Reservoir) :
  fed k vs0 = Some r ->
  Go.len vs0 <= k ->
  export_import r = r
  /\ Reservoir_AddAll (export_import r) vs = Reservoir_AddAll r vs.
Proof.
  intros Hfed Hlen. unfold fed, NewReservoir in Hfed.
  destruct (k <? 0); [discriminate|].
  apply Reservoir_AddAll_room in Hfed; [|simpl; unfold Go.len in *; simpl; lia].
  simpl in Hfed.
  assert (E : export_import r = r).
  { rewrite export_import_spec, <- Hfed. destruct r; reflexivity. }
  split; [exact E|]. rewrite E. reflexivity.
Qed.

End ReservoirProps.

(** The failure of the length invariant after [Merge] does not depend on
    the generator: [other], of capacity 1, has seen two values and holds
    one; its weight [2/2] is 1, every draw of [Float64] is below it, and
    the new reservoir of capacity [k >= 2] ends with one sample and
    count 2. *)
Lemma Merge_length_below_min {RS : RandSource} (k : Z) (v1 v2 : float) :
  2 <= k ->
  exists other r r',
    whale.NewReservoir 1 = Some (whale.mkReservoir [] 1 0 (NewSource 42))
    /\ whale.Reservoir_AddAll (whale.mkReservoir [] 1 0 (NewSource 42))
         [v1; v2] = Some other
    /\ whale.NewReservoir k = Some r
    /\ whale.Reservoir_Merge r other = Some r'
    /\ whale.count r' = 2
    /\ whale.capacity r' = k
    /\ Go.len (whale.samples r') = 1
    /\ ~ length_is_min r'.
Proof.
  intros Hk.
  assert (Hother : exists x g,
             whale.Reservoir_AddAll (whale.mkReservoir [] 1 0 (NewSource 42))
               [v1; v2] = Some (whale.mkReservoir [x] 1 2 g)).
  { simpl. unfold whale.Reservoir_Add. simpl.
    change (Go.int64_add 0 1) with 1. change (Go.int64_add 1 1) with 2.
    change (Go.len [v1] <? 1) with false. change (2 <=? 0) with false.
    destruct (Int63n (NewSource 42) 2) as [j g].
    destruct (j <? 1); [|eauto].
    destruct (Z.to_nat j); simpl; eauto. }
  destruct Hother as (x & g & Hother).
  unfold whale.NewReservoir.
  destruct (k <? 0) eqn:Hlt; [apply Z.ltb_lt in Hlt; lia|].
  exists (whale.mkReservoir [x] 1 2 g), (whale.mkReservoir [] k 0 (NewSource 42)).
  unfold whale.Reservoir_Merge, whale.Reservoir_Size, whale.Reservoir_Samples.
  simpl. change (Go.len [x] =? 0) with false. cbv iota.
  change (Go.int64_add 0 2) with 2.
  destruct (Float64 (NewSource 42)) as [u g0] eqn:Hu.
  pose proof (Float64_range (NewSource 42)) as [_ Hlt1].
  rewrite Hu in Hlt1. simpl in Hlt1.
  replace (Go.float64_of_int 2 / Go.float64_of_int 2)%float with 1%float
    by (vm_compute; reflexivity).
  rewrite Hlt1.
  assert (Hroom : (Go.len (@nil float) <? k) = true)
    by (apply Z.ltb_lt; unfold Go.len; simpl; lia).
  change (Go.len (whale.samples (whale.mkReservoir [] k 0 (NewSource 42))))
    with (Go.len (@nil float)).
  rewrite Hroom. eexists. split; [reflexivity|]. split; [exact Hother|].
  split; [reflexivity|]. split; [reflexivity|]. simpl.
  split; [reflexivity|]. split; [reflexivity|]. split; [reflexivity|].
  unfold length_is_min. simpl. change (Go.len [x]) with 1. lia.
Qed.



(** Successive draws of [Int63n] and of [Intn] with the bounds [ns], from
    the state [r]; [None] if a draw rejected every value it was given. *)
Fixpoint Int63n_draws (r : rand.rngSource) (ns : list Z) : option (list Z) :=
  match ns with
  | [] => Some []
  | n :: ns' =>
      match rand.Rand_Int63n r n with
      | Some (v, r') => option_map (cons v) (Int63n_draws r' ns')
      | None => None
      end
  end.

Fixpoint Intn_draws (r : rand.rngSource) (ns : list Z) : option (list Z) :=
  match ns with
  | [] => Some []
  | n :: ns' =>
      match rand.Rand_Intn r n with
      | Some (v, r') => option_map (cons v) (Intn_draws r' ns')
      | None => None
      end
  end.

(** The embedding of [math/rand] gives the values the library is known
    for: [Intn(100)] from seed 1 starts 81, 87, 47, 59, 81, 18, 25, 40,
    56, 0; from seed 42 it starts 5, 87, 68, the first [Int63] is
    3440579354231278675 and the first [Float64] is 0.3730283610466326. *)
Lemma rand_known_draws :
  length rand.rngCooked = 607%nat
  /\ Intn_draws (rand.NewSource 1) (repeat 100 10)
     = Some [81; 87; 47; 59; 81; 18; 25; 40; 56; 0]
  /\ Intn_draws (rand.NewSource 42) [100; 100; 100] = Some [5; 87; 68]
  /\ fst (rand.Rand_Int63 (rand.NewSource 42)) = 3440579354231278675
  /\ option_map fst (rand.Rand_Float64 (rand.NewSource 42))
     = Some 0.3730283610466326%float.
Proof. vm_compute. repeat split. Qed.

(** The draws of a reservoir of capacity 1 with seed 42: for the second,
    third and fourth value [Int63n] is asked with the bounds 2, 3 and 4
    and answers 1, 1 and 0; asked first with the bound 4 it answers 3.
    No value is rejected on the way. *)
Lemma rand_seed_42_Int63n :
  Int63n_draws (rand.NewSource 42) [2; 3; 4] = Some [1; 1; 0]
  /\ Int63n_draws (rand.NewSource 42) [4] = Some [3].
Proof. vm_compute. split; reflexivity. Qed.

(** C6, the claim as stated fails once the generator has been drawn from.
    With the generator of [math/rand], a reservoir of capacity 1 fed 10,
    20 and 30 holds 10 with count 3 (the draws with the bounds 2 and 3
    are both 1).  Fed 40, its third draw, with the bound 4, is 0, and it
    holds 40.  Exported and imported first, its generator starts again:
    the first draw is taken with the bound 4 and is 3, and it holds
    10. *)
Lemma export_import_restarts_generator :
  match @fed GoRand.source 1 [10; 20; 30]%float with
  | Some r =>
      whale.samples r = [10]%float
      /\ whale.count r = 3
      /\ option_map whale.samples (whale.Reservoir_AddAll r [40]%float)
         = Some [40]%float
      /\ option_map whale.samples
           (whale.Reservoir_AddAll (export_import r) [40]%float)
         = Some [10]%float
  | None => False
  end.
Proof. vm_compute. repeat split. Qed.

(** C6 at the reservoir of capacity 2 fed 10 and 20, continued with 30,
    40 and 50. *)
Lemma export_import_continues_demo :
  export_import (@whale.mkReservoir LCG.source [10; 20]%float 2 2 (NewSource 42))
  = whale.mkReservoir [10; 20]%float 2 2 (NewSource 42)
  /\ whale.Reservoir_AddAll
       (export_import (@whale.mkReservoir LCG.source [10; 20]%float 2 2 (NewSource 42)))
       [30; 40; 50]%float
     = whale.Reservoir_AddAll
         (@whale.mkReservoir LCG.source [10; 20]%float 2 2 (NewSource 42))
         [30; 40; 50]%float.
Proof.
  apply (@export_import_continues LCG.source 2 [10; 20]%float).
  - reflexivity.
  - vm_compute. discriminate.
Defined.

(* ===================================================================== *)
(** * Bar files: [serializeBar] and [deserializeBar] *)
(* ===================================================================== *)

(** The bar with its three running sums set to zero, every other field
    kept. *)
Definition clear_accumulators (bar : aggregator.HourlyBar)
  : aggregator.HourlyBar :=
  {| aggregator.BuyVol := aggregator.BuyVol bar;
     aggregator.SellVol := aggregator.SellVol bar;
     aggregator.NTrades := aggregator.NTrades bar;
     aggregator.BuyCount := aggregator.BuyCount bar;
     aggregator.SellCount := aggregator.SellCount bar;
     aggregator.WhaleBuyVolP99 := aggregator.WhaleBuyVolP99 bar;
     aggregator.WhaleSellVolP99 := aggregator.WhaleSellVolP99 bar;
     aggregator.WhaleBuyCountP99 := aggregator.WhaleBuyCountP99 bar;
     aggregator.WhaleSellCountP99 := aggregator.WhaleSellCountP99 bar;
     aggregator.WhaleBuyVolP999 := aggregator.WhaleBuyVolP999 bar;
     aggregator.WhaleSellVolP999 := aggregator.WhaleSellVolP999 bar;
     aggregator.WhaleBuyCountP999 := aggregator.WhaleBuyCountP999 bar;
     aggregator.WhaleSellCountP999 := aggregator.WhaleSellCountP999 bar;
     aggregator.VolFirst30Min := aggregator.VolFirst30Min bar;
     aggregator.VolLast30Min := aggregator.VolLast30Min bar;
     aggregator.BuyVolUSD := aggregator.BuyVolUSD bar;
     aggregator.SellVolUSD := aggregator.SellVolUSD bar;
     aggregator.MaxTradeSize := aggregator.MaxTradeSize bar;
     aggregator.VWAP := aggregator.VWAP bar;
     aggregator.PriceStd := aggregator.PriceStd bar;
     aggregator.sumPriceQty := 0;
     aggregator.sumQty := 0;
     aggregator.sumPriceSqQty := 0 |}.

(** [t.Equal(u)]: the same instant, whatever the two locations. *)
Definition Time_Equal (t u : Time) : Prop :=
  unix_sec t = unix_sec u /\ nsec t = nsec u.

(** A time that [time.Unix(sec, 0).UTC()] can produce. *)
Definition whole_second_UTC (t : Time) : Prop :=
  nsec t = 0 /\ loc t = UTC.

Lemma Time_of_Unix_Unix (t : Time) :
  whole_second_UTC t -> Time_of_Unix (Time_Unix t) = t.
Proof.
  destruct t as [s n l]. unfold whole_second_UTC. simpl.
  intros [-> ->]. reflexivity.
Qed.

(** A bar of one trade, finalized: its running sums are not zero. *)
Definition one_trade_bar : aggregator.HourlyResult :=
  aggregator.mkHourlyResult (Time_of_Unix 1700000000)
    (aggregator.HourlyBar_Finalize
       (aggregator.HourlyBar_AddTrade aggregator.NewHourlyBar
          (aggregator.mkTradeArgs 100 2 true 5 true false))).

(** ** The times of the bars that are serialized

    The aggregator keys its bars by [Trade.Hour()], the time of the trade
    truncated to the hour: a whole second, in the location of the trade
    time, which for [time.UnixMilli] and [time.UnixMicro] is [Local].
    [Flush] and [GetBarsForMonth] hand these keys on as the times of the
    results. *)

Section BarTimes.
Context {RS : RandSource} {CK : Clock}.
Import aggregator.

Definition whole_hours (a : Aggregator) : Prop :=
  (forall hour bar, pendingBars a !! hour = Some bar -> nsec hour = 0)
  /\ Forall (fun hr => nsec (hr_Time hr) = 0) (finalizedBars a).

Lemma whole_hours_new (windowDays samplesPerDay : Z) :
  whole_hours (NewAggregator windowDays samplesPerDay).
Proof.
  split; simpl; [|constructor].
  intros hour bar H. rewrite lookup_empty in H. discriminate.
Qed.

Lemma classify_step_whole_hours (a a' : Aggregator) (trade : parser.Trade) :
  whole_hours a -> classify_step (Some a) trade = Some a' -> whole_hours a'.
Proof.
  intros [Hp Hf] Hs. unfold classify_step in Hs.
  destruct (whale.Detector_Classify (detector a) trade) as [[c d]|];
    [|discriminate].
  inversion Hs; subst a'. split; simpl; [|exact Hf].
  intros hour bar Hb.
  destruct (decide (parser.Trade_Hour trade = hour)) as [<- | ne].
  - reflexivity.
  - rewrite lookup_insert_ne in Hb by exact ne. apply (Hp _ _ Hb).
Qed.

Lemma second_pass_whole_hours (trades : list parser.Trade) :
  forall a a',
    whole_hours a ->
    fold_left classify_step trades (Some a) = Some a' ->
    whole_hours a'.
Proof.
  induction trades as [|t l IH]; intros a a' Hw H.
  - simpl in H. inversion H; subst. exact Hw.
  - change (fold_left classify_step (t :: l) (Some a))
      with (fold_left classify_step l (classify_step (Some a) t)) in H.
    destruct (classify_step (Some a) t) as [a1|] eqn:Hs;
      [|rewrite fold_classify_step_None in H; discriminate].
    apply (IH a1 a'); [|exact H].
    eapply classify_step_whole_hours; eauto.
Qed.

Lemma ProcessTrades_whole_hours (a a' : Aggregator)
    (trades : list parser.Trade) :
  whole_hours a -> ProcessTrades a trades = Some a' -> whole_hours a'.
Proof.
  intros Hw Hp. unfold ProcessTrades in Hp.
  destruct (Go.len trades =? 0); [inversion Hp; subst; exact Hw|].
  fold (first_pass a trades) in Hp.
  destruct (first_pass a trades) as [a1|] eqn:H1;
    [|rewrite fold_classify_step_None in Hp; discriminate].
  destruct (first_pass_spec trades a a1 H1) as (Hpb & Hfb & _).
  apply (second_pass_whole_hours trades a1 a'); [|exact Hp].
  destruct Hw as [Hw1 Hw2].
  split; [rewrite Hpb; exact Hw1|rewrite Hfb; exact Hw2].
Qed.

Lemma Flush_whole_hours (a : Aggregator) :
  whole_hours a -> whole_hours (Flush a).
Proof.
  intros [Hp Hf]. split; simpl.
  - intros hour bar Hb. rewrite lookup_empty in Hb. discriminate.
  - apply Forall_app. split; [exact Hf|].
    rewrite List.Forall_forall. intros hr Hin. unfold sort_by_time in Hin.
    apply In_sort_by, in_map_iff in Hin.
    destruct Hin as ([hour bar] & <- & Hin). simpl.
    apply list_elem_of_In, elem_of_map_to_list in Hin. apply (Hp _ _ Hin).
Qed.

Lemma GetBarsForMonth_whole_hours (a : Aggregator) (month : string) :
  whole_hours a ->
  Forall (fun hr => nsec (hr_Time hr) = 0) (GetBarsForMonth a month).1
  /\ whole_hours (GetBarsForMonth a month).2.
Proof.
  intros [Hp Hf]. unfold GetBarsForMonth. simpl. split; [|split; simpl].
  - rewrite List.Forall_forall. intros hr Hin. unfold sort_by_time in Hin.
    apply In_sort_by, in_app_or in Hin. destruct Hin as [Hin|Hin].
    + apply list_elem_of_In, list_elem_of_filter in Hin.
      destruct Hin as [_ Hin].
      rewrite List.Forall_forall in Hf. apply Hf, list_elem_of_In, Hin.
    + apply in_map_iff in Hin. destruct Hin as ([hour bar] & <- & Hin). simpl.
      apply list_elem_of_In, elem_of_map_to_list, map_lookup_filter_Some in Hin.
      destruct Hin as [Hin _]. apply (Hp _ _ Hin).
  - intros hour bar Hb. apply map_lookup_filter_Some in Hb.
    destruct Hb as [Hb _]. apply (Hp _ _ Hb).
  - rewrite List.Forall_forall in Hf |- *. intros hr Hin.
    apply list_elem_of_In, list_elem_of_filter in Hin.
    destruct Hin as [_ Hin]. apply Hf, list_elem_of_In, Hin.
Qed.

Lemma run_whole_hours (ops : list Op) :
  forall a a', whole_hours a -> run a ops = Some a' -> whole_hours a'.
Proof.
  induction ops as [|op ops IH]; intros a a' Hw Hrun.
  - simpl in Hrun. inversion Hrun; subst. exact Hw.
  - cbn [run] in Hrun.
    destruct (step a op) as [a1|] eqn:Hs; [|discriminate].
    apply (IH a1 a'); [|exact Hrun].
    destruct op as [trades| |month]; cbn [step] in Hs.
    + eapply ProcessTrades_whole_hours; eauto.
    + inversion Hs; subst a1. apply Flush_whole_hours, Hw.
    + inversion Hs; subst a1. apply GetBarsForMonth_whole_hours, Hw.
Qed.

(** Every bar that [GetBarsForMonth] hands to [SaveMonthBars], after any
    run of the aggregator, has a time of whole seconds. *)
Lemma GetBarsForMonth_whole_seconds (windowDays samplesPerDay : Z)
    (ops : list Op) (a : Aggregator) (month : string) (b : HourlyResult) :
  run (NewAggregator windowDays samplesPerDay) ops = Some a ->
  In b (GetBarsForMonth a month).1 ->
  nsec (hr_Time b) = 0.
Proof.
  intros Hrun Hin.
  pose proof (run_whole_hours ops _ _
                (whole_hours_new windowDays samplesPerDay) Hrun) as Hw.
  destruct (GetBarsForMonth_whole_hours a month Hw) as [H _].
  rewrite List.Forall_forall in H. apply H, Hin.
Qed.

End BarTimes.

(** C10: for a result [b] whose time is a whole second,
    [deserializeBar (serializeBar b)] has a time that is the same instant
    as the time of [b], in the location UTC, and a bar whose twenty
    serialized fields are those of [b]; the three running sums (price
    times quantity, quantity, squared price times quantity) are zero in
    the result whatever they were in [b].  When the time of [b] is in UTC,
    it is reproduced as it is. *)
Theorem deserializeBar_serializeBar (b : aggregator.HourlyResult) :
  nsec (aggregator.hr_Time b) = 0 ->
  Time_Equal
    (aggregator.hr_Time (state.deserializeBar (state.serializeBar b)))
    (aggregator.hr_Time b)
  /\ loc (aggregator.hr_Time (state.deserializeBar (state.serializeBar b)))
     = UTC
  /\ (loc (aggregator.hr_Time b) = UTC ->
      state.deserializeBar (state.serializeBar b)
      = aggregator.mkHourlyResult (aggregator.hr_Time b)
          (clear_accumulators (aggregator.hr_Bar b)))
  /\ aggregator.hr_Bar (state.deserializeBar (state.serializeBar b))
     = clear_accumulators (aggregator.hr_Bar b)
  /\ state.serializeBar (state.deserializeBar (state.serializeBar b))
     = state.serializeBar b.
Proof.
  intros Ht. unfold state.deserializeBar, state.serializeBar. cbn.
  split; [split; [reflexivity|symmetry; exact Ht]|].
  split; [reflexivity|]. split; [|split; reflexivity].
  intros Hl. rewrite (Time_of_Unix_Unix _ (conj Ht Hl)). reflexivity.
Qed.

(** The bars of January 2020 that [GetBarsForMonth] returns after the run
    [demo_ops], and the first of them. *)
Definition demo_month_bars : list aggregator.HourlyResult :=
  (@aggregator.GetBarsForMonth LCG.source UTCClock.clock
     demo_aggregator "2020-01").1.

Definition demo_bar : aggregator.HourlyResult :=
  hd one_trade_bar demo_month_bars.

(** C10 at a bar that the aggregator returns for a month: its time is the
    hour of a trade in local time, 2020-01-01 00:00:00 UTC; the round
    trip gives the same instant in UTC and the serialized fields, and the
    running sum of the quantities, 0.5 in the bar, comes back as 0. *)
Lemma deserializeBar_serializeBar_demo :
  (In demo_bar demo_month_bars
   /\ aggregator.hr_Time demo_bar
      = parser.Trade_Hour
          (parser.RawTrade_ToTrade
             (parser.mkRawTrade 1 30000 0.5 1 1 1577836800000 false))
   /\ loc (aggregator.hr_Time demo_bar) = Local
   /\ aggregator.sumQty (aggregator.hr_Bar demo_bar) = 0.5%float
   /\ aggregator.sumQty
        (aggregator.hr_Bar
           (state.deserializeBar (state.serializeBar demo_bar)))
      = 0%float)
  /\ Time_Equal
       (aggregator.hr_Time
          (state.deserializeBar (state.serializeBar demo_bar)))
       (aggregator.hr_Time demo_bar)
  /\ loc (aggregator.hr_Time
            (state.deserializeBar (state.serializeBar demo_bar)))
     = UTC
  /\ (loc (aggregator.hr_Time demo_bar) = UTC ->
      state.deserializeBar (state.serializeBar demo_bar)
      = aggregator.mkHourlyResult (aggregator.hr_Time demo_bar)
          (clear_accumulators (aggregator.hr_Bar demo_bar)))
  /\ aggregator.hr_Bar (state.deserializeBar (state.serializeBar demo_bar))
     = clear_accumulators (aggregator.hr_Bar demo_bar)
  /\ state.serializeBar (state.deserializeBar (state.serializeBar demo_bar))
     = state.serializeBar demo_bar.
Proof.
  split.
  - vm_compute. repeat split. left. reflexivity.
  - apply (deserializeBar_serializeBar demo_bar). vm_compute. reflexivity.
Defined.

(* ===================================================================== *)
(** * The percentile of a sorted slice *)
(* ===================================================================== *)

(** ** The interpolation formula, as the specification words it *)

(** The floor of a finite float64; [None] for NaN and the infinities. *)
Definition floor_float64 (x : float) : option Z :=
  match Prim2SF x with
  | S754_zero _ => Some 0
  | S754_finite s m e =>
      let z := if s then Z.neg m else Z.pos m in
      Some (if 0 <=? e then z * 2 ^ e else z / 2 ^ (- e))
  | _ => None
  end.

(** [S[i]] for an integer index; [None] outside the slice. *)
Definition index {A : Type} (S : list A) (i : Z) : option A :=
  if i <? 0 then None else S !! Z.to_nat i.

(** [rank = p/100 * (n-1)], [lower = floor(rank)]; [S[n-1]] when
    [lower + 1 >= n], and otherwise
    [S[lower] + (rank - lower) * (S[lower+1] - S[lower])], in float64
    arithmetic and with unbounded integers. *)
Definition percentile_rank (S : list float) (p : float) : float :=
  (p / 100 * Go.float64_of_int (Go.len S - 1))%float.

Definition percentile_interpolated (S : list float) (p : float)
  : option float :=
  let n := Go.len S in
  let rank := percentile_rank S p in
  match floor_float64 rank with
  | None => None
  | Some lower =>
      if n <=? lower + 1 then index S (n - 1)
      else
        match index S lower, index S (lower + 1) with
        | Some a, Some b =>
            Some (a + (rank - Go.float64_of_int lower) * (b - a))%float
        | _, _ => None
        end
  end.

(** 2^63 as a float64. *)
Definition two_63 : float := 0x1p63%float.

(** ** Facts on float64 values *)

Lemma digits2_pos_bound (m : positive) :
  Z.pos m < 2 ^ Z.pos (digits2_pos m).
Proof.
  induction m as [m IH|m IH|]; simpl digits2_pos.
  - rewrite Pos2Z.inj_succ, Z.pow_succ_r by lia. lia.
  - rewrite Pos2Z.inj_succ, Z.pow_succ_r by lia. lia.
  - reflexivity.
Qed.

Lemma valid_mantissa_bound (s : bool) (m : positive) (e : Z) :
  valid_binary (S754_finite s m e) = true -> Z.pos m < 2 ^ 53.
Proof.
  unfold valid_binary, bounded, canonical_mantissa, fexp, emin.
  intros H. apply andb_true_iff in H. destruct H as [H _].
  apply Z.eqb_eq in H. pose proof (digits2_pos_bound m) as Hd.
  assert (Hle : Z.pos (digits2_pos m) <= 53).
  { change prec with 53 in H. change emax with 1024 in H. lia. }
  eapply Z.lt_le_trans; [exact Hd|].
  apply Z.pow_le_mono_r; lia.
Qed.

Lemma float64_nonneg_sign (x : float) (s : bool) (m : positive) (e : Z) :
  (0 <=? x)%float = true -> Prim2SF x = S754_finite s m e -> s = false.
Proof.
  rewrite leb_spec. intros H E. rewrite E in H.
  change (Prim2SF 0) with (S754_zero false) in H.
  destruct s; [discriminate|reflexivity].
Qed.

Lemma float64_below_two_63 (x : float) (m : positive) (e : Z) :
  (x <? two_63)%float = true -> Prim2SF x = S754_finite false m e ->
  e < 11 \/ (e = 11 /\ Z.pos m < 2 ^ 52).
Proof.
  rewrite ltb_spec. intros H E. rewrite E in H.
  change (Prim2SF two_63) with (S754_finite false 4503599627370496 11) in H.
  unfold SFltb, SFcompare in H.
  destruct (Z.compare_spec e 11) as [He|He|He].
  - right. split; [exact He|].
    change (Pos.compare_cont Eq) with Pos.compare in H.
    destruct (Pos.compare_spec m 4503599627370496) as [Hm|Hm|Hm];
      try discriminate.
    change (2 ^ 52) with (Z.pos 4503599627370496). exact Hm.
  - left. exact He.
  - discriminate.
Qed.

(** For a float64 [x] with [0 <= x < 2^63], [int(x)] is defined, is the
    floor of [x], and [int(x) + 1] does not overflow. *)
Lemma int_of_float64_floor (x : float) :
  (0 <=? x)%float = true -> (x <? two_63)%float = true ->
  exists lower,
    Go.int_of_float64 x = Some lower
    /\ floor_float64 x = Some lower
    /\ 0 <= lower /\ lower + 1 < 2 ^ 63.
Proof.
  intros H0 H1. unfold Go.int_of_float64, floor_float64.
  pose proof (Prim2SF_valid x) as Hv.
  destruct (Prim2SF x) as [s|s| |s m e] eqn:E.
  - exists 0. repeat split; lia.
  - rewrite leb_spec, E in H0. rewrite ltb_spec, E in H1.
    destruct s; discriminate.
  - rewrite leb_spec, E in H0. discriminate.
  - pose proof (float64_nonneg_sign x s m e H0 E) as ->.
    pose proof (valid_mantissa_bound _ _ _ Hv) as Hm.
    pose proof (float64_below_two_63 x m e H1 E) as He.
    cbv zeta.
    set (q := if 0 <=? e then Z.pos m * 2 ^ e else Z.pos m / 2 ^ (- e)).
    assert (Hq : 0 <= q /\ q + 1 < 2 ^ 63).
    { subst q. destruct (0 <=? e) eqn:Hs.
      - apply Z.leb_le in Hs. split; [apply Z.mul_nonneg_nonneg; lia|].
        destruct (Z.eq_dec e 0) as [-> | Hne].
        + rewrite Z.pow_0_r, Z.mul_1_r.
          assert (2 ^ 53 < 2 ^ 63) by (apply Z.pow_lt_mono_r; lia). lia.
        + assert (Hlt : Z.pos m * 2 ^ e < 2 ^ 63).
          { destruct He as [He|[-> Hm52]].
            - assert (2 ^ e <= 2 ^ 10) by (apply Z.pow_le_mono_r; lia).
              change (2 ^ 63) with (2 ^ 53 * 2 ^ 10).
              assert (0 < 2 ^ e) by (apply Z.pow_pos_nonneg; lia). nia.
            - change (2 ^ 63) with (2 ^ 52 * 2 ^ 11). nia. }
          assert (Hev : Z.pos m * 2 ^ e = 2 * (Z.pos m * 2 ^ (e - 1))).
          { replace e with (Z.succ (e - 1)) at 1 by lia.
            rewrite Z.pow_succ_r by lia. ring. }
          change (2 ^ 63) with (2 * 2 ^ 62) in *. lia.
      - apply Z.leb_gt in Hs.
        assert (Hp : 0 < 2 ^ (- e)) by (apply Z.pow_pos_nonneg; lia).
        split; [apply Z.div_pos; lia|].
        assert (Z.pos m / 2 ^ (- e) <= Z.pos m)
          by (apply Z.div_le_upper_bound; nia).
        assert (2 ^ 53 < 2 ^ 63) by (apply Z.pow_lt_mono_r; lia). lia. }
    exists q. destruct Hq as [Hq0 Hq1].
    assert (Hr : (- 2 ^ 63 <=? q) && (q <? 2 ^ 63) = true).
    { apply andb_true_iff. split; [apply Z.leb_le|apply Z.ltb_lt]; lia. }
    rewrite Hr. repeat split; assumption.
Qed.

(** ** [percentile] is the interpolation formula *)

Lemma index_nonneg {A : Type} (S : list A) (i : Z) :
  0 <= i -> index S i = S !! Z.to_nat i.
Proof.
  intros Hi. unfold index.
  destruct (i <? 0) eqn:E; [apply Z.ltb_lt in E; lia|reflexivity].
Qed.

Lemma index_is_Some {A : Type} (S : list A) (i : Z) :
  0 <= i < Go.len S -> is_Some (S !! Z.to_nat i).
Proof.
  unfold Go.len. intros Hi. apply lookup_lt_is_Some. lia.
Qed.

(** C7: on a slice [S] that is not empty, and for a rank
    [p/100 * (n-1)] (computed in float64) with [0 <= rank < 2^63],
    [percentile] returns a value, and it is the one of the interpolation
    formula: [S[n-1]] when [floor(rank) + 1 >= n] and otherwise
    [S[lower] + (rank - lower) * (S[lower+1] - S[lower])] with
    [lower = floor(rank)].  On [1, 2, 3, 4] the percentiles 50, 100 and 0
    are 2.5, 4 and 1. *)
Theorem percentile_linear_interpolation :
  (forall (S : list float) (p : float),
      S <> [] ->
      (0 <=? percentile_rank S p)%float = true ->
      (percentile_rank S p <? two_63)%float = true ->
      whale.percentile S p = percentile_interpolated S p
      /\ is_Some (whale.percentile S p))
  /\ whale.percentile [1; 2; 3; 4]%float 50 = Some 2.5%float
  /\ whale.percentile [1; 2; 3; 4]%float 100 = Some 4%float
  /\ whale.percentile [1; 2; 3; 4]%float 0 = Some 1%float.
Proof.
  split; [|repeat split; vm_compute; reflexivity].
  intros S p HS H0 H1.
  assert (Hn : 1 <= Go.len S).
  { unfold Go.len. destruct S; [congruence|simpl; lia]. }
  destruct (int_of_float64_floor _ H0 H1) as (lower & Hi & Hf & Hl0 & Hl1).
  unfold whale.percentile, percentile_interpolated.
  fold (percentile_rank S p). rewrite Hi, Hf. cbv zeta.
  destruct (Go.len S =? 0) eqn:E0; [apply Z.eqb_eq in E0; lia|].
  assert (Hu : Go.int64_add lower 1 = lower + 1).
  { unfold Go.int64_add. apply int64_wrap_small. unfold Go.in_int64. lia. }
  rewrite Hu.
  destruct (Go.len S <=? lower + 1) eqn:E1.
  - rewrite index_nonneg by lia. split; [reflexivity|].
    apply index_is_Some. lia.
  - apply Z.leb_gt in E1.
    assert (E2 : (lower <? 0) || (lower + 1 <? 0) = false).
    { apply orb_false_iff. split; apply Z.ltb_ge; lia. }
    rewrite E2, !index_nonneg by lia.
    destruct (index_is_Some S lower ltac:(lia)) as [a Ha].
    destruct (index_is_Some S (lower + 1) ltac:(lia)) as [b Hb].
    rewrite Ha, Hb. split; [reflexivity|eexists; reflexivity].
Qed.

(** C7 at [1, 2, 3, 4] and the percentile 50: the rank is 1.5, between
    the values 2 and 3. *)
Lemma percentile_linear_interpolation_demo :
  whale.percentile [1; 2; 3; 4]%float 50
  = percentile_interpolated [1; 2; 3; 4]%float 50
  /\ is_Some (whale.percentile [1; 2; 3; 4]%float 50).
Proof.
  apply (proj1 percentile_linear_interpolation [1; 2; 3; 4]%float 50%float).
  - discriminate.
  - vm_compute. reflexivity.
  - vm_compute. reflexivity.
Defined.

(* ===================================================================== *)
(** * Further properties of the packages *)
(* ===================================================================== *)

(** ** Trades *)



(** ** Reservoirs: what the sample holds *)

Section ReservoirContents.
Context {RS : RandSource}.

Import whale.

Lemma Reservoir_AddAll_append (vs : list float) :
  forall r : Reservoir,
    Go.len (samples r) + Go.len vs <= capacity r ->
    Go.in_int64 (count r) -> count r + Go.len vs < 2 ^ 63 ->
    Reservoir_AddAll r vs
    = Some (mkReservoir (samples r ++ vs) (capacity r)
              (count r + Go.len vs) (rsv_rng r)).
Proof.
  unfold Go.len, Go.in_int64.
  induction vs as [|v vs IH]; intros r Hroom Hc Hc'.
  - simpl. rewrite app_nil_r, Z.add_0_r. destruct r; reflexivity.
  - simpl in *. unfold Reservoir_Add, Go.len.
    assert (Hlt : (Z.of_nat (length (samples r)) <? capacity r) = true)
      by (apply Z.ltb_lt; lia).
    rewrite Hlt.
    assert (Ha : Go.int64_add (count r) 1 = count r + 1).
    { unfold Go.int64_add. apply int64_wrap_small. unfold Go.in_int64. lia. }
    rewrite Ha, IH; simpl; rewrite ?length_app; simpl; try lia.
    rewrite <- app_assoc. simpl. do 2 f_equal. lia.
Qed.

(** While the sample has room, [Add] keeps every value, in the order of
    arrival, and does not draw from the generator: a reservoir with [n]
    samples and room for [m] more holds, after [m] values, the old samples
    followed by these values. *)
Theorem Reservoir_AddAll_fills (vs : list float) :
  forall r : Reservoir,
    Go.len (samples r) + Go.len vs <= capacity r ->
    Go.in_int64 (count r) -> count r + Go.len vs < 2 ^ 63 ->
    Reservoir_AddAll r vs
    = Some (mkReservoir (samples r ++ vs) (capacity r)
              (count r + Go.len vs) (rsv_rng r)).
Proof. exact (Reservoir_AddAll_append vs). Qed.


(** [Reset] empties the reservoir and keeps its capacity: the next values,
    up to the capacity, are all kept. *)
Theorem Reservoir_Reset_refill (r : Reservoir) (vs : list float) :
  Go.len vs <= capacity r -> Go.len vs < 2 ^ 63 ->
  Reservoir_AddAll (Reservoir_Reset r) vs
  = Some (mkReservoir vs (capacity r) (Go.len vs) (rsv_rng r)).
Proof.
  intros H1 H2.
  rewrite Reservoir_AddAll_append; unfold Reservoir_Reset, Go.in_int64, Go.len in *;
    simpl; try lia.
  reflexivity.
Qed.


Lemma elem_of_insert_cases {A : Type} (l : list A) (i : nat) (v x : A) :
  x ∈ <[i := v]> l -> x = v \/ x ∈ l.
Proof.
  intros Hx. apply list_elem_of_lookup in Hx. destruct Hx as [j Hj].
  destruct (decide (i = j)) as [->|Hne].
  - destruct (decide (j < length l)%nat) as [Hlt|Hge].
    + rewrite list_lookup_insert_eq in Hj by exact Hlt.
      inversion Hj. left. reflexivity.
    + rewrite list_insert_ge in Hj by lia.
      right. apply list_elem_of_lookup. eauto.
  - rewrite list_lookup_insert_ne in Hj by exact Hne.
    right. apply list_elem_of_lookup. eauto.
Qed.

Lemma Reservoir_Add_contents (r r' : Reservoir) (v x : float) :
  Reservoir_Add r v = Some r' ->
  capacity r' = capacity r /\ (x ∈ samples r' -> x = v \/ x ∈ samples r).
Proof.
  unfold Reservoir_Add. intros H.
  destruct (Go.len (samples r) <? capacity r).
  - inversion H; subst; simpl. split; [reflexivity|].
    intros Hx. apply elem_of_app in Hx. destruct Hx as [Hx|Hx]; [tauto|].
    apply list_elem_of_singleton in Hx. tauto.
  - destruct (Go.int64_add (count r) 1 <=? 0); [discriminate|].
    destruct (Int63n (rsv_rng r) (Go.int64_add (count r) 1)) as [j g].
    destruct (j <? capacity r); inversion H; subst; simpl;
      (split; [reflexivity|]).
    + apply elem_of_insert_cases.
    + tauto.
Qed.

(** A reservoir never invents a value and never changes its capacity:
    after any sequence of [Add], every sample is an old sample or one of
    the values added. *)
Theorem Reservoir_AddAll_contents (vs : list float) :
  forall (r r' : Reservoir),
    Reservoir_AddAll r vs = Some r' ->
    capacity r' = capacity r
    /\ (forall x, x ∈ samples r' -> x ∈ samples r \/ x ∈ vs).
Proof.
  induction vs as [|v vs IH]; intros r r' H; simpl in H.
  - inversion H; subst. split; [reflexivity|]. tauto.
  - destruct (Reservoir_Add r v) as [r1|] eqn:Ha; [|discriminate].
    destruct (IH _ _ H) as [Hc Hx].
    pose proof (fun x => Reservoir_Add_contents r r1 v x Ha) as H1.
    split; [rewrite Hc; apply (H1 v)|].
    intros x Hin. destruct (Hx x Hin) as [Hin1|Hin1].
    + destruct (proj2 (H1 x) Hin1) as [->|Hin2].
      * right. apply list_elem_of_here.
      * left. exact Hin2.
    + right. apply list_elem_of_further. exact Hin1.
Qed.


Lemma merge_loop_contents (p : float) (vs : list float) :
  forall (r r' : Reservoir),
    fold_left (merge_step p) vs (Some r) = Some r' ->
    capacity r' = capacity r
    /\ (forall x, x ∈ samples r' -> x ∈ samples r \/ x ∈ vs).
Proof.
  induction vs as [|v vs IH]; intros r r' H; cbn [fold_left] in H.
  - inversion H; subst. split; [reflexivity|]. tauto.
  - destruct (merge_step p (Some r) v) as [r1|] eqn:Hs.
    2:{ exfalso. clear -H. induction vs as [|w ws IHw]; cbn [fold_left] in H;
          [discriminate|auto]. }
    destruct (IH _ _ H) as [Hc Hx].
    assert (H1 : capacity r1 = capacity r
                 /\ forall x, x ∈ samples r1 -> x = v \/ x ∈ samples r).
    { unfold merge_step in Hs.
      destruct (Float64 (rsv_rng r)) as [u g].
      destruct (u <? p)%float.
      - destruct (Go.len (samples r) <? capacity r).
        + inversion Hs; subst; simpl. split; [reflexivity|].
          intros x Hin. apply elem_of_app in Hin.
          destruct Hin as [Hin|Hin]; [tauto|].
          apply list_elem_of_singleton in Hin. tauto.
        + destruct (capacity r <=? 0); [discriminate|].
          destruct (Intn g (capacity r)) as [j g'].
          inversion Hs; subst; simpl. split; [reflexivity|].
          intros x. apply elem_of_insert_cases.
      - inversion Hs; subst; simpl. split; [reflexivity|]. tauto. }
    destruct H1 as [Hc1 Hx1].
    split; [congruence|].
    intros x Hin. destruct (Hx x Hin) as [Hin1|Hin1].
    + destruct (Hx1 x Hin1) as [->|Hin2].
      * right. apply list_elem_of_here.
      * left. exact Hin2.
    + right. apply list_elem_of_further. exact Hin1.
Qed.

(** [Merge] keeps the capacity, and every sample of the result is a sample
    of one of the two reservoirs; merging a reservoir that holds no sample
    changes nothing, not even the count. *)
Theorem Reservoir_Merge_contents (r other r' : Reservoir) :
  Reservoir_Merge r other = Some r' ->
  capacity r' = capacity r
  /\ (forall x, x ∈ samples r' -> x ∈ samples r \/ x ∈ samples other)
  /\ (samples other = [] -> r' = r).
Proof.
  unfold Reservoir_Merge, Reservoir_Size, Reservoir_Samples. intros H.
  destruct (Go.len (samples other) =? 0) eqn:E.
  - inversion H; subst. repeat split; tauto.
  - destruct (fold_left _ _ _) as [r1|] eqn:Hf; [|discriminate].
    apply merge_loop_contents in Hf. destruct Hf as [Hc Hx].
    inversion H; subst; simpl. split; [exact Hc|]. split; [exact Hx|].
    intros Hnil. rewrite Hnil in E. discriminate.
Qed.


End ReservoirContents.

(** A reservoir of capacity 3 with the generator [LCG]. *)
Definition lcg_reservoir (s : list float) (c : Z) : @whale.Reservoir LCG.source :=
  whale.mkReservoir s 3 c (NewSource 42).

Lemma Reservoir_AddAll_fills_demo :
  whale.Reservoir_AddAll (lcg_reservoir [1]%float 1) [2; 3]%float
  = Some (whale.mkReservoir
            (whale.samples (lcg_reservoir [1]%float 1) ++ [2; 3]%float)
            (whale.capacity (lcg_reservoir [1]%float 1))
            (whale.count (lcg_reservoir [1]%float 1) + Go.len [2; 3]%float)
            (whale.rsv_rng (lcg_reservoir [1]%float 1))).
Proof.
  apply (Reservoir_AddAll_fills [2; 3]%float (lcg_reservoir [1]%float 1));
    unfold Go.in_int64, Go.len; simpl; lia.
Defined.

Lemma Reservoir_Reset_refill_demo :
  whale.Reservoir_AddAll
    (whale.Reservoir_Reset (lcg_reservoir [7; 8; 9]%float 9)) [1; 2]%float
  = Some (whale.mkReservoir [1; 2]%float
            (whale.capacity (lcg_reservoir [7; 8; 9]%float 9))
            (Go.len [1; 2]%float)
            (whale.rsv_rng (lcg_reservoir [7; 8; 9]%float 9))).
Proof.
  apply (Reservoir_Reset_refill (lcg_reservoir [7; 8; 9]%float 9));
    unfold Go.len; simpl; lia.
Defined.

Lemma Reservoir_AddAll_contents_demo :
  whale.capacity (lcg_reservoir [1; 2; 3]%float 3)
  = whale.capacity (lcg_reservoir [1]%float 1)
  /\ (forall x, x ∈ whale.samples (lcg_reservoir [1; 2; 3]%float 3) ->
                x ∈ whale.samples (lcg_reservoir [1]%float 1)
                \/ x ∈ [2; 3]%float).
Proof.
  apply (Reservoir_AddAll_contents [2; 3]%float (lcg_reservoir [1]%float 1)).
  reflexivity.
Defined.

(** The result of merging [5, 6] (count 2) into [1] (count 1). *)
Definition lcg_merged : @whale.Reservoir LCG.source :=
  @whale.mkReservoir LCG.source [1; 5; 6]%float 3 3 4159066171780167020.

Lemma Reservoir_Merge_contents_demo :
  whale.capacity lcg_merged = whale.capacity (lcg_reservoir [1]%float 1)
  /\ (forall x, x ∈ whale.samples lcg_merged ->
                x ∈ whale.samples (lcg_reservoir [1]%float 1)
                \/ x ∈ whale.samples (lcg_reservoir [5; 6]%float 2))
  /\ (whale.samples (lcg_reservoir [5; 6]%float 2) = [] ->
      lcg_merged = lcg_reservoir [1]%float 1).
Proof.
  apply (Reservoir_Merge_contents (lcg_reservoir [1]%float 1)
           (lcg_reservoir [5; 6]%float 2)).
  reflexivity.
Defined.

(** ** The order of strings and sorted slices *)

Lemma string_lt_irrefl (a : string) : Go.string_lt a a = false.
Proof.
  unfold Go.string_lt, String.ltb.
  assert (E : String.compare a a = Eq)
    by (apply OrderedTypeEx.String_as_OT.cmp_eq; reflexivity).
  rewrite E. reflexivity.
Qed.

Lemma string_lt_compare (a b : string) :
  Go.string_lt a b = true <-> String.compare a b = Lt.
Proof.
  unfold Go.string_lt, String.ltb.
  destruct (String.compare a b); split; intros H; congruence.
Qed.

Lemma string_lt_trans (a b c : string) :
  Go.string_lt a b = true -> Go.string_lt b c = true ->
  Go.string_lt a c = true.
Proof.
  rewrite !string_lt_compare.
  change String.compare with OrderedTypeEx.String_as_OT.cmp.
  rewrite !OrderedTypeEx.String_as_OT.cmp_lt.
  apply OrderedTypeEx.String_as_OT.lt_trans.
Qed.

Lemma string_lt_asym (a b : string) :
  Go.string_lt a b = true -> Go.string_lt b a = false.
Proof.
  intros H. destruct (Go.string_lt b a) eqn:E; [|reflexivity].
  pose proof (string_lt_trans _ _ _ H E) as H1.
  rewrite string_lt_irrefl in H1. discriminate.
Qed.

Lemma string_lt_total (a b : string) :
  Go.string_lt a b = false -> Go.string_lt b a = false -> a = b.
Proof.
  unfold Go.string_lt, String.ltb. intros H1 H2.
  rewrite String.compare_antisym in H2.
  destruct (String.compare a b) eqn:E; simpl in *; try discriminate.
  apply String.compare_eq_iff. exact E.
Qed.

Lemma string_ge_lt (a b : string) :
  Go.string_ge a b = negb (Go.string_lt a b).
Proof. reflexivity. Qed.

(** [a <= b] follows from [a < b] or [a = b]; used below as
    [string_lt b a = false]. *)
Lemma string_le_lt_trans (a b c : string) :
  Go.string_lt b a = false -> Go.string_lt b c = true ->
  Go.string_lt a c = true.
Proof.
  intros H1 H2. destruct (Go.string_lt a b) eqn:E.
  - exact (string_lt_trans _ _ _ E H2).
  - rewrite (string_lt_total _ _ E H1). exact H2.
Qed.

Lemma string_lt_le_trans (a b c : string) :
  Go.string_lt a b = true -> Go.string_lt c b = false ->
  Go.string_lt a c = true.
Proof.
  intros H1 H2. destruct (Go.string_lt b c) eqn:E.
  - exact (string_lt_trans _ _ _ H1 E).
  - rewrite <- (string_lt_total _ _ E H2). exact H1.
Qed.

(** A slice of strings in strictly increasing order. *)
Definition increasing (l : list string) : Prop :=
  StronglySorted (fun a b => Go.string_lt a b = true) l.

Lemma increasing_nil : increasing [].
Proof. constructor. Qed.

Lemma increasing_inv (a : string) (l : list string) :
  increasing (a :: l) ->
  increasing l /\ (forall x, x ∈ l -> Go.string_lt a x = true).
Proof.
  intros H. inversion H as [|? ? Hs Hall]; subst. split; [exact Hs|].
  intros x Hx. rewrite List.Forall_forall in Hall.
  apply Hall, list_elem_of_In, Hx.
Qed.

Lemma increasing_cons (a : string) (l : list string) :
  increasing l -> (forall x, x ∈ l -> Go.string_lt a x = true) ->
  increasing (a :: l).
Proof.
  intros Hs Hall. constructor; [exact Hs|].
  apply List.Forall_forall. intros x Hx. apply Hall, list_elem_of_In, Hx.
Qed.

Lemma increasing_NoDup (l : list string) : increasing l -> NoDup l.
Proof.
  induction l as [|a l IH]; intros H; [constructor|].
  apply increasing_inv in H. destruct H as [Hs Hall].
  constructor; [|auto].
  intros Hin. specialize (Hall a Hin).
  rewrite string_lt_irrefl in Hall. discriminate.
Qed.

Lemma increasing_drop (n : nat) (l : list string) :
  increasing l -> increasing (drop n l).
Proof.
  revert l. induction n as [|n IH]; intros l H; [exact H|].
  destruct l as [|a l]; [exact H|]. simpl.
  apply IH. apply increasing_inv in H. tauto.
Qed.

(** Two increasing slices with the same elements are the same slice. *)
Lemma increasing_ext (l1 l2 : list string) :
  increasing l1 -> increasing l2 ->
  (forall x, x ∈ l1 <-> x ∈ l2) -> l1 = l2.
Proof.
  revert l2. induction l1 as [|a l1 IH]; intros l2 H1 H2 Hext.
  - destruct l2 as [|b l2]; [reflexivity|].
    exfalso. specialize (Hext b). rewrite elem_of_nil in Hext.
    apply Hext. apply list_elem_of_here.
  - destruct l2 as [|b l2].
    { exfalso. specialize (Hext a). rewrite elem_of_nil in Hext.
      apply Hext. apply list_elem_of_here. }
    apply increasing_inv in H1. destruct H1 as [Hs1 Ha].
    apply increasing_inv in H2. destruct H2 as [Hs2 Hb].
    assert (Hab : a = b).
    { pose proof (proj1 (Hext a) ltac:(apply list_elem_of_here)) as Hin1.
      pose proof (proj2 (Hext b) ltac:(apply list_elem_of_here)) as Hin2.
      apply elem_of_cons in Hin1. apply elem_of_cons in Hin2.
      destruct Hin1 as [E|Hin1]; [exact E|].
      destruct Hin2 as [E|Hin2]; [symmetry; exact E|].
      pose proof (Hb a Hin1) as L1. pose proof (Ha b Hin2) as L2.
      rewrite (string_lt_asym _ _ L1) in L2. discriminate. }
    subst b. f_equal. apply IH; [exact Hs1|exact Hs2|].
    intros x. split; intros Hx.
    + pose proof (proj1 (Hext x) ltac:(apply list_elem_of_further; exact Hx)) as H.
      apply elem_of_cons in H. destruct H as [->|H]; [|exact H].
      specialize (Ha a Hx). rewrite string_lt_irrefl in Ha. discriminate.
    + pose proof (proj2 (Hext x) ltac:(apply list_elem_of_further; exact Hx)) as H.
      apply elem_of_cons in H. destruct H as [->|H]; [|exact H].
      specialize (Hb a Hx). rewrite string_lt_irrefl in Hb. discriminate.
Qed.

Lemma insert_sorted_elem (x y : string) (l : list string) :
  y ∈ Go.insert_sorted Go.string_lt x l <-> y = x \/ y ∈ l.
Proof.
  induction l as [|a l IH]; simpl.
  - rewrite list_elem_of_singleton, elem_of_nil. tauto.
  - destruct (Go.string_lt x a).
    + rewrite !elem_of_cons. tauto.
    + rewrite !elem_of_cons, IH. tauto.
Qed.

Lemma insert_sorted_increasing (x : string) (l : list string) :
  increasing l -> x ∉ l -> increasing (Go.insert_sorted Go.string_lt x l).
Proof.
  induction l as [|a l IH]; intros Hs Hx; simpl.
  - apply increasing_cons; [constructor|]. intros y Hy.
    apply elem_of_nil in Hy. contradiction.
  - pose proof (increasing_inv _ _ Hs) as [Hs' Ha].
    destruct (Go.string_lt x a) eqn:E.
    + apply increasing_cons; [exact Hs|].
      intros y Hy. apply elem_of_cons in Hy. destruct Hy as [->|Hy]; [exact E|].
      exact (string_lt_trans _ _ _ E (Ha y Hy)).
    + assert (Hax : Go.string_lt a x = true).
      { destruct (Go.string_lt a x) eqn:E2; [reflexivity|].
        exfalso. apply Hx. rewrite (string_lt_total _ _ E E2).
        apply list_elem_of_here. }
      apply increasing_cons.
      * apply IH; [exact Hs'|]. intros Hin. apply Hx.
        apply list_elem_of_further, Hin.
      * intros y Hy. apply insert_sorted_elem in Hy.
        destruct Hy as [->|Hy]; [exact Hax|exact (Ha y Hy)].
Qed.

Lemma sort_Strings_elem (y : string) (l : list string) :
  y ∈ Go.sort_Strings l <-> y ∈ l.
Proof.
  unfold Go.sort_Strings, Go.sort_by.
  induction l as [|a l IH]; simpl; [tauto|].
  rewrite insert_sorted_elem, elem_of_cons, IH. tauto.
Qed.

Lemma sort_Strings_increasing (l : list string) :
  NoDup l -> increasing (Go.sort_Strings l).
Proof.
  unfold Go.sort_Strings, Go.sort_by.
  induction 1 as [|a l Hin Hnd IH]; simpl; [constructor|].
  apply insert_sorted_increasing; [exact IH|].
  intros H. apply Hin. apply (sort_Strings_elem a l). exact H.
Qed.

Lemma filter_none {A : Type} (f : A -> bool) (l : list A) :
  (forall x, x ∈ l -> f x = false) -> List.filter f l = [].
Proof.
  induction l as [|a l IH]; intros H; simpl; [reflexivity|].
  rewrite (H a) by apply list_elem_of_here.
  apply IH. intros x Hx. apply H, list_elem_of_further, Hx.
Qed.

(** On an increasing slice the loop that stops at the first date not below
    [date] collects exactly the dates below [date]. *)
Lemma take_until_increasing (date : string) (l : list string) :
  increasing l ->
  Go.take_until (fun d => Go.string_ge d date) l
  = List.filter (fun d => Go.string_lt d date) l.
Proof.
  induction l as [|a l IH]; intros Hs; simpl; [reflexivity|].
  apply increasing_inv in Hs. destruct Hs as [Hs Ha].
  rewrite string_ge_lt. destruct (Go.string_lt a date) eqn:E; simpl.
  - rewrite IH by exact Hs. reflexivity.
  - symmetry. apply filter_none. intros x Hx.
    destruct (Go.string_lt x date) eqn:E2; [|reflexivity].
    rewrite (string_lt_trans _ _ _ (Ha x Hx) E2) in E. discriminate.
Qed.

Lemma filter_increasing (f : string -> bool) (l : list string) :
  increasing l -> increasing (List.filter f l).
Proof.
  induction l as [|a l IH]; intros Hs; simpl; [exact Hs|].
  apply increasing_inv in Hs. destruct Hs as [Hs Ha].
  destruct (f a); [|auto].
  apply increasing_cons; [auto|].
  intros x Hx. apply list_elem_of_In, List.filter_In in Hx.
  apply Ha, list_elem_of_In, Hx.
Qed.

(** ** The rolling window: dates and reservoirs *)

Section RollingWindow.
Context {RS : RandSource}.

Import whale.

(** The state of a window as [AddSample] keeps it: the dates are in
    increasing order, they are the keys of the map, and every reservoir
    has the capacity [samplesPerDay], holds at most that many samples, and
    at least one when the capacity is positive. *)
Definition reservoir_filled (k : Z) (r : Reservoir) : Prop :=
  capacity r = k
  /\ Go.len (samples r) <= k
  /\ (0 < k -> samples r <> []).

Definition window_ok (rp : RollingPercentile) : Prop :=
  increasing (dateOrder rp)
  /\ (forall d, d ∈ dateOrder rp <-> is_Some (dailySamples rp !! d))
  /\ (forall d r, dailySamples rp !! d = Some r ->
                  reservoir_filled (samplesPerDay rp) r).

(** The same window: everything [GetThresholds] and [PruneOldDates] read
    except the bootstrap. *)
Definition same_window (rp rp' : RollingPercentile) : Prop :=
  windowDays rp' = windowDays rp
  /\ samplesPerDay rp' = samplesPerDay rp
  /\ dailySamples rp' = dailySamples rp
  /\ dateOrder rp' = dateOrder rp.

Lemma window_ok_new (w k : Z) : window_ok (NewRollingPercentile w k).
Proof.
  unfold window_ok, NewRollingPercentile. simpl.
  split; [constructor|]. split.
  - intros d. rewrite elem_of_nil, lookup_empty. split; [tauto|].
    intros [x Hx]. discriminate.
  - intros d r H. rewrite lookup_empty in H. discriminate.
Qed.

Lemma bootstrap_step_same_window (rp rp1 : RollingPercentile) (qty : float) :
  bootstrap_step rp qty = Some rp1 -> same_window rp rp1.
Proof.
  unfold bootstrap_step, same_window. intros H.
  destruct (bootstrapped rp); [inversion H; subst; tauto|].
  destruct (bootstrapSampleCount <=? _).
  - unfold computeBootstrapThresholds in H. simpl in H.
    destruct (percentile _ 99); [|discriminate].
    destruct (percentile _ 99.9); [|discriminate].
    inversion H; subst. simpl. tauto.
  - inversion H; subst. simpl. tauto.
Qed.

Lemma Reservoir_Add_filled (r r' : Reservoir) (v : float) :
  Reservoir_Add r v = Some r' ->
  Go.len (samples r) <= capacity r ->
  reservoir_filled (capacity r) r'.
Proof.
  unfold Reservoir_Add, reservoir_filled, Go.len. intros H Hl.
  destruct (Z.of_nat (length (samples r)) <? capacity r) eqn:E.
  - apply Z.ltb_lt in E. inversion H; subst; simpl.
    rewrite length_app. simpl. split; [reflexivity|]. split; [lia|].
    intros _ Hnil. apply app_eq_nil in Hnil. destruct Hnil; discriminate.
  - apply Z.ltb_ge in E.
    assert (Hne : 0 < capacity r -> samples r <> []).
    { intros Hk Hnil. rewrite Hnil in E. simpl in E. lia. }
    destruct (Go.int64_add (count r) 1 <=? 0); [discriminate|].
    destruct (Int63n (rsv_rng r) (Go.int64_add (count r) 1)) as [j g].
    destruct (j <? capacity r); inversion H; subst; simpl.
    + rewrite length_insert. split; [reflexivity|]. split; [lia|].
      intros Hk Hnil. apply (f_equal length) in Hnil.
      rewrite length_insert in Hnil.
      apply Hne; [exact Hk|]. destruct (samples r); [reflexivity|discriminate].
    + tauto.
Qed.

Lemma AddSample_window_step (rp rp' : RollingPercentile)
    (date : string) (qty : float) :
  window_ok rp ->
  RollingPercentile_AddSample rp date qty = Some rp' ->
  window_ok rp'
  /\ (forall d, d ∈ dateOrder rp' <-> d = date \/ d ∈ dateOrder rp)
  /\ windowDays rp' = windowDays rp
  /\ samplesPerDay rp' = samplesPerDay rp.
Proof.
  intros (Hinc & Hkeys & Hres) H. unfold RollingPercentile_AddSample in H.
  destruct (bootstrap_step rp qty) as [rp1|] eqn:Hb; [|discriminate].
  destruct (bootstrap_step_same_window _ _ _ Hb) as (Ew & Ek & Em & Eo).
  rewrite Em, Eo, Ek in H.
  destruct (dailySamples rp !! date) as [reservoir|] eqn:Hl.
  - destruct (Reservoir_Add reservoir qty) as [r'|] eqn:Ha; [|discriminate].
    inversion H; subst rp'; clear H. unfold window_ok. simpl.
    rewrite Ew, Ek.
    assert (Hin : date ∈ dateOrder rp) by (apply Hkeys; eauto).
    destruct (Hres _ _ Hl) as (Hc & Hlen & _).
    pose proof (Reservoir_Add_filled _ _ _ Ha ltac:(lia)) as Hf.
    rewrite Hc in Hf.
    repeat split; try tauto.
    + intros Hd. destruct (decide (d = date)) as [->|Hne].
      * rewrite lookup_insert_eq. eauto.
      * rewrite lookup_insert_ne by congruence. apply Hkeys, Hd.
    + intros Hd. destruct (decide (d = date)) as [->|Hne]; [exact Hin|].
      rewrite lookup_insert_ne in Hd by congruence. apply Hkeys, Hd.
    + destruct (decide (d = date)) as [->|Hne].
      * rewrite lookup_insert_eq in H. inversion H; subst. apply Hf.
      * rewrite lookup_insert_ne in H by congruence. apply (Hres _ _ H).
    + destruct (decide (d = date)) as [->|Hne].
      * rewrite lookup_insert_eq in H. inversion H; subst. apply Hf.
      * rewrite lookup_insert_ne in H by congruence. apply (Hres _ _ H).
    + destruct (decide (d = date)) as [->|Hne].
      * rewrite lookup_insert_eq in H. inversion H; subst. apply Hf.
      * rewrite lookup_insert_ne in H by congruence. apply (Hres _ _ H).
    + intros [->|Hd]; [exact Hin|exact Hd].
  - destruct (NewReservoir (samplesPerDay rp)) as [reservoir|] eqn:Hn;
      [|discriminate].
    destruct (Reservoir_Add reservoir qty) as [r'|] eqn:Ha; [|discriminate].
    inversion H; subst rp'; clear H. unfold window_ok. simpl.
    rewrite Ew, Ek.
    assert (Hnin : date ∉ dateOrder rp).
    { intros Hin. apply Hkeys in Hin. rewrite Hl in Hin.
      destruct Hin as [x Hx]. discriminate. }
    unfold NewReservoir in Hn.
    destruct (samplesPerDay rp <? 0) eqn:Hk; [discriminate|].
    apply Z.ltb_ge in Hk. inversion Hn; subst reservoir; clear Hn.
    pose proof (Reservoir_Add_filled _ _ _ Ha) as Hf. simpl in Hf.
    specialize (Hf ltac:(unfold Go.len; simpl; lia)).
    assert (Hel : forall d, d ∈ Go.sort_Strings (dateOrder rp ++ [date])
                            <-> d = date \/ d ∈ dateOrder rp).
    { intros d. rewrite sort_Strings_elem, elem_of_app, list_elem_of_singleton.
      tauto. }
    split; [|split; [exact Hel|tauto]].
    split; [|split].
    + apply sort_Strings_increasing. apply NoDup_app.
      split; [apply increasing_NoDup, Hinc|]. split.
      * intros x Hx Hx'. apply list_elem_of_singleton in Hx'. subst x.
        contradiction.
      * apply NoDup_singleton.
    + intros d. rewrite Hel. destruct (decide (d = date)) as [->|Hne].
      * rewrite lookup_insert_eq. split; eauto.
      * rewrite lookup_insert_ne by congruence. rewrite <- Hkeys. tauto.
    + intros d r H. destruct (decide (d = date)) as [->|Hne].
      * rewrite lookup_insert_eq in H. inversion H; subst. exact Hf.
      * rewrite lookup_insert_ne in H by congruence. apply (Hres _ _ H).
Qed.

(** After [AddSample date qty] the dates are the old ones and [date], the
    state is again one that [AddSample] keeps, and the window length and
    the capacity are unchanged. *)
Theorem AddSample_keeps_window_ok (rp rp' : RollingPercentile)
    (date : string) (qty : float) :
  window_ok rp ->
  RollingPercentile_AddSample rp date qty = Some rp' ->
  window_ok rp'
  /\ (forall d, d ∈ dateOrder rp' <-> d = date \/ d ∈ dateOrder rp)
  /\ windowDays rp' = windowDays rp
  /\ samplesPerDay rp' = samplesPerDay rp.
Proof. exact (AddSample_window_step rp rp' date qty). Qed.

(** A sequence of [AddSample] calls. *)
Definition RollingPercentile_AddSamples (rp : RollingPercentile)
    (l : list (string * float)) : option RollingPercentile :=
  fold_left (fun acc s => match acc with
                          | None => None
                          | Some rp => RollingPercentile_AddSample rp s.1 s.2
                          end) l (Some rp).

Lemma AddSamples_window_ok (l : list (string * float)) :
  forall rp rp',
    window_ok rp -> RollingPercentile_AddSamples rp l = Some rp' ->
    window_ok rp'
    /\ (forall d, d ∈ dateOrder rp' <-> d ∈ map fst l \/ d ∈ dateOrder rp).
Proof.
  unfold RollingPercentile_AddSamples.
  induction l as [|[d0 q] l IH]; intros rp rp' Hok H; cbn [fold_left] in H.
  - inversion H; subst. split; [exact Hok|]. intros d. simpl.
    rewrite elem_of_nil. tauto.
  - simpl in H.
    destruct (RollingPercentile_AddSample rp d0 q) as [rp1|] eqn:Ha.
    2:{ exfalso. clear -H. induction l as [|x l IHl]; cbn [fold_left] in H;
          [discriminate|auto]. }
    destruct (AddSample_window_step _ _ _ _ Hok Ha) as (Hok1 & Hel & _).
    destruct (IH _ _ Hok1 H) as [Hok' Hel'].
    split; [exact Hok'|]. intros d. rewrite Hel', Hel. simpl.
    rewrite elem_of_cons. tauto.
Qed.

(** Whatever samples are added to a new window, in whatever order of
    dates: the dates kept are in strictly increasing order, they are
    exactly the dates that have a reservoir and exactly the dates that
    were added, and no reservoir holds more than [samplesPerDay]
    samples. *)
Theorem AddSamples_dates_increasing (w k : Z) (l : list (string * float))
    (rp : RollingPercentile) :
  RollingPercentile_AddSamples (NewRollingPercentile w k) l = Some rp ->
  increasing (dateOrder rp)
  /\ (forall d, d ∈ dateOrder rp <-> d ∈ map fst l)
  /\ (forall d, d ∈ dateOrder rp <-> is_Some (dailySamples rp !! d))
  /\ (forall d r, dailySamples rp !! d = Some r ->
                  Go.len (samples r) <= samplesPerDay rp).
Proof.
  intros H.
  destruct (AddSamples_window_ok l _ _ (window_ok_new w k) H)
    as [(Hinc & Hkeys & Hres) Hel].
  split; [exact Hinc|]. split; [|split; [exact Hkeys|]].
  - intros d. rewrite Hel. simpl. rewrite elem_of_nil. tauto.
  - intros d r Hr. apply (Hres d r Hr).
Qed.

End RollingWindow.

(** Three samples on two dates, the later date first, in a window of
    seven days with reservoirs of capacity 2. *)
Definition demo_samples : list (string * float) :=
  [("2024-01-02"%string, 1.5%float); ("2024-01-01"%string, 2.5%float);
   ("2024-01-02"%string, 3.5%float)].

Definition demo_window : @whale.RollingPercentile LCG.source :=
  match RollingPercentile_AddSamples (whale.NewRollingPercentile 7 2)
          demo_samples with
  | Some rp => rp
  | None => whale.NewRollingPercentile 7 2
  end.

Lemma demo_window_eq :
  RollingPercentile_AddSamples (whale.NewRollingPercentile 7 2) demo_samples
  = Some demo_window.
Proof. apply some_of_default. vm_compute. reflexivity. Qed.

Lemma demo_window_ok : window_ok demo_window.
Proof.
  exact (proj1 (AddSamples_window_ok _ _ _ (window_ok_new 7 2)
                  demo_window_eq)).
Qed.

Lemma AddSamples_dates_increasing_demo :
  increasing (whale.dateOrder demo_window)
  /\ (forall d, d ∈ whale.dateOrder demo_window <-> d ∈ map fst demo_samples)
  /\ (forall d, d ∈ whale.dateOrder demo_window
                <-> is_Some (whale.dailySamples demo_window !! d))
  /\ (forall d r, whale.dailySamples demo_window !! d = Some r ->
                  Go.len (whale.samples r) <= whale.samplesPerDay demo_window).
Proof.
  apply (AddSamples_dates_increasing 7 2 demo_samples).
  apply some_of_default. vm_compute. reflexivity.
Defined.

Lemma AddSample_keeps_window_ok_demo :
  match whale.RollingPercentile_AddSample demo_window "2024-01-03" 4.5 with
  | Some rp' =>
      window_ok rp'
      /\ (forall d, d ∈ whale.dateOrder rp'
                    <-> d = "2024-01-03"%string
                        \/ d ∈ whale.dateOrder demo_window)
      /\ whale.windowDays rp' = whale.windowDays demo_window
      /\ whale.samplesPerDay rp' = whale.samplesPerDay demo_window
  | None => False
  end.
Proof.
  destruct (whale.RollingPercentile_AddSample demo_window "2024-01-03" 4.5)
    as [rp'|] eqn:E.
  - exact (AddSample_keeps_window_ok demo_window rp' _ _ demo_window_ok E).
  - apply (f_equal (fun o => match o with Some _ => true | None => false end))
      in E.
    vm_compute in E. discriminate.
Defined.

(** ** The rolling window: thresholds *)

Section RollingThresholds.
Context {RS : RandSource}.

Import whale.

Lemma take_until_length {A : Type} (stop : A -> bool) (l : list A) :
  (length (Go.take_until stop l) <= length l)%nat.
Proof.
  induction l as [|a l IH]; simpl; [lia|].
  destruct (stop a); simpl; lia.
Qed.

Lemma window_dates_below (rp : RollingPercentile) (date : string)
    (w : list string) :
  window_dates rp date = Some w ->
  forall d, d ∈ w -> d ∈ dateOrder rp /\ Go.string_lt d date = true.
Proof.
  unfold window_dates. intros H d Hd.
  assert (Hall : forall l x,
             x ∈ Go.take_until (fun d => Go.string_ge d date) l ->
             x ∈ l /\ Go.string_lt x date = true).
  { induction l as [|a l IH]; simpl; intros x Hx.
    - apply elem_of_nil in Hx. contradiction.
    - rewrite string_ge_lt in Hx. destruct (Go.string_lt a date) eqn:E.
      + simpl in Hx. apply elem_of_cons in Hx. destruct Hx as [->|Hx].
        * split; [apply list_elem_of_here|exact E].
        * destruct (IH x Hx). split; [apply list_elem_of_further|]; assumption.
      + simpl in Hx. apply elem_of_nil in Hx. contradiction. }
  destruct (windowDays rp <? _).
  - unfold Go.slice_from in H. destruct (_ && _); [|discriminate].
    inversion H; subst. apply Hall.
    apply (subseteq_drop (Z.to_nat _) _ d Hd).
  - inversion H; subst. apply Hall, Hd.
Qed.

(** A date that is not below [date] stops the loop of [GetThresholds]
    before it: when no date of the window state is below [date] (a new
    state, or the first day of the data) and [windowDays] is not negative,
    the thresholds are the bootstrap ones once [bootstrapped] is set, and
    5.0 and 20.0 before. *)
Theorem GetThresholds_without_history (rp : RollingPercentile)
    (date : string) :
  0 <= windowDays rp ->
  (forall d, d ∈ dateOrder rp -> Go.string_lt d date = false) ->
  RollingPercentile_GetThresholds rp date
  = Some (if bootstrapped rp then bootstrapThresholds rp
          else mkThresholds 5.0 20.0).
Proof.
  intros Hw Hall. unfold RollingPercentile_GetThresholds, window_dates.
  assert (E : Go.take_until (fun d => Go.string_ge d date) (dateOrder rp) = []).
  { destruct (dateOrder rp) as [|a l]; [reflexivity|]. simpl.
    rewrite string_ge_lt, (Hall a) by apply list_elem_of_here. reflexivity. }
  rewrite E. change (Go.len (@nil string)) with 0.
  assert (E2 : (windowDays rp <? 0) = false) by (apply Z.ltb_ge; lia).
  rewrite E2. reflexivity.
Qed.

(** With [windowDays = 0] the window is always empty and the thresholds
    are the fallback ones, whatever has been sampled. *)
Theorem GetThresholds_zero_window (rp : RollingPercentile) (date : string) :
  windowDays rp = 0 -> Go.len (dateOrder rp) < 2 ^ 63 ->
  RollingPercentile_GetThresholds rp date = Some (fallback_thresholds rp).
Proof.
  intros Hw Hlen. unfold RollingPercentile_GetThresholds, window_dates.
  rewrite Hw.
  set (wd := Go.take_until (fun d => Go.string_ge d date) (dateOrder rp)).
  assert (Hle : Go.len wd <= Go.len (dateOrder rp)).
  { unfold wd, Go.len. apply inj_le, take_until_length. }
  assert (H0 : 0 <= Go.len wd) by (unfold Go.len; lia).
  destruct (0 <? Go.len wd) eqn:E.
  - unfold Go.int64_sub. rewrite int64_wrap_small
      by (unfold Go.in_int64; lia).
    unfold Go.slice_from. rewrite Z.sub_0_r.
    assert (E3 : (0 <=? Go.len wd) && (Go.len wd <=? Z.of_nat (length wd))
                 = true).
    { apply andb_true_iff. split; apply Z.leb_le; unfold Go.len; lia. }
    rewrite E3.
    assert (Ed : drop (Z.to_nat (Go.len wd)) wd = [])
      by (unfold Go.len; rewrite Nat2Z.id; apply drop_all).
    rewrite Ed. reflexivity.
  - apply Z.ltb_ge in E. assert (E4 : Go.len wd = 0) by lia.
    rewrite E4. reflexivity.
Qed.

(** [HasEnoughData] answers whether the window of [GetThresholds] is full:
    for a window length that is not negative it is true exactly when the
    window of [date] holds [windowDays] dates. *)
Theorem HasEnoughData_full_window (rp : RollingPercentile) (date : string) :
  0 <= windowDays rp -> Go.len (dateOrder rp) < 2 ^ 63 ->
  exists w,
    window_dates rp date = Some w
    /\ Go.len w <= windowDays rp
    /\ (RollingPercentile_HasEnoughData rp date = true
        <-> Go.len w = windowDays rp).
Proof.
  intros Hw Hlen. unfold window_dates, RollingPercentile_HasEnoughData.
  set (wd := Go.take_until (fun d => Go.string_ge d date) (dateOrder rp)).
  assert (Hle : Go.len wd <= Go.len (dateOrder rp)).
  { unfold wd, Go.len. apply inj_le, take_until_length. }
  assert (H0 : 0 <= Go.len wd) by (unfold Go.len; lia).
  destruct (windowDays rp <? Go.len wd) eqn:E.
  - apply Z.ltb_lt in E.
    unfold Go.int64_sub. rewrite int64_wrap_small
      by (unfold Go.in_int64; lia).
    unfold Go.slice_from.
    assert (E3 : (0 <=? Go.len wd - windowDays rp)
                 && (Go.len wd - windowDays rp <=? Z.of_nat (length wd))
                 = true).
    { apply andb_true_iff. split; apply Z.leb_le; unfold Go.len in *; lia. }
    rewrite E3. eexists. split; [reflexivity|].
    assert (El : Go.len (drop (Z.to_nat (Go.len wd - windowDays rp)) wd)
                 = windowDays rp).
    { unfold Go.len in *. rewrite length_drop. lia. }
    rewrite El. split; [lia|]. split; [reflexivity|].
    intros _. apply Z.leb_le. lia.
  - apply Z.ltb_ge in E. exists wd. split; [reflexivity|].
    split; [exact E|]. rewrite Z.leb_le. lia.
Qed.

End RollingThresholds.

(** ** The rolling window: no look-ahead *)

Section NoLookAhead.
Context {RS : RandSource}.

Import whale.

Lemma AddSample_shape (rp rp' : RollingPercentile) (date : string)
    (qty : float) :
  RollingPercentile_AddSample rp date qty = Some rp' ->
  exists rp1 r',
    bootstrap_step rp qty = Some rp1
    /\ dailySamples rp' = <[date := r']> (dailySamples rp)
    /\ bootstrapped rp' = bootstrapped rp1
    /\ bootstrapThresholds rp' = bootstrapThresholds rp1.
Proof.
  unfold RollingPercentile_AddSample. intros H.
  destruct (bootstrap_step rp qty) as [rp1|] eqn:Hb; [|discriminate].
  destruct (bootstrap_step_same_window _ _ _ Hb) as (_ & _ & Em & _).
  exists rp1. rewrite Em in H.
  destruct (dailySamples rp !! date).
  - destruct (Reservoir_Add _ qty) as [r'|]; [|discriminate].
    inversion H; subst. exists r'. simpl. tauto.
  - destruct (NewReservoir _); [|discriminate].
    destruct (Reservoir_Add _ qty) as [r'|]; [|discriminate].
    inversion H; subst. exists r'. simpl. tauto.
Qed.

Lemma collect_samples_insert_other (m : gmap string Reservoir)
    (date : string) (r : Reservoir) (w : list string) :
  (forall d, d ∈ w -> d <> date) ->
  collect_samples (<[date := r]> m) w = collect_samples m w.
Proof.
  unfold collect_samples. intros H. f_equal.
  induction w as [|a w IH]; simpl; [reflexivity|].
  rewrite lookup_insert_ne
    by (intros E; apply (H a); [apply list_elem_of_here|congruence]).
  f_equal. apply IH. intros d Hd. apply H, list_elem_of_further, Hd.
Qed.

Lemma bootstrap_step_bootstrapped (rp : RollingPercentile) (qty : float) :
  bootstrapped rp = true -> bootstrap_step rp qty = Some rp.
Proof. unfold bootstrap_step. intros ->. reflexivity. Qed.

Lemma AddSample_later_date (rp rp' : RollingPercentile)
    (d date : string) (qty : float) :
  window_ok rp ->
  RollingPercentile_AddSample rp d qty = Some rp' ->
  Go.string_lt d date = false ->
  window_dates rp' date = window_dates rp date
  /\ (fallback_thresholds rp' = fallback_thresholds rp ->
      RollingPercentile_GetThresholds rp' date
      = RollingPercentile_GetThresholds rp date)
  /\ (bootstrapped rp = true ->
      RollingPercentile_GetThresholds rp' date
      = RollingPercentile_GetThresholds rp date).
Proof.
  intros Hok Ha Hd.
  destruct (AddSample_window_step _ _ _ _ Hok Ha) as (Hok' & Hel & Ew & _).
  destruct (AddSample_shape _ _ _ _ Ha) as (rp1 & r' & Hb & Em & Eb & Et).
  assert (Hwd : window_dates rp' date = window_dates rp date).
  { unfold window_dates. rewrite Ew.
    replace (Go.take_until (fun x => Go.string_ge x date) (dateOrder rp'))
      with (Go.take_until (fun x => Go.string_ge x date) (dateOrder rp));
      [reflexivity|].
    rewrite !take_until_increasing by (apply Hok || apply Hok').
    apply increasing_ext; try (apply filter_increasing; apply Hok || apply Hok').
    intros x. rewrite !list_elem_of_In, !List.filter_In, <- !list_elem_of_In.
    rewrite Hel. split; [tauto|].
    intros [[->|Hx] Hlt]; [congruence|tauto]. }
  assert (Hgen : fallback_thresholds rp' = fallback_thresholds rp ->
                 RollingPercentile_GetThresholds rp' date
                 = RollingPercentile_GetThresholds rp date).
  { intros Hf. unfold RollingPercentile_GetThresholds. rewrite Hwd, Hf.
    destruct (window_dates rp date) as [w|] eqn:Hw; [|reflexivity].
    rewrite Em, collect_samples_insert_other; [reflexivity|].
    intros x Hx ->. destruct (window_dates_below _ _ _ Hw d Hx) as [_ Hlt].
    congruence. }
  split; [exact Hwd|]. split; [exact Hgen|].
  intros Hbs. apply Hgen. unfold fallback_thresholds.
  rewrite (bootstrap_step_bootstrapped _ _ Hbs) in Hb. inversion Hb; subst rp1.
  rewrite Eb, Et. reflexivity.
Qed.


(** ** The rolling window: pruning *)

Lemma prune_cutoff_spec (currentDate : string) (n w1 : Z) (l : list string) :
  forall i : Z,
    0 <= i ->
    let r := prune_cutoff currentDate n w1 i l i in
    i <= r <= i + Go.len l
    /\ (forall j d, (j < Z.to_nat (r - i))%nat -> l !! j = Some d ->
                    Go.string_lt d currentDate = true)
    /\ (i < r -> w1 <= n - r).
Proof.
  unfold Go.len.
  induction l as [|a l IH]; intros i Hi; simpl.
  - split; [lia|]. split; [|lia]. intros j d Hj. lia.
  - rewrite string_ge_lt.
    destruct (Go.string_lt a currentDate) eqn:E; simpl.
    + destruct (n - i <=? w1) eqn:E2.
      * split; [lia|]. split; [|lia]. intros j d Hj. lia.
      * apply Z.leb_gt in E2.
        destruct (IH (i + 1) ltac:(lia)) as (Hr & Hall & Hrem).
        set (r := prune_cutoff currentDate n w1 (i + 1) l (i + 1)) in *.
        split; [lia|]. split.
        -- intros j d Hj Hl. destruct j as [|j]; simpl in Hl.
           ++ inversion Hl; subst. exact E.
           ++ apply (Hall j d); [lia|exact Hl].
        -- intros _. destruct (Z.eq_dec r (i + 1)) as [->|Hne]; [lia|].
           apply Hrem. lia.
    + split; [lia|]. split; [|lia]. intros j d Hj. lia.
Qed.

Lemma delete_all_lookup (old : list string) :
  forall (m : gmap string Reservoir) (d : string),
    fold_left (fun m d => delete d m) old m !! d
    = if decide (d ∈ old) then None else m !! d.
Proof.
  induction old as [|a old IH]; intros m d; simpl.
  - destruct (decide (d ∈ [])) as [H|H]; [|reflexivity].
    apply elem_of_nil in H. contradiction.
  - rewrite IH. destruct (decide (d ∈ old)) as [H|H].
    + rewrite decide_True by (apply list_elem_of_further, H). reflexivity.
    + destruct (decide (d = a)) as [->|Hne].
      * rewrite decide_True by apply list_elem_of_here.
        apply lookup_delete_eq.
      * rewrite decide_False
          by (intros Hin; apply elem_of_cons in Hin; tauto).
        apply lookup_delete_ne. congruence.
Qed.

(** [PruneOldDates] removes a prefix of the dates, and only dates below
    [currentDate]; when it removes any, at least [windowDays + 1] dates
    remain.  The reservoirs of the removed dates are deleted, the others
    are untouched, and the state is again one that [AddSample] keeps. *)
Theorem PruneOldDates_removes_old_prefix (rp : RollingPercentile)
    (currentDate : string) :
  0 <= windowDays rp < 2 ^ 63 - 1 ->
  exists cutoff : nat,
    let rp' := RollingPercentile_PruneOldDates rp currentDate in
    dateOrder rp' = drop cutoff (dateOrder rp)
    /\ (forall d, d ∈ take cutoff (dateOrder rp) ->
                  Go.string_lt d currentDate = true
                  /\ dailySamples rp' !! d = None)
    /\ (forall d, d ∉ take cutoff (dateOrder rp) ->
                  dailySamples rp' !! d = dailySamples rp !! d)
    /\ ((0 < cutoff)%nat -> windowDays rp + 1 <= Go.len (dateOrder rp'))
    /\ (window_ok rp -> window_ok rp').
Proof.
  intros Hw. unfold RollingPercentile_PruneOldDates.
  assert (Hw1 : Go.int64_add (windowDays rp) 1 = windowDays rp + 1).
  { unfold Go.int64_add. apply int64_wrap_small. unfold Go.in_int64. lia. }
  rewrite Hw1.
  destruct (prune_cutoff_spec currentDate (Go.len (dateOrder rp))
              (windowDays rp + 1) (dateOrder rp) 0 ltac:(lia))
    as (Hr & Hall & Hrem).
  set (r := prune_cutoff currentDate (Go.len (dateOrder rp))
              (windowDays rp + 1) 0 (dateOrder rp) 0) in *.
  rewrite Z.sub_0_r in Hall.
  exists (Z.to_nat r). cbv zeta. simpl.
  assert (Hold : forall d, d ∈ take (Z.to_nat r) (dateOrder rp) ->
                           Go.string_lt d currentDate = true).
  { intros d Hd. apply list_elem_of_lookup in Hd. destruct Hd as [j Hj].
    apply lookup_take_Some in Hj. destruct Hj as [Hj Hlt].
    apply (Hall j d Hlt Hj). }
  split; [reflexivity|]. split; [|split; [|split]].
  - intros d Hd. split; [apply Hold, Hd|].
    rewrite delete_all_lookup, decide_True by exact Hd. reflexivity.
  - intros d Hd. rewrite delete_all_lookup, decide_False by exact Hd.
    reflexivity.
  - intros Hpos. unfold Go.len in *. rewrite length_drop. lia.
  - intros (Hinc & Hkeys & Hres). unfold window_ok. simpl.
    split; [apply increasing_drop, Hinc|]. split.
    + intros d. rewrite delete_all_lookup.
      pose proof (increasing_NoDup _ Hinc) as Hnd.
      rewrite <- (take_drop (Z.to_nat r) (dateOrder rp)) in Hnd.
      apply NoDup_app in Hnd. destruct Hnd as (_ & Hdisj & _).
      destruct (decide (d ∈ take (Z.to_nat r) (dateOrder rp))) as [Hin|Hnin].
      * split; [intros Hd; exfalso; apply (Hdisj d Hin Hd)|].
        intros [x Hx]. discriminate.
      * rewrite <- Hkeys.
        rewrite <- (take_drop (Z.to_nat r) (dateOrder rp)) at 2.
        rewrite elem_of_app. tauto.
    + intros d x Hx. rewrite delete_all_lookup in Hx.
      destruct (decide _); [discriminate|]. apply (Hres d x Hx).
Qed.

End NoLookAhead.

Lemma GetThresholds_without_history_demo :
  whale.RollingPercentile_GetThresholds demo_window "2024-01-01"
  = Some (if whale.bootstrapped demo_window
          then whale.bootstrapThresholds demo_window
          else whale.mkThresholds 5.0 20.0).
Proof.
  apply (GetThresholds_without_history demo_window "2024-01-01").
  - vm_compute. discriminate.
  - intros d Hd.
    assert (E : whale.dateOrder demo_window
                = ["2024-01-01"; "2024-01-02"]%string)
      by (vm_compute; reflexivity).
    rewrite E in Hd. repeat (apply elem_of_cons in Hd; destruct Hd as [->|Hd]);
      try (vm_compute; reflexivity).
    apply elem_of_nil in Hd. contradiction.
Defined.

Lemma demo_window_days : whale.windowDays demo_window = 7.
Proof. vm_compute. reflexivity. Qed.

Lemma demo_window_dates :
  whale.dateOrder demo_window = ["2024-01-01"; "2024-01-02"]%string.
Proof. vm_compute. reflexivity. Qed.

(** The same samples in a window of length zero. *)
Definition demo_window_zero : @whale.RollingPercentile LCG.source :=
  match RollingPercentile_AddSamples (whale.NewRollingPercentile 0 2)
          demo_samples with
  | Some rp => rp
  | None => whale.NewRollingPercentile 0 2
  end.

Lemma GetThresholds_zero_window_demo :
  whale.RollingPercentile_GetThresholds demo_window_zero "2024-01-03"
  = Some (whale.fallback_thresholds demo_window_zero).
Proof.
  apply (GetThresholds_zero_window demo_window_zero "2024-01-03").
  - vm_compute. reflexivity.
  - vm_compute. reflexivity.
Defined.

Lemma HasEnoughData_full_window_demo :
  exists w,
    whale.window_dates demo_window "2024-01-03" = Some w
    /\ Go.len w <= whale.windowDays demo_window
    /\ (whale.RollingPercentile_HasEnoughData demo_window "2024-01-03" = true
        <-> Go.len w = whale.windowDays demo_window).
Proof.
  apply (HasEnoughData_full_window demo_window "2024-01-03").
  - rewrite demo_window_days. lia.
  - rewrite demo_window_dates. vm_compute. reflexivity.
Defined.


(** Four dates in a window of length one. *)
Definition demo_window_four : @whale.RollingPercentile LCG.source :=
  match RollingPercentile_AddSamples (whale.NewRollingPercentile 1 2)
          [("2024-01-01"%string, 1%float); ("2024-01-02"%string, 2%float);
           ("2024-01-03"%string, 3%float); ("2024-01-04"%string, 4%float)] with
  | Some rp => rp
  | None => whale.NewRollingPercentile 1 2
  end.

Lemma PruneOldDates_removes_old_prefix_demo :
  exists cutoff : nat,
    let rp' := whale.RollingPercentile_PruneOldDates demo_window_four
                 "2024-01-04" in
    whale.dateOrder rp' = drop cutoff (whale.dateOrder demo_window_four)
    /\ (forall d, d ∈ take cutoff (whale.dateOrder demo_window_four) ->
                  Go.string_lt d "2024-01-04" = true
                  /\ whale.dailySamples rp' !! d = None)
    /\ (forall d, d ∉ take cutoff (whale.dateOrder demo_window_four) ->
                  whale.dailySamples rp' !! d
                  = whale.dailySamples demo_window_four !! d)
    /\ ((0 < cutoff)%nat ->
        whale.windowDays demo_window_four + 1 <= Go.len (whale.dateOrder rp'))
    /\ (window_ok demo_window_four -> window_ok rp').
Proof.
  apply (PruneOldDates_removes_old_prefix demo_window_four "2024-01-04").
  assert (E : whale.windowDays demo_window_four = 1)
    by (vm_compute; reflexivity).
  rewrite E. lia.
Defined.

(** ** The detector: cached thresholds and batches *)

Section DetectorCache.
Context {RS : RandSource} {CK : Clock}.

Import whale.

(** Every cached threshold is the one the window gives. *)
Definition cache_exact (d : Detector) : Prop :=
  forall date t,
    thresholdCache d !! date = Some t ->
    RollingPercentile_GetThresholds (rolling d) date = Some t.

Lemma cache_exact_new (w k : Z) : cache_exact (NewDetector w k).
Proof. intros date t H. simpl in H. rewrite lookup_empty in H. discriminate. Qed.

Lemma Detector_GetThresholds_spec (d d' : Detector) (date : string)
    (t : Thresholds) :
  Detector_GetThresholds d date = Some (t, d') ->
  rolling d' = rolling d
  /\ thresholdCache d' = <[date := t]> (thresholdCache d)
  /\ Detector_GetThresholds d' date = Some (t, d')
  /\ (cache_exact d ->
      RollingPercentile_GetThresholds (rolling d) date = Some t
      /\ cache_exact d').
Proof.
  unfold Detector_GetThresholds. intros H.
  destruct (thresholdCache d !! date) as [t0|] eqn:Hc.
  - inversion H; subst. rewrite Hc. rewrite insert_id by exact Hc.
    repeat split; auto.
  - destruct (RollingPercentile_GetThresholds (rolling d) date) as [t0|] eqn:Hg;
      [|discriminate].
    inversion H; subst. simpl. rewrite lookup_insert_eq.
    repeat split; auto.
    intros D t1 H1. simpl in *.
    destruct (decide (D = date)) as [->|Hne].
    + rewrite lookup_insert_eq in H1. congruence.
    + rewrite lookup_insert_ne in H1 by congruence. auto.
Qed.

(** [GetThresholds] of the detector leaves the window alone and puts the
    thresholds it returns in the cache, so that asking again gives the
    same thresholds and changes nothing; with an exact cache the value is
    the one the window gives, and the cache stays exact. *)
Theorem Detector_GetThresholds_cached (d d' : Detector) (date : string)
    (t : Thresholds) :
  Detector_GetThresholds d date = Some (t, d') ->
  rolling d' = rolling d
  /\ thresholdCache d' = <[date := t]> (thresholdCache d)
  /\ Detector_GetThresholds d' date = Some (t, d')
  /\ (cache_exact d ->
      RollingPercentile_GetThresholds (rolling d) date = Some t
      /\ cache_exact d').
Proof. exact (Detector_GetThresholds_spec d d' date t). Qed.

(** A sample added on [date] drops the cached thresholds of [date] only.
    When the window is bootstrapped and no later date has thresholds in
    the cache (the trades arrive in the order of their dates), the cache
    stays exact. *)
Theorem Detector_AddSample_cache_exact (d d' : Detector) (date : string)
    (qty : float) :
  window_ok (rolling d) -> cache_exact d ->
  bootstrapped (rolling d) = true ->
  (forall D, is_Some (thresholdCache d !! D) -> Go.string_lt date D = false) ->
  Detector_AddSample d date qty = Some d' ->
  thresholdCache d' = delete date (thresholdCache d)
  /\ cache_exact d'.
Proof.
  intros Hok Hex Hbs Hchron H. unfold Detector_AddSample in H.
  destruct (RollingPercentile_AddSample (rolling d) date qty) as [rp|] eqn:Ha;
    [|discriminate].
  inversion H; subst d'; clear H. simpl. split; [reflexivity|].
  intros D t Hl. simpl in *.
  destruct (decide (D = date)) as [->|Hne].
  - rewrite lookup_delete_eq in Hl. discriminate.
  - rewrite lookup_delete_ne in Hl by congruence.
    destruct (AddSample_later_date _ _ _ D _ Hok Ha) as (_ & _ & Hsame).
    + destruct (Go.string_lt date D) eqn:E; [|reflexivity].
      exfalso.
      assert (Hle : Go.string_lt date D = false) by (apply Hchron; eauto).
      congruence.
    + rewrite (Hsame Hbs). apply Hex, Hl.
Qed.

(** [Classify] on each trade in turn. *)
Definition classify_step (acc : option (list Classification * Detector))
    (trade : parser.Trade) : option (list Classification * Detector) :=
  match acc with
  | None => None
  | Some (results, d) =>
      match Detector_Classify d trade with
      | None => None
      | Some (c, d') => Some (results ++ [c], d')
      end
  end.

Definition classify_each (d : Detector) (trades : list parser.Trade)
    : option (list Classification * Detector) :=
  fold_left classify_step trades (Some ([], d)).

Lemma classify_step_none (trades : list parser.Trade) :
  fold_left classify_step trades None = None.
Proof. induction trades as [|a l IH]; simpl; auto. Qed.

Lemma batch_step_none (trades : list parser.Trade) :
  fold_left batch_step trades None = None.
Proof. induction trades as [|a l IH]; simpl; auto. Qed.

Lemma batch_loop_classify_each (trades : list parser.Trade) :
  forall results cur curT d,
    (cur <> EmptyString -> thresholdCache d !! cur = Some curT) ->
    (forall trade, trade ∈ trades -> parser.Trade_Date trade <> EmptyString) ->
    match fold_left batch_step trades (Some (results, cur, curT, d)) with
    | None => None
    | Some (results', _, _, d') => Some (results', d')
    end
    = fold_left classify_step trades (Some (results, d)).
Proof.
  induction trades as [|trade trades IH]; intros results cur curT d Hc Hd;
    [reflexivity|].
  cbn [fold_left].
  assert (Hne : parser.Trade_Date trade <> EmptyString)
    by (apply Hd, list_elem_of_here).
  assert (Hd' : forall x, x ∈ trades -> parser.Trade_Date x <> EmptyString)
    by (intros x Hx; apply Hd, list_elem_of_further, Hx).
  unfold batch_step at 2. unfold classify_step at 2. unfold Detector_Classify.
  destruct (String.eqb (parser.Trade_Date trade) cur) eqn:E; simpl.
  - apply String.eqb_eq in E. subst cur.
    unfold Detector_GetThresholds. rewrite (Hc Hne).
    apply IH; [exact Hc|exact Hd'].
  - destruct (Detector_GetThresholds d (parser.Trade_Date trade))
      as [[t d1]|] eqn:Hg.
    + apply IH; [|exact Hd'].
      intros _.
      destruct (Detector_GetThresholds_spec _ _ _ _ Hg) as (_ & Ec & _).
      rewrite Ec. apply lookup_insert_eq.
    + rewrite batch_step_none, classify_step_none. reflexivity.
Qed.

(** [ClassifyBatch] gives the classifications of [Classify] called on each
    trade in turn, and leaves the detector in the same state, as long as
    no trade has the empty string as its date (the value [currentDate]
    starts with). *)
Theorem ClassifyBatch_is_Classify_each (d : Detector)
    (trades : list parser.Trade) :
  (forall trade, trade ∈ trades -> parser.Trade_Date trade <> EmptyString) ->
  Detector_ClassifyBatch d trades = classify_each d trades.
Proof.
  intros Hd. unfold Detector_ClassifyBatch, classify_each.
  rewrite <- (batch_loop_classify_each trades [] EmptyString
                (mkThresholds 0 0) d); [|congruence|exact Hd].
  destruct (fold_left batch_step trades _) as [[[[r c] t] d']|]; reflexivity.
Qed.

(** [PruneOldDates] of the detector drops the cached thresholds of the
    dates below [currentDate] and keeps the others. *)
Theorem Detector_PruneOldDates_cache (d : Detector) (currentDate date : string) :
  thresholdCache (Detector_PruneOldDates d currentDate) !! date
  = if Go.string_lt date currentDate then None
    else thresholdCache d !! date.
Proof.
  unfold Detector_PruneOldDates. simpl.
  destruct (Go.string_lt date currentDate) eqn:E.
  - apply map_lookup_filter_None. right. intros t _. simpl. rewrite E.
    simpl. auto.
  - destruct (thresholdCache d !! date) as [t|] eqn:Hl.
    + apply map_lookup_filter_Some. split; [exact Hl|]. simpl. rewrite E.
      simpl. auto.
    + apply map_lookup_filter_None. left. exact Hl.
Qed.

End DetectorCache.

(** The window of [demo_window] with imported bootstrap thresholds 3 and
    4, and an empty cache. *)
Definition demo_detector : @whale.Detector LCG.source :=
  whale.mkDetector
    (whale.RollingPercentile_ImportBootstrap demo_window
       (whale.mkBootstrapState (whale.mkThresholds 3 4) true))
    ∅.

Lemma demo_detector_window_ok : window_ok (whale.rolling demo_detector).
Proof. exact demo_window_ok. Qed.

Lemma demo_detector_cache_exact : cache_exact demo_detector.
Proof.
  intros date t H. simpl in H. rewrite lookup_empty in H. discriminate.
Qed.

(** The detector after the thresholds of 2 January have been asked for. *)
Definition demo_detector_asked : @whale.Detector LCG.source :=
  match whale.Detector_GetThresholds demo_detector "2024-01-02" with
  | Some (_, d) => d
  | None => demo_detector
  end.

Definition demo_thresholds : whale.Thresholds :=
  match whale.Detector_GetThresholds demo_detector "2024-01-02" with
  | Some (t, _) => t
  | None => whale.mkThresholds 0 0
  end.

Lemma demo_detector_asked_eq :
  whale.Detector_GetThresholds demo_detector "2024-01-02"
  = Some (demo_thresholds, demo_detector_asked).
Proof.
  unfold demo_thresholds, demo_detector_asked.
  destruct (whale.Detector_GetThresholds demo_detector "2024-01-02")
    as [[t d]|] eqn:E; [reflexivity|].
  apply (f_equal (fun o => match o with Some _ => true | None => false end))
    in E.
  vm_compute in E. discriminate.
Qed.

Lemma Detector_GetThresholds_cached_demo :
  whale.rolling demo_detector_asked = whale.rolling demo_detector
  /\ whale.thresholdCache demo_detector_asked
     = <["2024-01-02"%string := demo_thresholds]>
         (whale.thresholdCache demo_detector)
  /\ whale.Detector_GetThresholds demo_detector_asked "2024-01-02"
     = Some (demo_thresholds, demo_detector_asked)
  /\ (cache_exact demo_detector ->
      whale.RollingPercentile_GetThresholds (whale.rolling demo_detector)
        "2024-01-02" = Some demo_thresholds
      /\ cache_exact demo_detector_asked).
Proof.
  apply (Detector_GetThresholds_cached demo_detector demo_detector_asked
           "2024-01-02" demo_thresholds).
  exact demo_detector_asked_eq.
Defined.

Lemma Detector_AddSample_cache_exact_demo :
  match whale.Detector_AddSample demo_detector_asked "2024-01-03" 4.5 with
  | Some d' =>
      whale.thresholdCache d'
      = delete "2024-01-03"%string (whale.thresholdCache demo_detector_asked)
      /\ cache_exact d'
  | None => False
  end.
Proof.
  destruct (Detector_GetThresholds_spec _ _ _ _ demo_detector_asked_eq)
    as (Er & Ec & _ & Hex).
  destruct (whale.Detector_AddSample demo_detector_asked "2024-01-03" 4.5)
    as [d'|] eqn:E.
  - apply (Detector_AddSample_cache_exact demo_detector_asked d' "2024-01-03"
             4.5).
    + rewrite Er. exact demo_detector_window_ok.
    + apply Hex, demo_detector_cache_exact.
    + rewrite Er. reflexivity.
    + intros D [t Ht]. rewrite Ec in Ht.
      destruct (decide (D = "2024-01-02"%string)) as [->|Hne].
      * vm_compute. reflexivity.
      * rewrite lookup_insert_ne in Ht by congruence. simpl in Ht.
        rewrite lookup_empty in Ht. discriminate.
    + exact E.
  - apply (f_equal (fun o => match o with Some _ => true | None => false end))
      in E.
    vm_compute in E. discriminate.
Defined.

(** Three trades: two on 1 January 2020, one on 2 January 2020. *)
Definition demo_trades : list parser.Trade :=
  [ parser.mkTrade (Time_UnixMilli 1577836800000) 30000 0.5 false;
    parser.mkTrade (Time_UnixMilli 1577840400000) 30000 9 true;
    parser.mkTrade (Time_UnixMilli 1577923200000) 31000 7 true ].

Lemma ClassifyBatch_is_Classify_each_demo :
  @whale.Detector_ClassifyBatch LCG.source UTCClock.clock demo_detector
    demo_trades
  = @classify_each LCG.source UTCClock.clock demo_detector demo_trades.
Proof.
  apply (@ClassifyBatch_is_Classify_each LCG.source UTCClock.clock).
  assert (H : forallb (fun t => negb (String.eqb
                                       (@parser.Trade_Date UTCClock.clock t)
                                       EmptyString)) demo_trades = true)
    by (vm_compute; reflexivity).
  rewrite forallb_forall in H. intros trade Ht.
  apply list_elem_of_In in Ht. specialize (H _ Ht).
  apply negb_true_iff, String.eqb_neq in H. exact H.
Defined.

(** ** Hourly bars: the largest trade and the derived statistics *)

Ltac SF_cases :=
  repeat match goal with s : bool |- _ => destruct s end;
  simpl; try congruence; try tauto;
  change (Pos.compare_cont Eq) with Pos.compare in *;
  repeat match goal with
         | |- context [Z.compare ?a ?a] => rewrite (Z.compare_refl a)
         | |- context [Pos.compare ?a ?a] => rewrite (Pos.compare_refl a)
         end;
  simpl; try congruence; try tauto.

Lemma SFltb_not_nan (x y : spec_float) :
  SFltb x y = true ->
  SFeqb x x = true /\ SFeqb y y = true /\ SFleb x y = true.
Proof.
  unfold SFltb, SFeqb, SFleb, SFcompare.
  destruct x as [sx|sx| |sx mx ex], y as [sy|sy| |sy my ey]; SF_cases;
    destruct (Z.compare ex ey); simpl; try congruence; try tauto;
    destruct (Pos.compare mx my); simpl; try congruence; tauto.
Qed.

Lemma SFltb_false_leb (x y : spec_float) :
  SFeqb x x = true -> SFeqb y y = true ->
  SFltb x y = false -> SFleb y x = true.
Proof.
  unfold SFltb, SFeqb, SFleb, SFcompare.
  destruct x as [sx|sx| |sx mx ex], y as [sy|sy| |sy my ey]; SF_cases;
    rewrite (Z.compare_antisym ex ey), (Pos.compare_antisym mx my);
    destruct (Z.compare ex ey); simpl; try congruence;
    destruct (Pos.compare mx my); simpl; congruence.
Qed.

Lemma SFeqb_leb_refl (x : spec_float) : SFeqb x x = true -> SFleb x x = true.
Proof.
  unfold SFeqb, SFleb. destruct (SFcompare x x) as [[]|]; congruence.
Qed.

Lemma isNaN_false (x : float) :
  Go.isNaN x = false <-> SFeqb (Prim2SF x) (Prim2SF x) = true.
Proof.
  unfold Go.isNaN. rewrite FloatAxioms.eqb_spec.
  destruct (SFeqb _ _); simpl; split; congruence.
Qed.

Lemma SFsqrt_not_negative (x : spec_float) :
  SFltb (SF64sqrt x) (Prim2SF 0) = false.
Proof.
  change (Prim2SF 0) with (S754_zero false).
  unfold SF64sqrt, SFsqrt.
  destruct x as [s|s| |s m e]; try reflexivity;
    try (destruct s; reflexivity).
  destruct s; [reflexivity|].
  destruct (SFsqrt_core_binary prec emax (Z.pos m) e) as [[mz ez] lz].
  unfold binary_round_aux.
  destruct (shr_fexp prec emax mz ez lz) as [mrs e1].
  destruct (shr_fexp prec emax _ e1 loc_Exact) as [mrs2 e2].
  destruct (shr_m mrs2); try reflexivity.
  destruct (e2 <=? emax - prec); reflexivity.
Qed.

Section LargestTrade.

Import aggregator.

(** One [AddTrade]: the new maximum is the old one or the quantity, it is
    not below the old one, and the quantity is not above it unless it is
    a NaN. *)
Lemma AddTrade_MaxTradeSize (h : HourlyBar) (a : TradeArgs) :
  Go.isNaN (MaxTradeSize h) = false ->
  let h' := HourlyBar_AddTrade h a in
  Go.isNaN (MaxTradeSize h') = false
  /\ (MaxTradeSize h <=? MaxTradeSize h')%float = true
  /\ (Go.isNaN (qty a) = false -> (qty a <=? MaxTradeSize h')%float = true)
  /\ (MaxTradeSize h' = MaxTradeSize h \/ MaxTradeSize h' = qty a).
Proof.
  intros Hn. cbv zeta. unfold HourlyBar_AddTrade. simpl.
  apply isNaN_false in Hn.
  destruct (MaxTradeSize h <? qty a)%float eqn:E.
  - rewrite ltb_spec in E. apply SFltb_not_nan in E.
    destruct E as (_ & Hq & Hle).
    rewrite isNaN_false, !leb_spec.
    repeat split; auto using SFeqb_leb_refl.
  - rewrite ltb_spec in E. rewrite !isNaN_false, !leb_spec.
    repeat split; auto using SFeqb_leb_refl.
    intros Hq. apply SFltb_false_leb; assumption.
Qed.

(** [MaxTradeSize] after any trades: it is the starting value or the
    quantity of one of the trades, no quantity that is a number is above
    it, and it is never a NaN when the starting value is none (the zero
    of a new bar). *)
Theorem MaxTradeSize_is_largest (l : list TradeArgs) :
  forall h : HourlyBar,
    Go.isNaN (MaxTradeSize h) = false ->
    let h' := HourlyBar_AddTrades h l in
    Go.isNaN (MaxTradeSize h') = false
    /\ (MaxTradeSize h <=? MaxTradeSize h')%float = true
    /\ (forall a, a ∈ l -> Go.isNaN (qty a) = false ->
                  (qty a <=? MaxTradeSize h')%float = true)
    /\ (MaxTradeSize h' = MaxTradeSize h
        \/ exists a, a ∈ l /\ MaxTradeSize h' = qty a).
Proof.
  unfold HourlyBar_AddTrades.
  induction l as [|a l IH]; intros h Hn; cbv zeta; cbn [fold_left].
  - split; [exact Hn|]. split.
    + rewrite leb_spec. apply SFeqb_leb_refl, isNaN_false, Hn.
    + split; [|left; reflexivity]. intros a Ha.
      apply elem_of_nil in Ha. contradiction.
  - destruct (AddTrade_MaxTradeSize h a Hn) as (Hn1 & Hle1 & Hq1 & Hor1).
    destruct (IH _ Hn1) as (Hn2 & Hle2 & Hq2 & Hor2).
    split; [exact Hn2|]. split; [exact (float64_leb_trans _ _ _ Hle1 Hle2)|].
    split.
    + intros b Hb Hnb. apply elem_of_cons in Hb. destruct Hb as [->|Hb].
      * exact (float64_leb_trans _ _ _ (Hq1 Hnb) Hle2).
      * exact (Hq2 b Hb Hnb).
    + destruct Hor2 as [E2|(b & Hb & E2)].
      * destruct Hor1 as [E1|E1].
        -- left. congruence.
        -- right. exists a. split; [apply list_elem_of_here|congruence].
      * right. exists b. split; [apply list_elem_of_further, Hb|exact E2].
Qed.

Lemma MaxTradeSize_is_largest_demo :
  let h' := HourlyBar_AddTrades NewHourlyBar
              [mkTradeArgs 100 2 true 5 false false;
               mkTradeArgs 100 nan true 6 false false;
               mkTradeArgs 100 1 false 7 false false] in
  Go.isNaN (MaxTradeSize h') = false
  /\ (MaxTradeSize NewHourlyBar <=? MaxTradeSize h')%float = true
  /\ (forall a, a ∈ [mkTradeArgs 100 2 true 5 false false;
                     mkTradeArgs 100 nan true 6 false false;
                     mkTradeArgs 100 1 false 7 false false] ->
                Go.isNaN (qty a) = false ->
                (qty a <=? MaxTradeSize h')%float = true)
  /\ (MaxTradeSize h' = MaxTradeSize NewHourlyBar
      \/ exists a, a ∈ [mkTradeArgs 100 2 true 5 false false;
                        mkTradeArgs 100 nan true 6 false false;
                        mkTradeArgs 100 1 false 7 false false]
                   /\ MaxTradeSize h' = qty a).
Proof.
  apply (MaxTradeSize_is_largest _ NewHourlyBar). vm_compute. reflexivity.
Defined.

(** The bar [h] with the two derived statistics replaced. *)
Definition with_price_stats (h : HourlyBar) (vwap std : float) : HourlyBar :=
  mkHourlyBar (BuyVol h) (SellVol h) (NTrades h) (BuyCount h) (SellCount h)
    (WhaleBuyVolP99 h) (WhaleSellVolP99 h)
    (WhaleBuyCountP99 h) (WhaleSellCountP99 h)
    (WhaleBuyVolP999 h) (WhaleSellVolP999 h)
    (WhaleBuyCountP999 h) (WhaleSellCountP999 h)
    (VolFirst30Min h) (VolLast30Min h) (BuyVolUSD h) (SellVolUSD h)
    (MaxTradeSize h) vwap std
    (sumPriceQty h) (sumQty h) (sumPriceSqQty h).

(** [Finalize] writes the two derived statistics and nothing else, it
    leaves a bar whose summed quantity is not positive (no trade, or a
    NaN) as it is, and finalizing twice is finalizing once; the standard
    deviation it writes is never negative. *)
Theorem Finalize_idempotent (h : HourlyBar) :
  HourlyBar_Finalize (HourlyBar_Finalize h) = HourlyBar_Finalize h
  /\ (exists vwap std, HourlyBar_Finalize h = with_price_stats h vwap std)
  /\ ((0 <? sumQty h)%float = false -> HourlyBar_Finalize h = h)
  /\ ((0 <? sumQty h)%float = true ->
      VWAP (HourlyBar_Finalize h) = (sumPriceQty h / sumQty h)%float
      /\ (PriceStd (HourlyBar_Finalize h) <? 0)%float = false).
Proof.
  unfold HourlyBar_Finalize.
  destruct (0 <? sumQty h)%float eqn:E.
  - simpl. rewrite E. split; [reflexivity|]. split; [eauto|].
    split; [discriminate|]. intros _. split; [reflexivity|].
    rewrite ltb_spec, sqrt_spec. apply SFsqrt_not_negative.
  - rewrite E. split; [reflexivity|].
    split; [exists (VWAP h), (PriceStd h); destruct h; reflexivity|].
    split; [reflexivity|discriminate].
Qed.

End LargestTrade.

(** ** Sorting by a comparison *)

Section SortBy.
Context {A : Type} (less : A -> A -> bool).
Hypothesis less_asym : forall x y, less x y = true -> less y x = false.
Hypothesis less_before :
  forall x a y, less x a = true -> less y a = false -> less y x = false.

(** No element of the slice is below an earlier one. *)
Definition sorted_by (l : list A) : Prop :=
  StronglySorted (fun x y => less y x = false) l.

Lemma insert_sorted_elem_of (x y : A) (l : list A) :
  y ∈ Go.insert_sorted less x l <-> y = x \/ y ∈ l.
Proof.
  induction l as [|a l IH]; simpl.
  - rewrite list_elem_of_singleton, elem_of_nil. tauto.
  - destruct (less x a).
    + rewrite !elem_of_cons. tauto.
    + rewrite !elem_of_cons, IH. tauto.
Qed.

Lemma insert_sorted_Permutation (x : A) (l : list A) :
  Permutation (Go.insert_sorted less x l) (x :: l).
Proof.
  induction l as [|a l IH]; simpl; [reflexivity|].
  destruct (less x a); [reflexivity|].
  rewrite IH. apply perm_swap.
Qed.

Lemma sort_by_Permutation (l : list A) : Permutation (Go.sort_by less l) l.
Proof.
  unfold Go.sort_by. induction l as [|a l IH]; simpl; [reflexivity|].
  rewrite insert_sorted_Permutation, IH. reflexivity.
Qed.

Lemma insert_sorted_sorted (x : A) (l : list A) :
  sorted_by l -> sorted_by (Go.insert_sorted less x l).
Proof.
  unfold sorted_by.
  induction l as [|a l IH]; intros Hs; simpl.
  - constructor; [constructor|constructor].
  - inversion Hs as [|? ? Hs' Hall]; subst.
    destruct (less x a) eqn:E.
    + constructor; [exact Hs|]. constructor; [apply less_asym, E|].
      rewrite List.Forall_forall in *. intros z Hz.
      apply (less_before x a z E), Hall, Hz.
    + constructor; [apply IH, Hs'|].
      rewrite List.Forall_forall in *. intros z Hz.
      apply list_elem_of_In, insert_sorted_elem_of in Hz.
      destruct Hz as [->|Hz]; [exact E|].
      apply Hall, list_elem_of_In, Hz.
Qed.

Lemma sort_by_sorted (l : list A) : sorted_by (Go.sort_by less l).
Proof.
  unfold Go.sort_by. induction l as [|a l IH]; simpl; [constructor|].
  apply insert_sorted_sorted, IH.
Qed.

End SortBy.

Lemma Time_Before_true (t u : Time) :
  Time_Before t u = true
  <-> unix_sec t < unix_sec u
      \/ (unix_sec t = unix_sec u /\ nsec t < nsec u).
Proof.
  unfold Time_Before.
  rewrite orb_true_iff, andb_true_iff, !Z.ltb_lt, Z.eqb_eq. tauto.
Qed.

Lemma Time_Before_false (t u : Time) :
  Time_Before t u = false
  <-> unix_sec u < unix_sec t
      \/ (unix_sec t = unix_sec u /\ nsec u <= nsec t).
Proof.
  unfold Time_Before.
  rewrite orb_false_iff, andb_false_iff, !Z.ltb_ge, Z.eqb_neq. lia.
Qed.

Section BarsByTime.
Context {RS : RandSource} {CK : Clock}.

Import aggregator.

Definition before (x y : HourlyResult) : bool :=
  Time_Before (hr_Time x) (hr_Time y).

Lemma before_asym (x y : HourlyResult) :
  before x y = true -> before y x = false.
Proof.
  unfold before. rewrite Time_Before_true, Time_Before_false. lia.
Qed.

Lemma before_before (x a y : HourlyResult) :
  before x a = true -> before y a = false -> before y x = false.
Proof.
  unfold before. rewrite Time_Before_true, !Time_Before_false. lia.
Qed.

Lemma sort_by_time_sorted (l : list HourlyResult) :
  sorted_by before (sort_by_time l).
Proof. apply sort_by_sorted; [exact before_asym|exact before_before]. Qed.

Lemma sort_by_time_elem_of (x : HourlyResult) (l : list HourlyResult) :
  x ∈ sort_by_time l <-> x ∈ l.
Proof.
  unfold sort_by_time.
  rewrite (sort_by_Permutation (fun x y => Time_Before (hr_Time x) (hr_Time y)) l).
  reflexivity.
Qed.

(** The pending bar of an hour as a finalized result. *)
Definition finalized_result (kv : Time * HourlyBar) : HourlyResult :=
  mkHourlyResult kv.1 (HourlyBar_Finalize kv.2).

(** [Flush] leaves no bar pending.  The finalized bars are the old ones,
    in their order, followed by the pending ones: each pending bar once,
    finalized, under its hour, and in the order of the hours.  The
    detector and the range of dates are unchanged. *)
Theorem Flush_moves_pending (a : Aggregator) :
  pendingBars (Flush a) = ∅
  /\ detector (Flush a) = detector a
  /\ exists flushed,
       finalizedBars (Flush a) = finalizedBars a ++ flushed
       /\ Permutation flushed
            (map finalized_result (map_to_list (pendingBars a)))
       /\ length flushed = size (pendingBars a)
       /\ (forall hr, hr ∈ flushed
                      <-> exists bar,
                            pendingBars a !! hr_Time hr = Some bar
                            /\ hr_Bar hr = HourlyBar_Finalize bar)
       /\ sorted_by before flushed.
Proof.
  unfold Flush. simpl. split; [reflexivity|]. split; [reflexivity|].
  eexists. split; [reflexivity|].
  fold finalized_result.
  set (l := map finalized_result (map_to_list (pendingBars a))).
  assert (Hp : Permutation (sort_by_time l) l)
    by (apply sort_by_Permutation).
  split; [exact Hp|]. split; [|split].
  - rewrite Hp. unfold l. rewrite length_map, length_map_to_list. reflexivity.
  - intros hr. rewrite Hp. unfold l. rewrite list_elem_of_fmap. split.
    + intros [[t b] [-> Hin]]. apply elem_of_map_to_list in Hin.
      exists b. simpl. tauto.
    + intros (b & Hl & Hb). exists (hr_Time hr, b). split.
      * destruct hr as [t hb]. simpl in *. rewrite Hb. reflexivity.
      * apply elem_of_map_to_list. exact Hl.
  - apply sort_by_time_sorted.
Qed.

(** [GetBarsForMonth] returns the bars of the month and only those: the
    finalized ones and the pending ones, these finalized; the result is in
    the order of the hours.  What it returns is removed: the bars that
    stay are the bars of other months, unchanged, and a second call for
    the same month returns nothing and changes nothing. *)
Theorem GetBarsForMonth_takes_month (a : Aggregator) (month : string) :
  let bars := (GetBarsForMonth a month).1 in
  let a' := (GetBarsForMonth a month).2 in
  (forall hr, hr ∈ bars <->
              Time_Month (hr_Time hr) = month
              /\ (hr ∈ finalizedBars a
                  \/ exists bar, pendingBars a !! hr_Time hr = Some bar
                                 /\ hr_Bar hr = HourlyBar_Finalize bar))
  /\ sorted_by before bars
  /\ (forall hr, hr ∈ finalizedBars a' <->
                 hr ∈ finalizedBars a /\ Time_Month (hr_Time hr) <> month)
  /\ (forall t bar, pendingBars a' !! t = Some bar <->
                    pendingBars a !! t = Some bar /\ Time_Month t <> month)
  /\ detector a' = detector a
  /\ GetBarsForMonth a' month = ([], a').
Proof.
  cbv zeta. unfold GetBarsForMonth. simpl.
  assert (Heq : forall t, String.eqb (Time_Month t) month = true
                          <-> Time_Month t = month)
    by (intros t; apply String.eqb_eq).
  assert (Hne : forall t, String.eqb (Time_Month t) month <> true
                          <-> Time_Month t <> month)
    by (intros t; rewrite Heq; tauto).
  split; [|split; [|split; [|split; [|split]]]].
  - intros hr. rewrite sort_by_time_elem_of, elem_of_app, list_elem_of_filter,
      list_elem_of_fmap, Heq.
    split.
    + intros [[Hm Hin]|[[t b] [-> Hin]]].
      * tauto.
      * apply elem_of_map_to_list, map_lookup_filter_Some in Hin.
        simpl in *. rewrite Heq in Hin. split; [tauto|].
        right. exists b. tauto.
    + intros [Hm [Hin|(b & Hl & Hb)]]; [tauto|].
      right. exists (hr_Time hr, b). split.
      * destruct hr as [t hb]. simpl in *. rewrite Hb. reflexivity.
      * apply elem_of_map_to_list, map_lookup_filter_Some. simpl.
        rewrite Heq. tauto.
  - apply sort_by_time_sorted.
  - intros hr. rewrite list_elem_of_filter, Hne. tauto.
  - intros t bar. rewrite map_lookup_filter_Some. simpl. rewrite Hne. tauto.
  - reflexivity.
  - f_equal.
    + assert (E1 : filter (fun hr => String.eqb (Time_Month (hr_Time hr)) month
                                     = true)
                     (filter (fun hr => String.eqb (Time_Month (hr_Time hr))
                                          month <> true) (finalizedBars a))
                   = []).
      { induction (finalizedBars a) as [|x l IH]; [reflexivity|].
        rewrite (filter_cons _ x l). destruct (decide _) as [H|H]; [|exact IH].
        rewrite filter_cons. destruct (decide _); [contradiction|exact IH]. }
      assert (E2 : filter (fun kv : Time * HourlyBar =>
                             String.eqb (Time_Month kv.1) month = true)
                     (filter (fun kv : Time * HourlyBar =>
                                String.eqb (Time_Month kv.1) month <> true)
                        (pendingBars a))
                   = ∅).
      { apply map_eq. intros t. rewrite lookup_empty.
        apply map_lookup_filter_None. right. intros b Hb.
        apply map_lookup_filter_Some in Hb. simpl in *. tauto. }
      rewrite E1, E2, map_to_list_empty. reflexivity.
    + f_equal.
      * apply map_eq. intros t. apply option_eq. intros b.
        rewrite !map_lookup_filter_Some. simpl. tauto.
      * induction (finalizedBars a) as [|x l IH]; [reflexivity|].
        rewrite (filter_cons _ x l). destruct (decide _) as [H|H]; [|exact IH].
        rewrite filter_cons. destruct (decide _); [|contradiction].
        f_equal. exact IH.
Qed.

End BarsByTime.

(** ** The aggregator: the number of trades *)

Section TradeCount.
Context {RS : RandSource} {CK : Clock}.

Import aggregator.

(** The sum of [NTrades] over a list of bars, as an integer. *)
Definition trades_of (l : list HourlyBar) : Z :=
  foldr (fun bar s => NTrades bar + s) 0 l.

Lemma trades_of_app (l1 l2 : list HourlyBar) :
  trades_of (l1 ++ l2) = trades_of l1 + trades_of l2.
Proof. induction l1 as [|b l1 IH]; simpl; [reflexivity|]. rewrite IH. lia. Qed.

Lemma trades_of_Permutation (l1 l2 : list HourlyBar) :
  Permutation l1 l2 -> trades_of l1 = trades_of l2.
Proof. induction 1; simpl; lia. Qed.

(** The bars an aggregator holds. *)
Definition held_bars (a : Aggregator) : list HourlyBar :=
  map snd (map_to_list (pendingBars a)) ++ map hr_Bar (finalizedBars a).

Lemma pending_fold_sum (l : list (Time * HourlyBar)) :
  foldr (uncurry (fun (_ : Time) bar total =>
                    Go.int64_add total (NTrades bar))) 0 l
  = Go.int64_wrap (trades_of (map snd l)).
Proof.
  induction l as [|[t b] l IH]; simpl; [reflexivity|].
  rewrite IH. unfold Go.int64_add. rewrite int64_wrap_add_l. f_equal. lia.
Qed.

Lemma finalized_fold_sum (l : list HourlyResult) (s : Z) :
  fold_left (fun total result => Go.int64_add total (NTrades (hr_Bar result)))
    l (Go.int64_wrap s)
  = Go.int64_wrap (s + trades_of (map hr_Bar l)).
Proof.
  revert s. induction l as [|r l IH]; intros s; simpl.
  - rewrite Z.add_0_r. reflexivity.
  - unfold Go.int64_add at 2. rewrite int64_wrap_add_l, IH. f_equal. lia.
Qed.

(** [TotalTrades] is the sum of [NTrades] over all bars held, reduced to
    [int64]. *)
Lemma TotalTrades_sum (a : Aggregator) :
  TotalTrades a = Go.int64_wrap (trades_of (held_bars a)).
Proof.
  unfold TotalTrades, held_bars.
  rewrite (map_fold_foldr
             (fun _ bar total => Go.int64_add total (NTrades bar)) 0
             (pendingBars a)).
  rewrite pending_fold_sum, finalized_fold_sum, trades_of_app. reflexivity.
Qed.

Lemma trades_of_insert (m : gmap Time HourlyBar) (hour : Time)
    (bar' : HourlyBar) :
  trades_of (map snd (map_to_list (<[hour := bar']> m)))
  = trades_of (map snd (map_to_list m)) + NTrades bar'
    - match m !! hour with Some bar => NTrades bar | None => 0 end.
Proof.
  destruct (m !! hour) as [bar|] eqn:E.
  - rewrite <- (insert_delete_eq m hour bar').
    rewrite (trades_of_Permutation _ _
               (Permutation_map snd
                  (map_to_list_insert (delete hour m) hour bar'
                     (lookup_delete_eq m hour)))).
    rewrite <- (trades_of_Permutation _ _
                  (Permutation_map snd (map_to_list_delete m hour bar E))).
    simpl. lia.
  - rewrite (trades_of_Permutation _ _
               (Permutation_map snd (map_to_list_insert m hour bar' E))).
    simpl. lia.
Qed.

Lemma classify_step_TotalTrades (a a' : Aggregator) (trade : parser.Trade) :
  aggregator.classify_step (Some a) trade = Some a' ->
  TotalTrades a' = Go.int64_wrap (TotalTrades a + 1).
Proof.
  unfold aggregator.classify_step. intros H.
  destruct (whale.Detector_Classify (detector a) trade) as [[c d]|];
    [|discriminate].
  inversion H; subst a'; clear H.
  rewrite !TotalTrades_sum, int64_wrap_add_l. unfold held_bars. simpl.
  rewrite !trades_of_app, trades_of_insert.
  destruct (pendingBars a !! parser.Trade_Hour trade) as [bar|]; simpl.
  - unfold Go.int64_add.
    set (P := trades_of (map snd (map_to_list (pendingBars a)))).
    set (F := trades_of (map hr_Bar (finalizedBars a))).
    replace (P + Go.int64_wrap (NTrades bar + 1) - NTrades bar + F)
      with ((P - NTrades bar + F) + Go.int64_wrap (NTrades bar + 1)) by lia.
    rewrite int64_wrap_add_r. f_equal. lia.
  - f_equal. change (Go.int64_add 0 1) with 1. lia.
Qed.

Lemma second_pass_TotalTrades (trades : list parser.Trade) :
  forall a a',
    fold_left aggregator.classify_step trades (Some a) = Some a' ->
    Go.int64_wrap (TotalTrades a') 
    = Go.int64_wrap (TotalTrades a + Go.len trades).
Proof.
  unfold Go.len.
  induction trades as [|t trades IH]; intros a a' H; cbn [fold_left] in H.
  - inversion H; subst. simpl. rewrite Z.add_0_r. reflexivity.
  - destruct (aggregator.classify_step (Some a) t) as [a1|] eqn:E.
    2:{ exfalso. clear -H. induction trades as [|x l IHl];
          cbn [fold_left] in H; [discriminate|auto]. }
    rewrite (IH _ _ H), (classify_step_TotalTrades _ _ _ E).
    rewrite int64_wrap_add_l. f_equal. simpl length. lia.
Qed.

Lemma first_pass_TotalTrades (trades : list parser.Trade) :
  forall a a',
    fold_left sample_step trades (Some a) = Some a' ->
    TotalTrades a' = TotalTrades a.
Proof.
  induction trades as [|t trades IH]; intros a a' H; cbn [fold_left] in H.
  - inversion H; subst. reflexivity.
  - destruct (sample_step (Some a) t) as [a1|] eqn:E.
    2:{ exfalso. clear -H. induction trades as [|x l IHl];
          cbn [fold_left] in H; [discriminate|auto]. }
    rewrite (IH _ _ H). unfold sample_step in E.
    destruct (whale.Detector_AddSample _ _ _); [|discriminate].
    inversion E; subst. reflexivity.
Qed.

Lemma TotalTrades_in_int64 (a : Aggregator) :
  Go.int64_wrap (TotalTrades a) = TotalTrades a.
Proof.
  rewrite TotalTrades_sum. apply int64_wrap_small, int64_wrap_range.
Qed.

(** [TotalTrades] counts every trade once: it is zero for a new
    aggregator, [ProcessTrades] raises it by the number of trades of the
    batch (on [int64]), and [Flush], which moves the bars, keeps it. *)
Theorem TotalTrades_counts_trades :
  (forall w k, TotalTrades (NewAggregator w k) = 0)
  /\ (forall a trades a',
         ProcessTrades a trades = Some a' ->
         TotalTrades a' = Go.int64_wrap (TotalTrades a + Go.len trades))
  /\ (forall a, TotalTrades (Flush a) = TotalTrades a).
Proof.
  split; [|split].
  - intros w k. unfold TotalTrades, NewAggregator. simpl.
    rewrite map_fold_empty. reflexivity.
  - intros a trades a' H. unfold ProcessTrades in H.
    destruct (Go.len trades =? 0) eqn:E.
    + apply Z.eqb_eq in E. inversion H; subst. rewrite E, Z.add_0_r.
      symmetry. apply TotalTrades_in_int64.
    + destruct (fold_left sample_step trades (Some a)) as [a1|] eqn:E1.
      2:{ exfalso. clear -H. induction trades as [|x l IHl];
            cbn [fold_left] in H; [discriminate|auto]. }
      rewrite <- (TotalTrades_in_int64 a'), (second_pass_TotalTrades _ _ _ H),
        (first_pass_TotalTrades _ _ _ E1).
      reflexivity.
  - intros a. rewrite !TotalTrades_sum. f_equal. unfold held_bars, Flush.
    simpl. rewrite map_to_list_empty. simpl.
    rewrite map_app, !trades_of_app. unfold sort_by_time.
    rewrite (trades_of_Permutation _ _
               (Permutation_map hr_Bar
                  (sort_by_Permutation _
                     (map (fun kv : Time * HourlyBar =>
                             mkHourlyResult kv.1 (HourlyBar_Finalize kv.2))
                        (map_to_list (pendingBars a)))))).
    rewrite map_map. simpl.
    assert (E : trades_of (map (fun x : Time * HourlyBar =>
                                  HourlyBar_Finalize x.2)
                             (map_to_list (pendingBars a)))
                = trades_of (map snd (map_to_list (pendingBars a)))).
    { induction (map_to_list (pendingBars a)) as [|[t b] l IH]; simpl;
        [reflexivity|].
      rewrite IH. f_equal. unfold HourlyBar_Finalize.
      destruct (0 <? sumQty b)%float; reflexivity. }
    rewrite E. lia.
Qed.

End TradeCount.

Definition demo_processed : @aggregator.Aggregator LCG.source :=
  match @aggregator.ProcessTrades LCG.source UTCClock.clock
          (aggregator.NewAggregator 7 10000) demo_trades with
  | Some a => a
  | None => aggregator.NewAggregator 7 10000
  end.

Lemma demo_processed_eq :
  @aggregator.ProcessTrades LCG.source UTCClock.clock
    (aggregator.NewAggregator 7 10000) demo_trades
  = Some demo_processed.
Proof. apply some_of_default. vm_compute. reflexivity. Qed.

Lemma TotalTrades_counts_trades_demo :
  aggregator.TotalTrades demo_processed
  = Go.int64_wrap
      (aggregator.TotalTrades
         (@aggregator.NewAggregator LCG.source 7 10000)
       + Go.len demo_trades).
Proof.
  apply (proj1 (proj2 (@TotalTrades_counts_trades LCG.source UTCClock.clock))).
  exact demo_processed_eq.
Defined.

(** ** The aggregator: the range of dates *)

Section DateRange.
Context {RS : RandSource} {CK : Clock}.

Import aggregator.

(** [firstDate] and [lastDate] against the dates seen so far. *)
Definition range_ok (a : Aggregator) (seen : list string) : Prop :=
  (seen = [] -> firstDate a = EmptyString /\ lastDate a = EmptyString)
  /\ (seen <> [] -> firstDate a ∈ seen /\ lastDate a ∈ seen)
  /\ (forall d, d ∈ seen ->
                d <> EmptyString
                /\ Go.string_lt d (firstDate a) = false
                /\ Go.string_lt (lastDate a) d = false).

Lemma elem_of_rev {A : Type} (x : A) (l : list A) : x ∈ rev l <-> x ∈ l.
Proof. rewrite !list_elem_of_In. symmetry. apply in_rev. Qed.

Lemma string_lt_empty (d : string) :
  d <> EmptyString -> Go.string_lt EmptyString d = true.
Proof. destruct d; [congruence|reflexivity]. Qed.

Lemma sample_step_range (a a' : Aggregator) (trade : parser.Trade)
    (seen : list string) :
  range_ok a seen ->
  parser.Trade_Date trade <> EmptyString ->
  sample_step (Some a) trade = Some a' ->
  range_ok a' (parser.Trade_Date trade :: seen)
  /\ pendingBars a' = pendingBars a
  /\ finalizedBars a' = finalizedBars a.
Proof.
  intros (Hnil & Hne & Hall) Hd H. unfold sample_step in H.
  destruct (whale.Detector_AddSample _ _ _) as [det|]; [|discriminate].
  inversion H; subst a'; clear H. simpl.
  split; [|tauto]. set (date := parser.Trade_Date trade) in *.
  unfold range_ok. simpl. split; [discriminate|].
  destruct seen as [|s0 seen].
  - destruct (Hnil eq_refl) as [-> ->]. simpl.
    rewrite (string_lt_empty _ Hd). split.
    + intros _. split; apply list_elem_of_here.
    + intros d Hin. apply list_elem_of_singleton in Hin. subst d.
      rewrite string_lt_irrefl. tauto.
  - destruct (Hne ltac:(discriminate)) as [Hf Hl].
    assert (Hfne : String.eqb (firstDate a) EmptyString = false).
    { apply String.eqb_neq. apply (Hall _ Hf). }
    rewrite Hfne. simpl orb. split.
    + intros _. split.
      * destruct (Go.string_lt date (firstDate a));
          [apply list_elem_of_here|apply list_elem_of_further, Hf].
      * destruct (Go.string_lt (lastDate a) date);
          [apply list_elem_of_here|apply list_elem_of_further, Hl].
    + intros d Hin. apply elem_of_cons in Hin.
      destruct (Go.string_lt date (firstDate a)) eqn:E1,
               (Go.string_lt (lastDate a) date) eqn:E2;
        (destruct Hin as [->|Hin];
         [rewrite ?string_lt_irrefl; repeat split; auto
         |destruct (Hall d Hin) as (H1 & H2 & H3); repeat split; auto]).
      all: try (destruct (Go.string_lt d date) eqn:E3; [|reflexivity];
                rewrite (string_lt_trans _ _ _ E3 E1) in H2; discriminate).
      all: try (destruct (Go.string_lt date d) eqn:E3; [|reflexivity];
                rewrite (string_lt_trans _ _ _ E2 E3) in H3; discriminate).
Qed.

Lemma first_pass_range (trades : list parser.Trade) :
  forall a a' seen,
    range_ok a seen ->
    (forall t, t ∈ trades -> parser.Trade_Date t <> EmptyString) ->
    fold_left sample_step trades (Some a) = Some a' ->
    range_ok a' (rev (map parser.Trade_Date trades) ++ seen).
Proof.
  induction trades as [|t trades IH]; intros a a' seen Hok Hd H;
    cbn [fold_left] in H.
  - inversion H; subst. exact Hok.
  - destruct (sample_step (Some a) t) as [a1|] eqn:E.
    2:{ exfalso. clear -H. induction trades as [|x l IHl];
          cbn [fold_left] in H; [discriminate|auto]. }
    destruct (sample_step_range _ _ _ _ Hok
                (Hd t ltac:(apply list_elem_of_here)) E) as (Hok1 & _).
    simpl. rewrite <- app_assoc. simpl.
    apply (IH _ _ _ Hok1); [|exact H].
    intros x Hx. apply Hd, list_elem_of_further, Hx.
Qed.

Lemma second_pass_dates (trades : list parser.Trade) :
  forall a a',
    fold_left aggregator.classify_step trades (Some a) = Some a' ->
    firstDate a' = firstDate a /\ lastDate a' = lastDate a.
Proof.
  induction trades as [|t trades IH]; intros a a' H; cbn [fold_left] in H.
  - inversion H; subst. tauto.
  - destruct (aggregator.classify_step (Some a) t) as [a1|] eqn:E.
    2:{ exfalso. clear -H. induction trades as [|x l IHl];
          cbn [fold_left] in H; [discriminate|auto]. }
    destruct (IH _ _ H) as [-> ->]. unfold aggregator.classify_step in E.
    destruct (whale.Detector_Classify _ _) as [[c d]|]; [|discriminate].
    inversion E; subst. tauto.
Qed.

Lemma range_ok_dates (a a' : Aggregator) (seen : list string) :
  firstDate a' = firstDate a -> lastDate a' = lastDate a ->
  range_ok a seen -> range_ok a' seen.
Proof. unfold range_ok. intros -> ->. tauto. Qed.

Lemma ProcessBatches_range (batches : list (list parser.Trade)) :
  forall a a' seen,
    range_ok a seen ->
    (forall t, t ∈ concat batches -> parser.Trade_Date t <> EmptyString) ->
    ProcessBatches a batches = Some a' ->
    range_ok a' (rev (map parser.Trade_Date (concat batches)) ++ seen).
Proof.
  unfold ProcessBatches.
  induction batches as [|b batches IH]; intros a a' seen Hok Hd H;
    cbn [fold_left] in H.
  - inversion H; subst. exact Hok.
  - destruct (ProcessTrades a b) as [a1|] eqn:E.
    2:{ exfalso. clear -H. induction batches as [|x l IHl];
          cbn [fold_left] in H; [discriminate|auto]. }
    simpl concat. rewrite map_app, rev_app_distr, <- app_assoc.
    apply (IH a1); [|intros t Ht; apply Hd; simpl; apply elem_of_app; tauto
                   |exact H].
    unfold ProcessTrades in E. destruct (Go.len b =? 0) eqn:E0.
    + inversion E; subst a1. destruct b; [exact Hok|discriminate].
    + destruct (fold_left sample_step b (Some a)) as [a2|] eqn:E1.
      2:{ exfalso. clear -E. induction b as [|x l IHl];
            cbn [fold_left] in E; [discriminate|auto]. }
      destruct (second_pass_dates _ _ _ E) as [Ef El].
      apply (range_ok_dates a2 a1 _ Ef El).
      apply (first_pass_range b a a2 seen Hok); [|exact E1].
      intros t Ht. apply Hd. simpl. apply elem_of_app. tauto.
Qed.

(** The range of dates of a new aggregator after any batches whose trades
    all have a date (not the empty string): [firstDate] is the smallest
    date of a trade and [lastDate] the largest, whatever the order of the
    trades; without a trade both are empty. *)
Theorem ProcessBatches_date_range (w k : Z)
    (batches : list (list parser.Trade)) (a : Aggregator) :
  (forall t, t ∈ concat batches -> parser.Trade_Date t <> EmptyString) ->
  ProcessBatches (NewAggregator w k) batches = Some a ->
  let dates := map parser.Trade_Date (concat batches) in
  (dates = [] -> firstDate a = EmptyString /\ lastDate a = EmptyString)
  /\ (dates <> [] -> firstDate a ∈ dates /\ lastDate a ∈ dates)
  /\ (forall d, d ∈ dates ->
                Go.string_lt d (firstDate a) = false
                /\ Go.string_lt (lastDate a) d = false).
Proof.
  intros Hd H. cbv zeta.
  assert (Hnew : range_ok (NewAggregator w k) []).
  { unfold range_ok. simpl. split; [tauto|]. split; [congruence|].
    intros d Hin. apply elem_of_nil in Hin. contradiction. }
  pose proof (ProcessBatches_range batches _ _ _ Hnew Hd H) as Hok.
  rewrite app_nil_r in Hok. destruct Hok as (Hnil & Hne & Hall).
  set (dates := map parser.Trade_Date (concat batches)) in *.
  split; [|split].
  - intros E. apply Hnil. rewrite E. reflexivity.
  - intros E. rewrite <- !(elem_of_rev _ dates). apply Hne.
    intros E1. apply E. apply (f_equal (@rev string)) in E1.
    rewrite rev_involutive in E1. exact E1.
  - intros d Hin. apply Hall. apply elem_of_rev, Hin.
Qed.

End DateRange.

Lemma ProcessBatches_date_range_demo :
  let dates := map (@parser.Trade_Date UTCClock.clock)
                 (concat [demo_trades]) in
  (dates = [] -> aggregator.firstDate demo_processed = EmptyString
                 /\ aggregator.lastDate demo_processed = EmptyString)
  /\ (dates <> [] -> aggregator.firstDate demo_processed ∈ dates
                     /\ aggregator.lastDate demo_processed ∈ dates)
  /\ (forall d, d ∈ dates ->
                Go.string_lt d (aggregator.firstDate demo_processed) = false
                /\ Go.string_lt (aggregator.lastDate demo_processed) d = false).
Proof.
  apply (@ProcessBatches_date_range LCG.source UTCClock.clock 7 10000
           [demo_trades] demo_processed).
  - assert (H : forallb (fun t => negb (String.eqb
                                         (@parser.Trade_Date UTCClock.clock t)
                                         EmptyString))
                  (concat [demo_trades]) = true)
      by (vm_compute; reflexivity).
    rewrite forallb_forall in H. intros trade Ht.
    apply list_elem_of_In in Ht. specialize (H _ Ht).
    apply negb_true_iff, String.eqb_neq in H. exact H.
  - unfold aggregator.ProcessBatches. cbn [fold_left].
    exact demo_processed_eq.
Defined.

(** ** Checkpoint files *)

Lemma string_append_length (a b : string) :
  String.length (String.append a b)
  = (String.length a + String.length b)%nat.
Proof. induction a as [|c a IH]; simpl; [reflexivity|]. rewrite IH. reflexivity. Qed.

Lemma string_append_inj (a b c : string) :
  String.append a b = String.append a c -> b = c.
Proof.
  induction a as [|x a IH]; simpl; intros H; [exact H|].
  inversion H. auto.
Qed.

Lemma tmp_path_ne (path : string) : String.append path ".tmp" <> path.
Proof.
  intros H. apply (f_equal String.length) in H.
  rewrite string_append_length in H. simpl in H. lia.
Qed.

Section CheckpointFiles.

Import state.

(** What [atomicWrite] leaves at [path]: the whole data, and this exactly
    when it reports success, or what was there before; a file cut short
    can only be at [path.tmp].  No other file is touched, and [path] is
    renamed onto exactly on success. *)
Theorem atomicWrite_all_or_nothing (path : string) (data : FileData)
    (w : Disk FileData) :
  match atomicWrite path data w with
  | Ret None w' =>
      files w' !! path = Some data
      /\ files w' !! String.append path ".tmp" = None
      /\ renamed w' = renamed w ++ [path]
  | Ret (Some _) w' | Crashed w' =>
      files w' !! path = files w !! path
      /\ renamed w' = renamed w
  end
  /\ (forall p, p <> path -> p <> String.append path ".tmp" ->
                files (disk_of (atomicWrite path data w)) !! p
                = files w !! p).
Proof.
  pose proof (tmp_path_ne path) as Hne.
  unfold atomicWrite, io_bind, os_WriteFile, os_Rename, io_ret, next_outcome.
  destruct w as [fs rn fl]. simpl.
  destruct fl as [|o1 rest]; [|destruct o1]; simpl;
    try (destruct rest as [|o2 rest]; [|destruct o2]; simpl);
    rewrite ?lookup_insert_eq; simpl;
    repeat split; intros; simpl;
    repeat first [ rewrite lookup_insert_eq
                 | rewrite lookup_delete_eq
                 | rewrite lookup_insert_ne by congruence
                 | rewrite lookup_delete_ne by congruence ];
    reflexivity.
Qed.

(** What [deserializeBar] makes of a bar that [serializeBar] wrote: the
    time as whole seconds in UTC, the serialized fields, and zero for the
    running sums. *)
Definition reloaded (b : aggregator.HourlyResult) : aggregator.HourlyResult :=
  aggregator.mkHourlyResult (Time_of_Unix (Time_Unix (aggregator.hr_Time b)))
    (clear_accumulators (aggregator.hr_Bar b)).

Lemma deserializeBar_reloaded (b : aggregator.HourlyResult) :
  deserializeBar (serializeBar b) = reloaded b.
Proof. reflexivity. Qed.

Lemma atomicWrite_success (path : string) (data : FileData)
    (w w' : Disk FileData) :
  atomicWrite path data w = Ret None w' ->
  files w' !! path = Some data
  /\ (forall p, p <> path -> p <> String.append path ".tmp" ->
                files w' !! p = files w !! p).
Proof.
  intros H. pose proof (atomicWrite_all_or_nothing path data w) as [H1 H2].
  rewrite H in H1, H2. simpl in H2. tauto.
Qed.

(** The bars of a month that [SaveMonthBars] has saved are the bars that
    [LoadMonthBars] loads (when the read does not fail): the same hours
    and the same serialized fields, in the same order. *)
Theorem LoadMonthBars_after_SaveMonthBars (barsDir month : string)
    (bars : list aggregator.HourlyResult) (w w' : Disk FileData) :
  SaveMonthBars barsDir month bars w = Ret None w' ->
  faults w' = [] ->
  LoadMonthBars barsDir month w' = Ret (Some (map reloaded bars), None) w'.
Proof.
  intros H Hf. unfold SaveMonthBars, io_bind in H.
  destruct (os_MkdirAll barsDir w) as [[e|] w1|w1] eqn:E1; try discriminate.
  unfold json_Marshal in H.
  destruct (next_outcome w1) as [[] w2] eqn:E2; try discriminate.
  apply atomicWrite_success in H. destruct H as [Hp _].
  unfold LoadMonthBars, io_bind, os_ReadFile, next_outcome.
  rewrite Hf. simpl. rewrite Hp. simpl. unfold io_ret.
  rewrite map_map. destruct w'; simpl in *; subst; reflexivity.
Qed.

(** The state that [Save] has written is the state that [Load] returns:
    the completed months as given, the current version and the time of
    the call. *)
Theorem Manager_Load_after_Save (m : Manager) (now : Time) (st st' : State)
    (w w' : Disk FileData) :
  Manager_Save m now st w = Ret (st', None) w' ->
  faults w' = [] ->
  Manager_Load m w' = Ret (Some st', None) w'
  /\ st' = mkState currentVersion (CompletedMonths st) now.
Proof.
  intros H Hf. unfold Manager_Save, io_bind in H.
  destruct (os_MkdirAll (dir m) w) as [[e|] w1|w1] eqn:E1;
    unfold io_ret in H; try discriminate.
  unfold json_Marshal in H.
  destruct (next_outcome w1) as [[] w2] eqn:E2;
    unfold io_ret in H; try discriminate.
  destruct (atomicWrite _ _ w2) as [[e|] w3|w3] eqn:E3;
    unfold io_ret in H; try discriminate.
  inversion H; subst.
  apply atomicWrite_success in E3. destruct E3 as [Hp _].
  split; [|reflexivity].
  unfold Manager_Load, io_bind, os_ReadFile, next_outcome.
  rewrite Hf. simpl. rewrite Hp. simpl.
  unfold io_ret. destruct w'; simpl in *; subst; reflexivity.
Qed.

(** A month is pending exactly when it is not in the completed list;
    [GetPendingMonths] keeps the order of the months, and without a state
    every month is pending. *)
Theorem GetPendingMonths_not_completed (st : State) (allMonths : list string)
    (month : string) :
  (State_IsCompleted st month = true <-> month ∈ CompletedMonths st)
  /\ (month ∈ State_GetPendingMonths (Some st) allMonths
      <-> month ∈ allMonths /\ month ∉ CompletedMonths st)
  /\ State_GetPendingMonths None allMonths = allMonths
  /\ sublist (State_GetPendingMonths (Some st) allMonths) allMonths.
Proof.
  assert (Hc : forall mo, State_IsCompleted st mo = true
                          <-> mo ∈ CompletedMonths st).
  { intros mo. unfold State_IsCompleted. rewrite existsb_exists. split.
    - intros (x & Hin & Hx). apply String.eqb_eq in Hx. subst.
      apply list_elem_of_In, Hin.
    - intros Hin. exists mo. split; [apply list_elem_of_In, Hin|].
      apply String.eqb_refl. }
  split; [apply Hc|]. split; [|split; [reflexivity|]].
  - simpl. rewrite list_elem_of_In, List.filter_In, <- list_elem_of_In.
    rewrite negb_true_iff, <- Hc. destruct (State_IsCompleted st month);
      split; intros []; split; congruence.
  - simpl. induction allMonths as [|a l IH]; simpl; [constructor|].
    destruct (negb _); [apply sublist_skip|apply sublist_cons]; exact IH.
Qed.

End CheckpointFiles.

(** ** The checkpoint of a month *)

Lemma string_append_assoc (a b c : string) :
  String.append (String.append a b) c = String.append a (String.append b c).
Proof.
  induction a as [|x a IH]; [reflexivity|].
  change (String x (String.append (String.append a b) c)
          = String x (String.append a (String.append b c))).
  f_equal. exact IH.
Qed.

Section Checkpoint.
Context {RS : RandSource} {CK : Clock}.

Import state pipeline.

(** The three files of a checkpoint and their temporary files are six
    different paths. *)
Lemma checkpoint_paths_distinct (m : Manager) (month : string) :
  let bp := bars_path (Manager_BarsDir m) month in
  let dp := Manager_DetectorPath m in
  let sp := Manager_StatePath m in
  bp <> dp /\ bp <> String.append dp ".tmp"
  /\ bp <> sp /\ bp <> String.append sp ".tmp"
  /\ dp <> sp /\ dp <> String.append sp ".tmp"
  /\ dp <> String.append bp ".tmp" /\ sp <> String.append bp ".tmp"
  /\ sp <> String.append dp ".tmp".
Proof.
  cbv zeta. unfold bars_path, Manager_BarsDir, Manager_DetectorPath,
    Manager_StatePath, filepath_Join, barsDirName, detectorFileName,
    stateFileName.
  rewrite !string_append_assoc.
  repeat split; intros H; apply string_append_inj in H; simpl in H;
    discriminate.
Qed.

(** Each save touches its own file and its temporary file only, and on
    success its file holds the document. *)
Lemma save_frame (path : string) (doc : FileData)
    (save : IO FileData error) :
  (forall w, save w = atomicWrite path doc w
             \/ (files (disk_of (save w)) = files w
                 /\ renamed (disk_of (save w)) = renamed w
                 /\ forall w', save w <> Ret None w')
             \/ exists w1, files w1 = files w /\ renamed w1 = renamed w
                           /\ save w = atomicWrite path doc w1) ->
  forall w,
    (forall p, p <> path -> p <> String.append path ".tmp" ->
               files (disk_of (save w)) !! p = files w !! p)
    /\ match save w with
       | Ret None w' =>
           files w' !! path = Some doc /\ renamed w' = renamed w ++ [path]
       | Ret (Some _) w' | Crashed w' =>
           files w' !! path = files w !! path /\ renamed w' = renamed w
       end.
Proof.
  intros Hs w.
  destruct (Hs w) as [E|[(Ef & Er & Hn)|(w1 & Ef & Er & E)]].
  - rewrite E. destruct (atomicWrite_all_or_nothing path doc w) as [H1 H2].
    split; [exact H2|]. destruct (atomicWrite path doc w) as [[e|] w'|w'];
      tauto.
  - split; [intros; rewrite Ef; reflexivity|].
    destruct (save w) as [[e|] w'|w'] eqn:E; simpl in *;
      try (rewrite Ef, Er; tauto).
    exfalso. apply (Hn w'). reflexivity.
  - rewrite E. destruct (atomicWrite_all_or_nothing path doc w1) as [H1 H2].
    rewrite <- Ef, <- Er.
    split; [exact H2|]. destruct (atomicWrite path doc w1) as [[e|] w'|w'];
      tauto.
Qed.

Lemma next_outcome_files (w : Disk FileData) :
  files (next_outcome w).2 = files w /\ renamed (next_outcome w).2 = renamed w.
Proof. unfold next_outcome. destruct (faults w); simpl; tauto. Qed.

Lemma SaveMonthBars_frame (barsDir month : string)
    (bars : list aggregator.HourlyResult) (w : Disk FileData) :
  let path := bars_path barsDir month in
  (forall p, p <> path -> p <> String.append path ".tmp" ->
             files (disk_of (SaveMonthBars barsDir month bars w)) !! p
             = files w !! p)
  /\ match SaveMonthBars barsDir month bars w with
     | Ret None w' =>
         files w' !! path = Some (BarsJSON (map serializeBar bars))
         /\ renamed w' = renamed w ++ [path]
     | Ret (Some _) w' | Crashed w' =>
         files w' !! path = files w !! path /\ renamed w' = renamed w
     end.
Proof.
  cbv zeta. apply save_frame. clear w. intros w.
  unfold SaveMonthBars, io_bind, os_MkdirAll, json_Marshal, io_ret.
  pose proof (next_outcome_files w) as [F1 R1].
  destruct (next_outcome w) as [o1 w1]. simpl in F1, R1.
  pose proof (next_outcome_files w1) as [F2 R2].
  destruct o1; simpl.
  - destruct (next_outcome w1) as [o2 w2]. simpl in F2, R2.
    destruct o2; simpl.
    + right. right. exists w2. split; [congruence|]. split; [congruence|].
      reflexivity.
    + right. left. split; [congruence|]. split; [congruence|]. discriminate.
    + right. left. split; [congruence|]. split; [congruence|]. discriminate.
  - right. left. split; [congruence|]. split; [congruence|]. discriminate.
  - right. left. split; [congruence|]. split; [congruence|]. discriminate.
Qed.

Lemma SaveDetector_frame (path : string) (d : whale.Detector)
    (w : Disk FileData) :
  (forall p, p <> path -> p <> String.append path ".tmp" ->
             files (disk_of (SaveDetector path d w)) !! p = files w !! p)
  /\ match SaveDetector path d w with
     | Ret None w' =>
         files w' !! path = Some (DetectorJSON (detector_snapshot d))
         /\ renamed w' = renamed w ++ [path]
     | Ret (Some _) w' | Crashed w' =>
         files w' !! path = files w !! path /\ renamed w' = renamed w
     end.
Proof.
  apply save_frame. clear w. intros w.
  unfold SaveDetector, io_bind, json_Marshal, io_ret.
  pose proof (next_outcome_files w) as [F1 R1].
  destruct (next_outcome w) as [o1 w1]. simpl in F1, R1.
  destruct o1; simpl.
  - right. right. exists w1. split; [congruence|]. split; [congruence|].
    reflexivity.
  - right. left. split; [congruence|]. split; [congruence|]. discriminate.
  - right. left. split; [congruence|]. split; [congruence|]. discriminate.
Qed.

(** [Save] as a write of the state: the error only. *)
Lemma Manager_Save_frame (m : Manager) (now : Time) (st : State)
    (w : Disk FileData) :
  let path := Manager_StatePath m in
  let st' := mkState currentVersion (CompletedMonths st) now in
  (forall p, p <> path -> p <> String.append path ".tmp" ->
             files (disk_of (Manager_Save m now st w)) !! p = files w !! p)
  /\ match Manager_Save m now st w with
     | Ret (st1, None) w' =>
         st1 = st'
         /\ files w' !! path = Some (StateJSON st')
         /\ renamed w' = renamed w ++ [path]
     | Ret (st1, Some _) w' =>
         CompletedMonths st1 = CompletedMonths st
         /\ files w' !! path = files w !! path /\ renamed w' = renamed w
     | Crashed w' =>
         files w' !! path = files w !! path /\ renamed w' = renamed w
     end.
Proof.
  cbv zeta. unfold Manager_Save, io_bind, os_MkdirAll, json_Marshal, io_ret.
  pose proof (next_outcome_files w) as [F1 R1].
  destruct (next_outcome w) as [o1 w1]. simpl in F1, R1.
  pose proof (next_outcome_files w1) as [F2 R2].
  destruct o1; simpl; try (rewrite F1, R1; tauto).
  destruct (next_outcome w1) as [o2 w2]. simpl in F2, R2.
  destruct o2; simpl; try (rewrite F2, F1, R2, R1; tauto).
  destruct (atomicWrite_all_or_nothing (Manager_StatePath m)
              (StateJSON (mkState currentVersion (CompletedMonths st) now)) w2)
    as [H1 H2].
  rewrite F2, F1, R2, R1 in *.
  destruct (atomicWrite _ _ w2) as [[e|] w'|w']; simpl in *; tauto.
Qed.

Lemma saveCheckpoint_outcome (p : Pipeline) (now : Time)
    (month : string) (w : Disk FileData) :
  let bars := (aggregator.GetBarsForMonth (aggregator_ p) month).1 in
  let agg := (aggregator.GetBarsForMonth (aggregator_ p) month).2 in
  let bp := bars_path (Manager_BarsDir (stateMgr p)) month in
  let dp := Manager_DetectorPath (stateMgr p) in
  let sp := Manager_StatePath (stateMgr p) in
  let st' := mkState currentVersion
               (CompletedMonths (state_ p) ++ [month]) now in
  match saveCheckpoint p now month w with
  | Ret (n, None, p') w' =>
      n = Go.len bars /\ aggregator_ p' = agg /\ state_ p' = st'
      /\ files w' !! bp = Some (BarsJSON (map serializeBar bars))
      /\ files w' !! dp
         = Some (DetectorJSON (detector_snapshot (aggregator.detector agg)))
      /\ files w' !! sp = Some (StateJSON st')
      /\ renamed w' = renamed w ++ [bp; dp; sp]
  | Ret (n, Some _, p') w' =>
      files w' !! sp = files w !! sp /\ aggregator_ p' = agg
      /\ ((renamed w' = renamed w /\ n = 0 /\ state_ p' = state_ p)
          \/ (renamed w' = renamed w ++ [bp] /\ n = Go.len bars
              /\ state_ p' = state_ p)
          \/ (renamed w' = renamed w ++ [bp; dp] /\ n = Go.len bars
              /\ CompletedMonths (state_ p')
                 = CompletedMonths (state_ p) ++ [month]))
  | Crashed w' =>
      files w' !! sp = files w !! sp
      /\ (renamed w' = renamed w \/ renamed w' = renamed w ++ [bp]
          \/ renamed w' = renamed w ++ [bp; dp])
  end.
Proof.
  cbv zeta. unfold saveCheckpoint.
  destruct (aggregator.GetBarsForMonth (aggregator_ p) month) as [bars agg].
  simpl fst. simpl snd.
  destruct (checkpoint_paths_distinct (stateMgr p) month)
    as (N1 & N2 & N3 & N4 & N5 & N6 & N7 & N8 & N9).
  set (bp := bars_path (Manager_BarsDir (stateMgr p)) month) in *.
  set (dp := Manager_DetectorPath (stateMgr p)) in *.
  set (sp := Manager_StatePath (stateMgr p)) in *.
  unfold io_bind.
  destruct (SaveMonthBars_frame (Manager_BarsDir (stateMgr p)) month bars w)
    as [FB RB]. fold bp in FB, RB.
  destruct (SaveMonthBars (Manager_BarsDir (stateMgr p)) month bars w)
    as [[e|] w1|w1]; simpl in FB; unfold io_ret.
  - rewrite (FB sp) by congruence. destruct RB as [_ RB]. tauto.
  - destruct RB as [RB1 RB2].
    destruct (SaveDetector_frame dp (aggregator.detector agg) w1) as [FD RD].
    destruct (SaveDetector dp (aggregator.detector agg) w1) as [[e|] w2|w2];
      simpl in FD.
    + rewrite (FD sp), (FB sp) by congruence. destruct RD as [_ RD].
      rewrite RD, RB2. tauto.
    + destruct RD as [RD1 RD2].
      destruct (Manager_Save_frame (stateMgr p) now
                  (mkState (Version (state_ p))
                     (CompletedMonths (state_ p) ++ [month])
                     (LastUpdate (state_ p))) w2) as [FS RS_].
      fold sp in FS, RS_. simpl in RS_.
      destruct (Manager_Save (stateMgr p) now _ w2) as [[st1 [e|]] w3|w3];
        simpl in FS.
      * destruct RS_ as (Hc & Hs & Hr). simpl.
        rewrite Hs, (FD sp), (FB sp) by congruence.
        rewrite Hr, RD2, RB2, <- app_assoc. simpl. tauto.
      * destruct RS_ as (-> & Hs & Hr). simpl.
        rewrite (FS bp), (FD bp), (FS dp) by congruence.
        rewrite Hr, RD2, RB2, <- !app_assoc. simpl. tauto.
      * destruct RS_ as (Hs & Hr).
        rewrite Hs, (FD sp), (FB sp) by congruence.
        rewrite Hr, RD2, RB2, <- app_assoc. simpl. tauto.
    + rewrite (FD sp), (FB sp) by congruence. destruct RD as [_ RD].
      rewrite RD, RB2. tauto.
  - rewrite (FB sp) by congruence. destruct RB as [_ RB]. tauto.
Qed.

(** What a checkpoint leaves behind, whatever fails or crashes.  On
    success the number of bars of the month is returned, the month is
    appended to the completed months in memory, and the three files hold
    the bars, the detector and the new state, renamed into place in that
    order.  Otherwise [state.json] is what it was before the call; the
    bars file and then the detector file may already be in place; the
    completed months in memory are unchanged when the bars or the detector
    could not be saved, and hold the month when only the state could not.
    In every case the bars of the month have left the aggregator. *)
Theorem saveCheckpoint_state_last (p : Pipeline) (now : Time)
    (month : string) (w : Disk FileData) :
  let bars := (aggregator.GetBarsForMonth (aggregator_ p) month).1 in
  let agg := (aggregator.GetBarsForMonth (aggregator_ p) month).2 in
  let bp := bars_path (Manager_BarsDir (stateMgr p)) month in
  let dp := Manager_DetectorPath (stateMgr p) in
  let sp := Manager_StatePath (stateMgr p) in
  let st' := mkState currentVersion
               (CompletedMonths (state_ p) ++ [month]) now in
  match saveCheckpoint p now month w with
  | Ret (n, None, p') w' =>
      n = Go.len bars /\ aggregator_ p' = agg /\ state_ p' = st'
      /\ files w' !! bp = Some (BarsJSON (map serializeBar bars))
      /\ files w' !! dp
         = Some (DetectorJSON (detector_snapshot (aggregator.detector agg)))
      /\ files w' !! sp = Some (StateJSON st')
      /\ renamed w' = renamed w ++ [bp; dp; sp]
  | Ret (n, Some _, p') w' =>
      files w' !! sp = files w !! sp /\ aggregator_ p' = agg
      /\ ((renamed w' = renamed w /\ n = 0 /\ state_ p' = state_ p)
          \/ (renamed w' = renamed w ++ [bp] /\ n = Go.len bars
              /\ state_ p' = state_ p)
          \/ (renamed w' = renamed w ++ [bp; dp] /\ n = Go.len bars
              /\ CompletedMonths (state_ p')
                 = CompletedMonths (state_ p) ++ [month]))
  | Crashed w' =>
      files w' !! sp = files w !! sp
      /\ (renamed w' = renamed w \/ renamed w' = renamed w ++ [bp]
          \/ renamed w' = renamed w ++ [bp; dp])
  end.
Proof. exact (saveCheckpoint_outcome p now month w). Qed.

(** After a checkpoint that succeeded, a restart finds it: [Load] returns
    the state with the month completed, so the month is not pending, and
    the bars and the detector of the checkpoint are the ones loaded. *)
Theorem saveCheckpoint_then_restart (p p' : Pipeline) (now : Time)
    (month : string) (n : Z) (w w' : Disk FileData)
    (allMonths : list string) :
  saveCheckpoint p now month w = Ret (n, None, p') w' ->
  faults w' = [] ->
  Manager_Load (stateMgr p) w' = Ret (Some (state_ p'), None) w'
  /\ State_IsCompleted (state_ p') month = true
  /\ (month ∉ State_GetPendingMonths (Some (state_ p')) allMonths)
  /\ LoadMonthBars (Manager_BarsDir (stateMgr p)) month w'
     = Ret (Some (map reloaded
                    (aggregator.GetBarsForMonth (aggregator_ p) month).1),
            None) w'
  /\ LoadDetector (Manager_DetectorPath (stateMgr p)) w'
     = Ret (Some (detector_snapshot
                    (aggregator.detector (aggregator_ p'))), None) w'.
Proof.
  intros H Hf. pose proof (saveCheckpoint_outcome p now month w) as Ho.
  cbv zeta in Ho. rewrite H in Ho.
  destruct Ho as (_ & Ea & Es & Hb & Hd & Hs & _).
  unfold Manager_Load, LoadMonthBars, LoadDetector, io_bind, os_ReadFile,
    next_outcome, io_ret.
  rewrite Hf. simpl. rewrite Hb, Hd, Hs, Es, Ea. simpl.
  assert (Hc : State_IsCompleted
                 (mkState currentVersion
                    (CompletedMonths (state_ p) ++ [month]) now) month = true).
  { unfold State_IsCompleted. simpl. rewrite existsb_app. simpl.
    rewrite String.eqb_refl. apply orb_true_r. }
  rewrite map_map.
  destruct w' as [fs rn fl]; simpl in *; subst fl.
  repeat split; try reflexivity; try exact Hc.
  intros Hin. apply list_elem_of_In, List.filter_In in Hin.
  destruct Hin as [_ Hin]. rewrite Hc in Hin. discriminate.
Qed.

(** The window that [ImportState] and [ImportBootstrap] build in [rp0]
    from a snapshot. *)
Definition restored_window (rp0 : whale.RollingPercentile)
    (ds : DetectorState) : whale.RollingPercentile :=
  whale.RollingPercentile_ImportBootstrap
    (whale.RollingPercentile_ImportState rp0
       (DetectorState_ToWhaleReservoirs ds) (DateOrder ds))
    (DetectorState_ToWhaleBootstrap ds).

Lemma restored_window_spec (rp0 : whale.RollingPercentile)
    (d : whale.Detector) :
  let rp' := restored_window rp0 (detector_snapshot d) in
  whale.dateOrder rp' = whale.dateOrder (whale.rolling d)
  /\ (forall date,
         whale.dailySamples rp' !! date
         = (fun r => whale.mkReservoir (whale.samples r)
                       (whale.samplesPerDay rp0) (whale.count r)
                       (NewSource 42))
           <$> (whale.dailySamples (whale.rolling d) !! date))
  /\ whale.fallback_thresholds rp'
     = whale.fallback_thresholds (whale.rolling d)
  /\ (whale.windowDays rp0 = whale.windowDays (whale.rolling d) ->
      forall date,
        whale.RollingPercentile_GetThresholds rp' date
        = whale.RollingPercentile_GetThresholds (whale.rolling d) date).
Proof.
  cbv zeta.
  assert (Hl : forall date,
             whale.dailySamples (restored_window rp0 (detector_snapshot d))
               !! date
             = (fun r => whale.mkReservoir (whale.samples r)
                           (whale.samplesPerDay rp0) (whale.count r)
                           (NewSource 42))
               <$> (whale.dailySamples (whale.rolling d) !! date)).
  { intros date. unfold restored_window. simpl.
    unfold DetectorState_ToWhaleReservoirs, detector_snapshot. simpl.
    rewrite !lookup_fmap.
    destruct (whale.dailySamples (whale.rolling d) !! date); reflexivity. }
  assert (Hfb : whale.fallback_thresholds
                  (restored_window rp0 (detector_snapshot d))
                = whale.fallback_thresholds (whale.rolling d)).
  { unfold whale.fallback_thresholds, restored_window. simpl.
    destruct (whale.bootstrapped (whale.rolling d)); [|reflexivity].
    destruct (whale.bootstrapThresholds (whale.rolling d)); reflexivity. }
  split; [reflexivity|]. split; [exact Hl|]. split; [exact Hfb|].
  intros Hw date. unfold whale.RollingPercentile_GetThresholds.
  rewrite Hfb.
  replace (whale.window_dates (restored_window rp0 (detector_snapshot d)) date)
    with (whale.window_dates (whale.rolling d) date)
    by (unfold whale.window_dates, restored_window; simpl; rewrite Hw;
        reflexivity).
  destruct (whale.window_dates (whale.rolling d) date) as [wd|]; [|reflexivity].
  replace (whale.collect_samples
             (whale.dailySamples (restored_window rp0 (detector_snapshot d)))
             wd)
    with (whale.collect_samples (whale.dailySamples (whale.rolling d)) wd);
    [reflexivity|].
  unfold whale.collect_samples. f_equal. apply map_ext. intros x.
  rewrite (Hl x). destruct (whale.dailySamples (whale.rolling d) !! x);
    reflexivity.
Qed.

(** The detector that [restoreDetectorState] builds from the file that
    [SaveDetector] wrote: the same dates, for every date a reservoir with
    the same samples and count (its capacity is the one of the running
    configuration and its generator starts again at the seed), the same
    bootstrap, and an empty cache.  With the same window length it gives
    the same thresholds for every date. *)
Theorem restoreDetectorState_after_SaveDetector (p : Pipeline)
    (d : whale.Detector) (w w' : Disk FileData) :
  SaveDetector (Manager_DetectorPath (stateMgr p)) d w = Ret None w' ->
  faults w' = [] ->
  exists p',
    restoreDetectorState p w' = Ret (None, p') w'
    /\ let d0 := aggregator.detector (aggregator_ p) in
       let d' := aggregator.detector (aggregator_ p') in
       whale.thresholdCache d' = ∅
       /\ whale.dateOrder (whale.rolling d') = whale.dateOrder (whale.rolling d)
       /\ (forall date,
              whale.dailySamples (whale.rolling d') !! date
              = (fun r => whale.mkReservoir (whale.samples r)
                            (whale.samplesPerDay (whale.rolling d0))
                            (whale.count r) (NewSource 42))
                <$> (whale.dailySamples (whale.rolling d) !! date))
       /\ whale.fallback_thresholds (whale.rolling d')
          = whale.fallback_thresholds (whale.rolling d)
       /\ (whale.windowDays (whale.rolling d0)
           = whale.windowDays (whale.rolling d) ->
           forall date,
             whale.RollingPercentile_GetThresholds (whale.rolling d') date
             = whale.RollingPercentile_GetThresholds (whale.rolling d) date).
Proof.
  intros H Hf.
  destruct (SaveDetector_frame (Manager_DetectorPath (stateMgr p)) d w)
    as [_ Hd].
  rewrite H in Hd. destruct Hd as [Hd _].
  unfold restoreDetectorState, LoadDetector, io_bind, os_ReadFile,
    next_outcome, io_ret.
  rewrite Hf. simpl. rewrite Hd. simpl.
  eexists. split; [destruct w' as [fs rn fl]; simpl in *; subst fl; reflexivity|].
  cbv zeta.
  destruct (restored_window_spec
              (whale.rolling (aggregator.detector (aggregator_ p))) d)
    as (H1 & H2 & H3 & H4).
  split; [reflexivity|]. split; [exact H1|]. split; [exact H2|].
  split; [exact H3|exact H4].
Qed.

End Checkpoint.

(** ** Checkpoints on an empty disk *)

Definition empty_disk : Disk state.FileData := mkDisk ∅ [] [].

Lemma res_saved (r : Res state.FileData error) :
  match r with Ret None _ => true | _ => false end = true ->
  r = Ret None (disk_of r).
Proof.
  destruct r as [[e|] w|w]; simpl; intros H; try discriminate; reflexivity.
Qed.

Definition demo_bars_disk : Disk state.FileData :=
  disk_of (state.SaveMonthBars "ck/bars" "2020-01" [one_trade_bar] empty_disk).

Lemma LoadMonthBars_after_SaveMonthBars_demo :
  state.LoadMonthBars "ck/bars" "2020-01" demo_bars_disk
  = Ret (Some (map reloaded [one_trade_bar]), None) demo_bars_disk.
Proof.
  apply (LoadMonthBars_after_SaveMonthBars "ck/bars" "2020-01" [one_trade_bar]
           empty_disk demo_bars_disk).
  - apply res_saved. vm_compute. reflexivity.
  - vm_compute. reflexivity.
Defined.

Definition demo_state : state.State :=
  state.mkState 0 ["2019-12"%string] (Time_of_Unix 0).

Definition demo_state_saved : state.State :=
  state.mkState state.currentVersion ["2019-12"%string]
    (Time_of_Unix 1700000000).

Definition demo_state_disk : Disk state.FileData :=
  disk_of (state.Manager_Save (state.mkManager "ck")
             (Time_of_Unix 1700000000) demo_state empty_disk).

Lemma demo_state_disk_eq :
  state.Manager_Save (state.mkManager "ck") (Time_of_Unix 1700000000)
    demo_state empty_disk
  = Ret (demo_state_saved, None) demo_state_disk.
Proof. vm_compute. reflexivity. Qed.

Lemma Manager_Load_after_Save_demo :
  state.Manager_Load (state.mkManager "ck") demo_state_disk
  = Ret (Some demo_state_saved, None) demo_state_disk
  /\ demo_state_saved
     = state.mkState state.currentVersion (state.CompletedMonths demo_state)
         (Time_of_Unix 1700000000).
Proof.
  apply (Manager_Load_after_Save (state.mkManager "ck")
           (Time_of_Unix 1700000000) demo_state demo_state_saved empty_disk
           demo_state_disk).
  - exact demo_state_disk_eq.
  - vm_compute. reflexivity.
Defined.

(** The pipeline after [demo_trades], before its first checkpoint. *)
Definition demo_pipeline : @pipeline.Pipeline LCG.source :=
  pipeline.mkPipeline demo_processed (state.mkManager "ck")
    (state.mkState 0 [] (Time_of_Unix 0)).

Definition demo_checkpoint
  : Res state.FileData (Z * error * @pipeline.Pipeline LCG.source) :=
  @pipeline.saveCheckpoint LCG.source UTCClock.clock demo_pipeline (Time_of_Unix 1700000000) "2020-01"
    empty_disk.

Definition demo_checkpoint_hours : Z :=
  match demo_checkpoint with Ret (n, _, _) _ => n | Crashed _ => 0 end.

Definition demo_checkpoint_pipeline
  : @pipeline.Pipeline LCG.source :=
  match demo_checkpoint with
  | Ret (_, _, p') _ => p'
  | Crashed _ => demo_pipeline
  end.

Lemma demo_checkpoint_eq :
  @pipeline.saveCheckpoint LCG.source UTCClock.clock demo_pipeline (Time_of_Unix 1700000000) "2020-01"
    empty_disk
  = Ret (demo_checkpoint_hours, None, demo_checkpoint_pipeline)
      (disk_of demo_checkpoint).
Proof.
  assert (H : match demo_checkpoint with
              | Ret (_, None, _) _ => true
              | _ => false
              end = true) by (vm_compute; reflexivity).
  unfold demo_checkpoint_hours, demo_checkpoint_pipeline.
  fold demo_checkpoint.
  destruct demo_checkpoint as [[[n [e|]] p'] w|w]; try discriminate.
  reflexivity.
Qed.

Lemma saveCheckpoint_then_restart_demo :
  state.Manager_Load (pipeline.stateMgr demo_pipeline) (disk_of demo_checkpoint)
  = Ret (Some (pipeline.state_ demo_checkpoint_pipeline), None)
      (disk_of demo_checkpoint)
  /\ state.State_IsCompleted (pipeline.state_ demo_checkpoint_pipeline)
       "2020-01" = true
  /\ ("2020-01"%string
      ∉ state.State_GetPendingMonths
          (Some (pipeline.state_ demo_checkpoint_pipeline))
          ["2020-01"; "2020-02"]%string)
  /\ state.LoadMonthBars (state.Manager_BarsDir (pipeline.stateMgr demo_pipeline))
       "2020-01" (disk_of demo_checkpoint)
     = Ret (Some (map reloaded
                    (@aggregator.GetBarsForMonth LCG.source UTCClock.clock
                       (pipeline.aggregator_ demo_pipeline) "2020-01").1),
            None) (disk_of demo_checkpoint)
  /\ state.LoadDetector
       (state.Manager_DetectorPath (pipeline.stateMgr demo_pipeline))
       (disk_of demo_checkpoint)
     = Ret (Some (state.detector_snapshot
                    (aggregator.detector
                       (pipeline.aggregator_ demo_checkpoint_pipeline))),
            None) (disk_of demo_checkpoint).
Proof.
  apply (@saveCheckpoint_then_restart LCG.source UTCClock.clock demo_pipeline demo_checkpoint_pipeline
           (Time_of_Unix 1700000000) "2020-01" demo_checkpoint_hours
           empty_disk (disk_of demo_checkpoint)).
  - exact demo_checkpoint_eq.
  - vm_compute. reflexivity.
Defined.

Definition demo_detector_disk : Disk state.FileData :=
  disk_of (state.SaveDetector
             (state.Manager_DetectorPath (pipeline.stateMgr demo_pipeline))
             demo_detector empty_disk).

Lemma restoreDetectorState_after_SaveDetector_demo :
  exists p',
    pipeline.restoreDetectorState demo_pipeline demo_detector_disk
    = Ret (None, p') demo_detector_disk
    /\ let d0 := aggregator.detector (pipeline.aggregator_ demo_pipeline) in
       let d' := aggregator.detector (pipeline.aggregator_ p') in
       whale.thresholdCache d' = ∅
       /\ whale.dateOrder (whale.rolling d')
          = whale.dateOrder (whale.rolling demo_detector)
       /\ (forall date,
              whale.dailySamples (whale.rolling d') !! date
              = (fun r => whale.mkReservoir (whale.samples r)
                            (whale.samplesPerDay (whale.rolling d0))
                            (whale.count r) (NewSource 42))
                <$> (whale.dailySamples (whale.rolling demo_detector) !! date))
       /\ whale.fallback_thresholds (whale.rolling d')
          = whale.fallback_thresholds (whale.rolling demo_detector)
       /\ (whale.windowDays (whale.rolling d0)
           = whale.windowDays (whale.rolling demo_detector) ->
           forall date,
             whale.RollingPercentile_GetThresholds (whale.rolling d') date
             = whale.RollingPercentile_GetThresholds
                 (whale.rolling demo_detector) date).
Proof.
  apply (restoreDetectorState_after_SaveDetector demo_pipeline demo_detector
           empty_disk demo_detector_disk).
  - apply res_saved. vm_compute. reflexivity.
  - vm_compute. reflexivity.
Defined.

(** ** All bars, and the size of the window *)

Section AllBars.
Context {RS : RandSource} {CK : Clock}.

Import aggregator.

Lemma Finalize_twice (h : HourlyBar) :
  HourlyBar_Finalize (HourlyBar_Finalize h) = HourlyBar_Finalize h.
Proof.
  unfold HourlyBar_Finalize.
  destruct (0 <? sumQty h)%float eqn:E; simpl; rewrite E; reflexivity.
Qed.

(** [GetAllBars] returns every bar held, the pending ones finalized, in
    the order of the hours; it keeps all of them in the aggregator, the
    pending ones finalized, and a second call returns the same bars. *)
Theorem GetAllBars_returns_all (a : Aggregator) :
  let bars := (GetAllBars a).1 in
  let a' := (GetAllBars a).2 in
  Permutation bars
    (finalizedBars a ++ map finalized_result (map_to_list (pendingBars a)))
  /\ sorted_by before bars
  /\ finalizedBars a' = finalizedBars a
  /\ pendingBars a' = HourlyBar_Finalize <$> pendingBars a
  /\ (GetAllBars a').1 = bars
  /\ (pendingBars a = ∅ -> Permutation bars (finalizedBars a) /\ a' = a).
Proof.
  cbv zeta. unfold GetAllBars. simpl.
  assert (E : map (fun kv : Time * HourlyBar => mkHourlyResult kv.1 kv.2)
                (map_to_list (HourlyBar_Finalize <$> pendingBars a))
              = map finalized_result (map_to_list (pendingBars a))).
  { rewrite map_to_list_fmap.
    change (@fmap list _ _ _ (prod_map id HourlyBar_Finalize)
              (map_to_list (pendingBars a)))
      with (map (prod_map id HourlyBar_Finalize) (map_to_list (pendingBars a))).
    rewrite map_map. apply map_ext. intros [t b]. reflexivity. }
  assert (E2 : HourlyBar_Finalize <$> (HourlyBar_Finalize <$> pendingBars a)
               = HourlyBar_Finalize <$> pendingBars a).
  { apply map_eq. intros t. rewrite !lookup_fmap.
    destruct (pendingBars a !! t) as [b|]; simpl; [|reflexivity].
    rewrite Finalize_twice. reflexivity. }
  rewrite E2, E. split; [apply sort_by_Permutation|].
  split; [apply sort_by_time_sorted|]. split; [reflexivity|].
  split; [reflexivity|]. split; [reflexivity|].
  intros Hm. rewrite Hm, map_to_list_empty. simpl. rewrite app_nil_r.
    split; [apply sort_by_Permutation|].
    rewrite fmap_empty. destruct a; simpl in *; subst; reflexivity.
Qed.

End AllBars.

Section WindowSize.
Context {RS : RandSource}.

Import whale.

Lemma size_fold_bound (k : Z) (l : list (string * Reservoir)) :
  0 <= k -> Z.of_nat (length l) * k < 2 ^ 63 ->
  (forall d r, (d, r) ∈ l -> Go.len (samples r) <= k) ->
  0 <= foldr (uncurry (fun (_ : string) reservoir total =>
                         Go.int64_add total (Reservoir_Size reservoir))) 0 l
    <= Z.of_nat (length l) * k.
Proof.
  intros Hk.
  set (f := uncurry (fun (_ : string) reservoir total =>
                       Go.int64_add total (Reservoir_Size reservoir))).
  induction l as [|[d r] l IH]; intros Hb Hall; [simpl; lia|].
  change (foldr f 0 ((d, r) :: l))
    with (Go.int64_add (foldr f 0 l) (Reservoir_Size r)).
  change (length ((d, r) :: l)) with (S (length l)) in *.
  rewrite Nat2Z.inj_succ, Z.mul_succ_l in *.
  assert (Hl : Z.of_nat (length l) * k < 2 ^ 63) by lia.
  specialize (IH Hl (fun d0 r0 H => Hall d0 r0 (list_elem_of_further _ _ _ H))).
  pose proof (Hall d r (list_elem_of_here _ _)) as Hr.
  assert (H0 : 0 <= Go.len (samples r)) by (unfold Go.len; lia).
  unfold Go.int64_add, Reservoir_Size.
  rewrite int64_wrap_small by (unfold Go.in_int64; lia).
  lia.
Qed.

(** The memory of the window is bounded: in a state that [AddSample]
    keeps, [GetStats] reports as many dates as the window holds and at
    most [samplesPerDay] samples for each of them. *)
Theorem GetStats_bounded (rp : RollingPercentile) :
  window_ok rp -> 0 <= samplesPerDay rp ->
  Go.len (dateOrder rp) * samplesPerDay rp < 2 ^ 63 ->
  (RollingPercentile_GetStats rp).1 = Go.len (dateOrder rp)
  /\ Z.of_nat (size (dailySamples rp)) = Go.len (dateOrder rp)
  /\ 0 <= (RollingPercentile_GetStats rp).2
       <= Go.len (dateOrder rp) * samplesPerDay rp.
Proof.
  intros (Hinc & Hkeys & Hres) Hk Hb.
  assert (Hlen : length (map_to_list (dailySamples rp))
                 = length (dateOrder rp)).
  { rewrite <- (length_map fst (map_to_list (dailySamples rp))).
    apply Permutation_length, NoDup_Permutation.
    - apply NoDup_fst_map_to_list.
    - apply increasing_NoDup, Hinc.
    - intros d. rewrite Hkeys, list_elem_of_fmap. split.
      + intros [[d0 r] [-> Hin]]. apply elem_of_map_to_list in Hin. eauto.
      + intros [r Hr]. exists (d, r). split; [reflexivity|].
        apply elem_of_map_to_list, Hr. }
  unfold RollingPercentile_GetStats. simpl.
  split; [reflexivity|]. split.
  - rewrite <- length_map_to_list, Hlen. reflexivity.
  - rewrite map_fold_foldr. unfold Go.len in *. rewrite <- Hlen in *.
    apply size_fold_bound; [exact Hk|exact Hb|].
    intros d r Hin. apply elem_of_map_to_list in Hin.
    apply (Hres d r Hin).
Qed.

End WindowSize.

Lemma GetStats_bounded_demo :
  (whale.RollingPercentile_GetStats demo_window).1
  = Go.len (whale.dateOrder demo_window)
  /\ Z.of_nat (size (whale.dailySamples demo_window))
     = Go.len (whale.dateOrder demo_window)
  /\ 0 <= (whale.RollingPercentile_GetStats demo_window).2
       <= Go.len (whale.dateOrder demo_window)
          * whale.samplesPerDay demo_window.
Proof.
  apply (GetStats_bounded demo_window).
  - exact demo_window_ok.
  - vm_compute. discriminate.
  - rewrite demo_window_dates. vm_compute. reflexivity.
Defined.

(** ** The bootstrap thresholds *)

Section Bootstrap.
Context {RS : RandSource}.

Import whale.

Lemma AddSample_bootstrap_fields (rp rp' : RollingPercentile) (date : string)
    (qty : float) :
  RollingPercentile_AddSample rp date qty = Some rp' ->
  exists rp1,
    bootstrap_step rp qty = Some rp1
    /\ bootstrapped rp' = bootstrapped rp1
    /\ bootstrapThresholds rp' = bootstrapThresholds rp1
    /\ bootstrapBuffer rp' = bootstrapBuffer rp1.
Proof.
  unfold RollingPercentile_AddSample. intros H.
  destruct (bootstrap_step rp qty) as [rp1|]; [|discriminate].
  exists rp1. split; [reflexivity|].
  destruct (dailySamples rp1 !! date).
  - destruct (Reservoir_Add _ qty); [|discriminate].
    inversion H; subst. simpl. tauto.
  - destruct (NewReservoir _); [|discriminate].
    destruct (Reservoir_Add _ qty); [|discriminate].
    inversion H; subst. simpl. tauto.
Qed.

(** The thresholds of the samples [buffer], as
    [computeBootstrapThresholds] computes them. *)
Definition thresholds_of (buffer : list float) (t : Thresholds) : Prop :=
  percentile (Go.sort_Float64s buffer) 99 = Some (P99 t)
  /\ percentile (Go.sort_Float64s buffer) 99.9 = Some (P999 t).

Lemma AddSamples_bootstrap_from (l : list (string * float)) :
  forall rp rp',
    RollingPercentile_AddSamples rp l = Some rp' ->
    (bootstrapped rp = true ->
     bootstrapped rp' = true
     /\ bootstrapThresholds rp' = bootstrapThresholds rp
     /\ bootstrapBuffer rp' = bootstrapBuffer rp)
    /\ (bootstrapped rp = false ->
        Go.len (bootstrapBuffer rp) < bootstrapSampleCount ->
        let need := Z.to_nat (bootstrapSampleCount
                              - Go.len (bootstrapBuffer rp)) in
        (Go.len (bootstrapBuffer rp) + Go.len l < bootstrapSampleCount ->
         bootstrapped rp' = false
         /\ bootstrapBuffer rp' = bootstrapBuffer rp ++ map snd l)
        /\ (bootstrapSampleCount <= Go.len (bootstrapBuffer rp) + Go.len l ->
            bootstrapped rp' = true
            /\ bootstrapBuffer rp' = []
            /\ thresholds_of (bootstrapBuffer rp ++ map snd (take need l))
                 (bootstrapThresholds rp'))).
Proof.
  unfold RollingPercentile_AddSamples, Go.len.
  induction l as [|[d q] l IH]; intros rp rp' H; cbn [fold_left] in H.
  - inversion H; subst. split; [tauto|]. intros Hb Hlen. cbv zeta.
    simpl. rewrite app_nil_r. split; [tauto|]. lia.
  - simpl in H.
    destruct (RollingPercentile_AddSample rp d q) as [rp1|] eqn:Ha.
    2:{ exfalso. clear -H. induction l as [|x l IHl]; cbn [fold_left] in H;
          [discriminate|auto]. }
    destruct (AddSample_bootstrap_fields _ _ _ _ Ha)
      as (rp2 & Hs & Eb & Et & Ebuf).
    destruct (IH _ _ H) as [IH1 IH2]. clear IH.
    unfold bootstrap_step in Hs. split.
    + intros Hb. rewrite Hb in Hs. inversion Hs; subst rp2.
      rewrite Hb in Eb. destruct (IH1 Eb) as (H1 & H2 & H3).
      rewrite H1, H2, H3, Et, Ebuf. tauto.
    + intros Hb Hlen. cbv zeta. rewrite Hb in Hs. simpl in Hs.
      unfold Go.len in Hs. rewrite length_app in Hs. simpl length in Hs.
      destruct (bootstrapSampleCount
                <=? Z.of_nat (length (bootstrapBuffer rp) + 1)) eqn:E.
      * apply Z.leb_le in E.
        assert (Hn : Z.to_nat (bootstrapSampleCount
                               - Z.of_nat (length (bootstrapBuffer rp)))
                     = 1%nat) by lia.
        rewrite Hn. simpl take. rewrite take_0.
        unfold computeBootstrapThresholds in Hs. simpl in Hs.
        destruct (percentile _ 99) as [a|] eqn:Ea; [|discriminate].
        destruct (percentile _ 99.9) as [b|] eqn:Eb2; [|discriminate].
        inversion Hs; subst rp2. simpl in *.
        destruct (IH1 Eb) as (H1 & H2 & H3).
        split; [simpl length; lia|]. intros _.
        rewrite H1, H2, H3, Et, Ebuf. unfold thresholds_of. simpl. tauto.
      * apply Z.leb_gt in E. inversion Hs; subst rp2. simpl in *.
        assert (Hlen1 : Z.of_nat (length (bootstrapBuffer rp1))
                        < bootstrapSampleCount).
        { rewrite Ebuf, length_app. simpl. lia. }
        destruct (IH2 Eb Hlen1) as [IHa IHb]. clear IH2.
        rewrite Ebuf in *. rewrite length_app in *. simpl length in *.
        split.
        -- intros Hlt. destruct IHa as [Ha1 Ha2]; [lia|].
           split; [exact Ha1|]. rewrite Ha2, <- app_assoc. reflexivity.
        -- intros Hge. destruct IHb as (Hb1 & Hb2 & Hb3); [lia|].
           split; [exact Hb1|]. split; [exact Hb2|].
           replace (Z.to_nat (bootstrapSampleCount
                              - Z.of_nat (length (bootstrapBuffer rp))))
             with (S (Z.to_nat (bootstrapSampleCount
                                - Z.of_nat (length (bootstrapBuffer rp) + 1))))
             by lia.
           simpl take. simpl map. rewrite <- app_assoc in Hb3. exact Hb3.
Qed.

(** The bootstrap thresholds are computed once, from the first 50000
    samples in the order of arrival, whatever their dates: before the
    50000th sample the window is not bootstrapped and the buffer holds all
    samples so far; from then on it is bootstrapped, the buffer is empty,
    and the thresholds are the 99 and 99.9 percentiles of those first
    50000 samples, sorted, for good. *)
Theorem AddSamples_bootstrap_once (w k : Z) (l : list (string * float))
    (rp : RollingPercentile) :
  RollingPercentile_AddSamples (NewRollingPercentile w k) l = Some rp ->
  (Go.len l < bootstrapSampleCount ->
   bootstrapped rp = false /\ bootstrapBuffer rp = map snd l)
  /\ (bootstrapSampleCount <= Go.len l ->
      bootstrapped rp = true
      /\ bootstrapBuffer rp = []
      /\ thresholds_of (map snd (take (Z.to_nat bootstrapSampleCount) l))
           (bootstrapThresholds rp)).
Proof.
  intros H.
  destruct (AddSamples_bootstrap_from l _ _ H) as [_ H2].
  specialize (H2 eq_refl ltac:(vm_compute; reflexivity)).
  cbv zeta in H2. simpl in H2. rewrite Z.sub_0_r in H2.
  exact H2.
Qed.

End Bootstrap.

Lemma AddSamples_bootstrap_once_demo :
  (Go.len demo_samples < whale.bootstrapSampleCount ->
   whale.bootstrapped demo_window = false
   /\ whale.bootstrapBuffer demo_window = map snd demo_samples)
  /\ (whale.bootstrapSampleCount <= Go.len demo_samples ->
      whale.bootstrapped demo_window = true
      /\ whale.bootstrapBuffer demo_window = []
      /\ thresholds_of
           (map snd (take (Z.to_nat whale.bootstrapSampleCount) demo_samples))
           (whale.bootstrapThresholds demo_window)).
Proof.
  apply (AddSamples_bootstrap_once 7 2 demo_samples demo_window).
  exact demo_window_eq.
Defined.
